(** * BettaFish: forum log tailer, moderator, readiness gate, retry envelope

    A shallow embedding of the orchestration core of the repository:
    - [ForumEngine/monitor.py]   (class [LogMonitor]),
    - [ReportEngine/agent.py]    ([FileCountBaseline], [check_input_files]),
    - [InsightEngine/agent.py]   ([_process_paragraphs], [_reflection_loop]),
    - [MediaEngine/nodes/summary_node.py] ([mutate_state]),
    - [app.py]                   ([_prepare_system_start], [start_system]),
    - [utils/retry_helper.py]    ([with_retry], [retry_on_network_error],
                                 [with_graceful_retry]).

    Python [str] values are sequences of Unicode code points; they are
    modelled as lists of [N].  Python's [re] patterns used by the monitor are
    written in a small regular-expression syntax with a backtracking matcher
    that follows the order in which [re] explores alternatives. *)

From Stdlib Require Import ZArith NArith List String Ascii Bool Lia.
From stdpp Require Import base option list gmap strings.
Import ListNotations.

Local Open Scope N_scope.

(** ** Python strings *)

Module Py.

Definition char := N.
Definition str := list char.

(** A string literal of the source (all literals of the modelled code are ASCII). *)
Definition lit (s : string) : str :=
  List.map N_of_ascii (list_ascii_of_string s).

Definition LF : char := 10.
Definition CR : char := 13.
Definition BACKSLASH : char := 92.
Definition DQUOTE : char := 34.

Fixpoint str_eqb (a b : str) : bool :=
  match a, b with
  | [], [] => true
  | x :: a', y :: b' => (x =? y) && str_eqb a' b'
  | _, _ => false
  end.

(** [str.isspace] of one character, which is also what [\s] matches in a
    [str] pattern and what [str.strip()] removes. *)
Definition isspace (c : char) : bool :=
  ((9 <=? c) && (c <=? 13)) || ((28 <=? c) && (c <=? 32))
  || (c =? 133) || (c =? 160) || (c =? 5760)
  || ((8192 <=? c) && (c <=? 8202))
  || (c =? 8232) || (c =? 8233) || (c =? 8239) || (c =? 8287) || (c =? 12288).

(** The code points with [str.isdecimal], which [\d] matches in a [str]
    pattern (Unicode 14 table, as inclusive ranges). *)
Definition decimal_ranges : list (N * N) :=
  [ (48, 57); (1632, 1641); (1776, 1785); (1984, 1993); (2406, 2415);
    (2534, 2543); (2662, 2671); (2790, 2799); (2918, 2927); (3046, 3055);
    (3174, 3183); (3302, 3311); (3430, 3439); (3558, 3567); (3664, 3673);
    (3792, 3801); (3872, 3881); (4160, 4169); (4240, 4249); (6112, 6121);
    (6160, 6169); (6470, 6479); (6608, 6617); (6784, 6793); (6800, 6809);
    (6992, 7001); (7088, 7097); (7232, 7241); (7248, 7257); (42528, 42537);
    (43216, 43225); (43264, 43273); (43472, 43481); (43504, 43513);
    (43600, 43609); (44016, 44025); (65296, 65305); (66720, 66729);
    (68912, 68921); (69734, 69743); (69872, 69881); (69942, 69951);
    (70096, 70105); (70384, 70393); (70736, 70745); (70864, 70873);
    (71248, 71257); (71360, 71369); (71472, 71481); (71904, 71913);
    (72016, 72025); (72784, 72793); (73040, 73049); (73120, 73129);
    (92768, 92777); (92864, 92873); (93008, 93017); (120782, 120831);
    (123200, 123209); (123632, 123641); (125264, 125273); (130032, 130041) ].

Definition isdecimal (c : char) : bool :=
  existsb (fun r => (fst r <=? c) && (c <=? snd r)) decimal_ranges.

Fixpoint lstrip (s : str) : str :=
  match s with
  | c :: s' => if isspace c then lstrip s' else s
  | [] => []
  end.
Definition rstrip (s : str) : str := rev (lstrip (rev s)).
(** [s.strip()] *)
Definition strip (s : str) : str := rstrip (lstrip s).

Fixpoint startswith (p s : str) : bool :=
  match p, s with
  | [], _ => true
  | x :: p', y :: s' => (x =? y) && startswith p' s'
  | _ :: _, [] => false
  end.

(** [s.endswith(p)] *)
Definition endswith (p s : str) : bool := startswith (rev p) (rev s).

(** [sub in s] *)
Fixpoint contains (sub s : str) : bool :=
  startswith sub s ||
  match s with
  | [] => false
  | _ :: s' => contains sub s'
  end.

(** [s.find(sub)], with [None] for Python's [-1]. *)
Fixpoint find (sub s : str) : option nat :=
  if startswith sub s then Some 0%nat
  else match s with
       | [] => None
       | _ :: s' => S <$> find sub s'
       end.

(** [s.count(c)] for a one-character [c]. *)
Definition count (c : char) (s : str) : nat :=
  length (List.filter (fun x => x =? c) s).

(** [s.replace(c, new)] for a one-character [c]. *)
Definition replace (c : char) (new : str) (s : str) : str :=
  flat_map (fun x => if x =? c then new else [x]) s.

(** [s.split('\n')] *)
Fixpoint split_lines_aux (cur : str) (s : str) : list str :=
  match s with
  | [] => [rev cur]
  | c :: s' => if c =? LF then rev cur :: split_lines_aux [] s'
               else split_lines_aux (c :: cur) s'
  end.
Definition split_lines (s : str) : list str := split_lines_aux [] s.

(** Truth value of a [str]. *)
Definition nonempty (s : str) : bool :=
  match s with [] => false | _ => true end.

End Py.

(** ** The fragment of [re] used by the monitor *)

Module Re.
Import Py.

(** Quantifiers occur in the monitor's patterns only over single-character
    classes, so repetition is over a class. *)
Inductive regex : Type :=
| Eps
| Chr (p : char -> bool)                (* one character of a class *)
| Seq (r1 r2 : regex)
| Alt (r1 r2 : regex)                   (* r1|r2, r1 tried first *)
| Star (greedy : bool) (p : char -> bool)   (* p* and p*? *)
| Group (r : regex)                     (* the capturing group *)
| Bol                                   (* ^ *)
| Eol.                                  (* $ *)

(** A position of the matcher: index in the subject, remaining input and
    the text of the capturing group, if it took part. *)
Record mst : Type := MSt { m_pos : nat; m_rest : str; m_cap : option str }.

Definition orelse {A} (a b : option A) : option A :=
  match a with Some _ => a | None => b end.

Fixpoint star_greedy (p : char -> bool) (k : mst -> option mst)
    (i : nat) (s : str) (cap : option str) : option mst :=
  match s with
  | c :: s' =>
      if p c then orelse (star_greedy p k (S i) s' cap) (k (MSt i s cap))
      else k (MSt i s cap)
  | [] => k (MSt i s cap)
  end.

Fixpoint star_lazy (p : char -> bool) (k : mst -> option mst)
    (i : nat) (s : str) (cap : option str) : option mst :=
  orelse (k (MSt i s cap))
    match s with
    | c :: s' => if p c then star_lazy p k (S i) s' cap else None
    | [] => None
    end.

(** [run r k st]: the first way, in backtracking order, to match [r] at
    [st] such that the continuation [k] succeeds afterwards. *)
Fixpoint run (r : regex) (k : mst -> option mst) (st : mst) : option mst :=
  match r with
  | Eps => k st
  | Chr p =>
      match m_rest st with
      | c :: s' => if p c then k (MSt (S (m_pos st)) s' (m_cap st)) else None
      | [] => None
      end
  | Seq r1 r2 => run r1 (run r2 k) st
  | Alt r1 r2 => orelse (run r1 k st) (run r2 k st)
  | Star true p => star_greedy p k (m_pos st) (m_rest st) (m_cap st)
  | Star false p => star_lazy p k (m_pos st) (m_rest st) (m_cap st)
  | Group r1 =>
      run r1 (fun st' =>
                k (MSt (m_pos st') (m_rest st')
                       (Some (take (m_pos st' - m_pos st) (m_rest st))))) st
  | Bol => if Nat.eqb (m_pos st) 0 then k st else None
  | Eol =>
      match m_rest st with
      | [] => k st
      | [c] => if c =? LF then k st else None
      | _ => None
      end
  end.

(** Match [r] at index [i], where [s] is the subject from [i] on. *)
Definition match_at (r : regex) (i : nat) (s : str) : option mst :=
  run r Some (MSt i s None).

(** [re.match(r, s)] *)
Definition re_match (r : regex) (s : str) : option mst := match_at r 0 s.

(** [re.search(r, s)]: leftmost match. *)
Fixpoint search_from (r : regex) (i : nat) (s : str) : option mst :=
  orelse (match_at r i s)
    match s with
    | [] => None
    | _ :: s' => search_from r (S i) s'
    end.
Definition re_search (r : regex) (s : str) : option mst := search_from r 0 s.

(** [re.sub(r, repl, s)] for a literal replacement.  Every pattern the
    monitor substitutes matches at least one character; a match that
    consumes nothing is treated as no match at that index. *)
Fixpoint sub_from (fuel : nat) (r : regex) (repl : str) (i : nat) (s : str) : str :=
  match fuel with
  | O => s
  | S fuel' =>
      match match_at r i s with
      | Some st =>
          if Nat.ltb i (m_pos st)
          then repl ++ sub_from fuel' r repl (m_pos st) (m_rest st)
          else match s with
               | [] => []
               | c :: s' => c :: sub_from fuel' r repl (S i) s'
               end
      | None =>
          match s with
          | [] => []
          | c :: s' => c :: sub_from fuel' r repl (S i) s'
          end
      end
  end.
Definition re_sub (r : regex) (repl : str) (s : str) : str :=
  sub_from (S (length s)) r repl 0 s.

(** *** Pattern building blocks *)

Definition eqc (c : char) : char -> bool := fun x => x =? c.
Definition neqc (c : char) : char -> bool := fun x => negb (x =? c).
Definition dot : char -> bool := neqc LF.                 (* . *)
Definition upper_AZ : char -> bool := fun x => (65 <=? x) && (x <=? 90).   (* [A-Z] *)

(** A literal letter under [re.IGNORECASE] (for an upper-case ASCII
    letter [c] of the pattern): both cases, and the extra code points
    that [re] folds onto i, s and k. *)
Definition icase (c : char) : char -> bool :=
  fun x => (x =? c) || (x =? c + 32)
           || ((c =? 73) && ((x =? 304) || (x =? 305)))
           || ((c =? 83) && (x =? 383))
           || ((c =? 75) && (x =? 8490)).

Fixpoint seqs (rs : list regex) : regex :=
  match rs with
  | [] => Eps
  | [r] => r
  | r :: rs' => Seq r (seqs rs')
  end.

Definition Lit (s : string) : regex := seqs (List.map (fun c => Chr (eqc c)) (lit s)).
Definition LitI (s : string) : regex := seqs (List.map (fun c => Chr (icase c)) (lit s)).
Definition Plus (greedy : bool) (p : char -> bool) : regex := Seq (Chr p) (Star greedy p).
Fixpoint Rep (n : nat) (p : char -> bool) : regex :=
  match n with
  | O => Eps
  | S O => Chr p
  | S n' => Seq (Chr p) (Rep n' p)
  end.

Definition ws_star : regex := Star true isspace.          (* \s* *)
Definition ws_plus : regex := Plus true isspace.          (* \s+ *)
Definition d2 : regex := Rep 2 isdecimal.                 (* \d{2} *)

(** [\[\d{2}:\d{2}:\d{2}\]] *)
Definition re_hms : regex :=
  seqs [Lit "["; d2; Lit ":"; d2; Lit ":"; d2; Lit "]"].

(** [\d{4}-\d{2}-\d{2}\s+\d{2}:\d{2}:\d{2}\.\d{3}] *)
Definition re_loguru_time : regex :=
  seqs [Rep 4 isdecimal; Lit "-"; d2; Lit "-"; d2; ws_plus;
        d2; Lit ":"; d2; Lit ":"; d2; Lit "."; Rep 3 isdecimal].

(** [\d{4}-\d{2}-\d{2}\s+\d{2}:\d{2}:\d{2}\.\d{3}\s*\|\s*[A-Z]+\s*\|\s*[^|]+?\s*-\s*] *)
Definition re_loguru_prefix : regex :=
  seqs [re_loguru_time; ws_star; Lit "|"; ws_star; Plus true upper_AZ; ws_star;
        Lit "|"; ws_star; Plus false (neqc 124); ws_star; Lit "-"; ws_star].

End Re.

(** ** JSON values, as [json.loads] returns them *)

Module Json.
Import Py.

#[local] Set Warnings "-register-all".
Inductive json : Type :=
| JNull
| JBool (b : bool)
| JInt (z : Z)
| JFloat (bits : N)                 (* the IEEE-754 binary64 pattern *)
| JStr (s : str)
| JArr (l : list json)
| JObj (kv : list (str * json)).    (* a dict: keys are unique *)

(** Truth value of a Python object ([if content:]). *)
Definition truthy (v : json) : bool :=
  match v with
  | JNull => false
  | JBool b => b
  | JInt z => negb (z =? 0)%Z
  | JFloat bits => negb (N.land bits (2 ^ 63 - 1) =? 0)
  | JStr s => nonempty s
  | JArr l => match l with [] => false | _ => true end
  | JObj kv => match kv with [] => false | _ => true end
  end.

(** [d[key]] / [key in d] on a dict. *)
Fixpoint dict_get (key : str) (kv : list (str * json)) : option json :=
  match kv with
  | [] => None
  | (k, v) :: kv' => if str_eqb k key then Some v else dict_get key kv'
  end.

(** [d[key] = value]: the position of an existing key is kept. *)
Fixpoint dict_set (key : str) (value : json) (kv : list (str * json)) : list (str * json) :=
  match kv with
  | [] => [(key, value)]
  | (k, v) :: kv' =>
      if str_eqb k key then (k, value) :: kv' else (k, v) :: dict_set key value kv'
  end.

(** *** A parser for the examples

    [json.loads] itself is a parameter of the development.  The examples
    run with this parser for the objects the summary nodes print: one
    object whose fields are strings.  On such a text it returns what
    [json.loads] returns; every other text is rejected. *)

Definition json_ws (c : char) : bool := (c =? 32) || (c =? 9) || (c =? 10) || (c =? 13).

Fixpoint skip_ws (s : str) : str :=
  match s with
  | c :: s' => if json_ws c then skip_ws s' else s
  | [] => []
  end.

(** The character an escape sequence stands for, by the letter that
    follows the backslash (the [u] form is not among the examples). *)
Definition unescape (c : char) : option char :=
  if c =? DQUOTE then Some DQUOTE
  else if c =? BACKSLASH then Some BACKSLASH
  else if c =? 47 then Some 47     (* slash *)
  else if c =? 110 then Some 10    (* n: line feed *)
  else if c =? 116 then Some 9     (* t: tab *)
  else if c =? 114 then Some 13    (* r: carriage return *)
  else if c =? 98 then Some 8      (* b: backspace *)
  else if c =? 102 then Some 12    (* f: form feed *)
  else None.

(** The text of a string from behind its opening quote: the decoded
    characters and what follows the closing quote. *)
Fixpoint sample_string (s : str) (acc : str) : option (str * str) :=
  match s with
  | [] => None
  | c :: s' =>
      if c =? DQUOTE then Some (rev acc, s')
      else if c =? BACKSLASH then
        match s' with
        | e :: s'' =>
            match unescape e with
            | Some x => sample_string s'' (x :: acc)
            | None => None
            end
        | [] => None
        end
      else if c <? 32 then None
      else sample_string s' (c :: acc)
  end.

Definition expect (c : char) (s : str) : option str :=
  match s with
  | x :: s' => if x =? c then Some s' else None
  | [] => None
  end.

(** The members of an object from the first key on, up to and
    including the closing brace. *)
Fixpoint sample_members (fuel : nat) (s : str) (acc : list (str * json))
  : option (list (str * json) * str) :=
  match fuel with
  | O => None
  | S fuel' =>
      match expect DQUOTE s with
      | None => None
      | Some s1 =>
          match sample_string s1 [] with
          | None => None
          | Some (key, s2) =>
              match expect 58 (skip_ws s2) with
              | None => None
              | Some s3 =>
                  match expect DQUOTE (skip_ws s3) with
                  | None => None
                  | Some s4 =>
                      match sample_string s4 [] with
                      | None => None
                      | Some (value, s5) =>
                          let acc := dict_set key (JStr value) acc in
                          match skip_ws s5 with
                          | c :: s6 =>
                              if c =? 44 then sample_members fuel' (skip_ws s6) acc
                              else if c =? 125 then Some (acc, s6)
                              else None
                          | [] => None
                          end
                      end
                  end
              end
          end
      end
  end.

Definition sample_json_loads (text : str) : option json :=
  match expect 123 (skip_ws text) with
  | None => None
  | Some s1 =>
      match skip_ws s1 with
      | c :: s2 =>
          let members :=
            if c =? 125 then Some ([], s2)
            else sample_members (length s1) (c :: s2) [] in
          match members with
          | Some (kv, rest) =>
              match skip_ws rest with
              | [] => Some (JObj kv)
              | _ => None
              end
          | None => None
          end
      | [] => None
      end
  end.

(** The brackets that open the text, one inside the other. *)
Fixpoint open_brackets (s : str) : nat :=
  match s with
  | c :: s' => if c =? 91 then S (open_brackets s') else O
  | [] => O
  end.

(** Whether [json.loads] fails on the text with a [RecursionError]
    instead of a [JSONDecodeError]: the decoder recurses once for each
    array it enters, and a hundred thousand arrays opened one inside the
    other are beyond its recursion limit. *)
Definition sample_loads_other_error (text : str) : bool :=
  Nat.leb (N.to_nat 100000) (open_brackets (skip_ws text)).

(** [json.dumps(obj, ensure_ascii=False, indent=2)] on the one object
    the examples print, the empty dict. *)
Definition sample_json_dumps (obj : json) : str := lit "{}".

End Json.

(** ** ForumEngine/monitor.py: line classification and content extraction *)

Module Monitor.
Import Py Re Json.

Fixpoint alts (rs : list regex) : regex :=
  match rs with
  | [] => Eps
  | [r] => r
  | r :: rs' => Alt r (alts rs')
  end.

(** [\|\s*(INFO|ERROR|WARNING|DEBUG|TRACE|CRITICAL)\s*\|] *)
Definition re_level : regex :=
  seqs [Lit "|"; ws_star;
        Group (alts [Lit "INFO"; Lit "ERROR"; Lit "WARNING"; Lit "DEBUG";
                     Lit "TRACE"; Lit "CRITICAL"]);
        ws_star; Lit "|"].

(** [get_log_level]: the level name, or [None] when unrecognizable. *)
Definition get_log_level (line : str) : option str :=
  match re_search re_level line with
  | Some m => m_cap m
  | None => None
  end.

Definition level_is (lv : string) (log_level : option str) : bool :=
  match log_level with
  | Some s => str_eqb s (lit lv)
  | None => false
  end.

Definition target_node_patterns : list str :=
  [ lit "FirstSummaryNode";
    lit "ReflectionSummaryNode";
    lit "InsightEngine.nodes.summary_node";
    lit "MediaEngine.nodes.summary_node";
    lit "QueryEngine.nodes.summary_node";
    lit "nodes.summary_node";
    lit "Generating first paragraph summary";
    lit "Generating reflection summary" ].

Definition error_keywords : list str :=
  [ lit "JSON parsing failed"; lit "JSON repair failed"; lit "Traceback";
    lit "File " ++ [DQUOTE] ].

(** [is_target_log_line] *)
Definition is_target_log_line (line : str) : bool :=
  if level_is "ERROR" (get_log_level line) then false
  else if contains (lit "| ERROR") line || contains (lit "| ERROR    |") line then false
  else if existsb (fun keyword => contains keyword line) error_keywords then false
  else existsb (fun pattern => contains pattern line) target_node_patterns.

Definition exclude_patterns : list str :=
  [ lit "JSON parsing failed"; lit "JSON repair failed";
    lit "Using cleaned text directly"; lit "JSON parsing successful";
    lit "Successfully generated"; lit "Updated paragraph"; lit "Generating";
    lit "Started processing"; lit "Processing complete"; lit "Read HOST speech";
    lit "Failed to read HOST speech"; lit "HOST speech not found";
    lit "Debug output"; lit "Information record" ].

(** [is_valuable_content] *)
Definition is_valuable_content (line : str) : bool :=
  if contains (lit "Cleaned output") line then true
  else if existsb (fun pattern => contains pattern line) exclude_patterns then false
  else
    let clean_line := re_sub re_hms [] line in
    let clean_line := re_sub re_loguru_prefix [] clean_line in
    let clean_line := strip clean_line in
    if Nat.ltb (length clean_line) 30 then false else true.

(** [is_json_start_line] *)
Definition is_json_start_line (line : str) : bool :=
  contains (lit "Cleaned output: {") line.

(** [^\[\d{2}:\d{2}:\d{2}\]\s*] *)
Definition re_old_prefix : regex := seqs [Bol; re_hms; ws_star].
(** [^] followed by the loguru prefix *)
Definition re_new_prefix : regex := Seq Bol re_loguru_prefix.

(** The two substitutions that strip the log prefix of a continuation line. *)
Definition strip_log_prefix (line : str) : str :=
  let clean_line := re_sub re_old_prefix [] line in
  re_sub re_new_prefix [] clean_line.

(** The character-level pass of [fix_json_string]: [in_string] and
    [escape_next] are the two flags of the loop, [s] is [json_text[i:]]. *)
Fixpoint fix_scan (s : str) (in_string escape_next : bool) : str :=
  match s with
  | [] => []
  | c :: s' =>
      if escape_next then c :: fix_scan s' in_string false
      else if c =? BACKSLASH then c :: fix_scan s' in_string true
      else if c =? DQUOTE then
        if in_string then
          match lstrip s' with
          | next_char :: _ =>
              if (next_char =? 58) || (next_char =? 44) || (next_char =? 125)
              then c :: fix_scan s' false false
              else BACKSLASH :: DQUOTE :: fix_scan s' true false
          | [] => c :: fix_scan s' false false
          end
        else c :: fix_scan s' true false
      else c :: fix_scan s' in_string false
  end.

(** [^\[.*?\]\s*] *)
Definition re_bracket_tag : regex :=
  seqs [Bol; Lit "["; Star false dot; Lit "]"; ws_star].

(** [_clean_content_tags] on a non-empty [str]: the loop over
    [INSIGHT], [MEDIA], [QUERY] and the final clean-up. *)
Definition clean_tags_of (name : string) (content : str) : str :=
  let content := re_sub (seqs [Lit "["; LitI name; Lit "]"; ws_star]) [] content in
  re_sub (seqs [Bol; LitI name; ws_plus]) [] content.

Definition _clean_content_tags (content : str) : str :=
  if negb (nonempty content) then content
  else
    let content := fold_left (fun c name => clean_tags_of name c)
                             ["INSIGHT"; "MEDIA"; "QUERY"]%string content in
    let content := re_sub re_bracket_tag [] content in
    let content := re_sub ws_plus (lit " ") content in
    strip content.

(** The [while re.match(...)] loop of [extract_node_content]; every turn
    removes at least the opening bracket, so [length content] turns suffice. *)
Fixpoint strip_bracket_tags (fuel : nat) (content : str) : str :=
  match fuel with
  | O => content
  | S fuel' =>
      match re_match re_bracket_tag content with
      | Some _ => strip_bracket_tags fuel' (re_sub re_bracket_tag [] content)
      | None => content
      end
  end.

Definition prefixes_to_remove : list str :=
  [ lit "First summary: "; lit "Reflection summary: "; lit "Cleaned output: " ].

Fixpoint remove_first_prefix (prefixes : list str) (content : str) : str :=
  match prefixes with
  | [] => content
  | prefix :: rest =>
      if startswith prefix content then drop (length prefix) content
      else remove_first_prefix rest content
  end.

(** [extract_node_content] *)
Definition extract_node_content (line : str) : str :=
  let any_text := Group (Plus true dot) in
  let content :=
    match re_search (seqs [re_hms; ws_star; any_text]) line with
    | Some m => strip (default [] (m_cap m))
    | None =>
        match re_search (Seq re_loguru_prefix any_text) line with
        | Some m => strip (default [] (m_cap m))
        | None => line
        end
    end in
  if negb (nonempty content) then strip line
  else
    let content := re_sub re_bracket_tag [] content in
    let content := strip_bracket_tags (length content) content in
    let content := remove_first_prefix prefixes_to_remove content in
    let content := fold_left (fun c name => re_sub (seqs [Bol; LitI name; ws_plus]) [] c)
                             ["INSIGHT"; "MEDIA"; "QUERY"]%string content in
    let content := re_sub ws_plus (lit " ") content in
    strip content.

(** How a call of [fix_json_string] ends: with its return value, a
    [str] or [None], or with an exception of [json.loads] that is not a
    [JSONDecodeError]. *)
Inductive fix_result : Type :=
| FixReturns (fixed : option str)
| FixRaises.

Section WithJson.

(** [json.loads]: the parsed value, or [None] when it raises. *)
Variable json_loads : str -> option json.
(** When [json.loads] raises on a text: whether what it raises is not a
    [JSONDecodeError] (the [RecursionError] of deeply nested brackets,
    the [ValueError] of the limit on the digits of an integer). *)
Variable json_loads_other_error : str -> bool.
(** [json.dumps(obj, ensure_ascii=False, indent=2)] *)
Variable json_dumps : json -> str.

(** [fix_json_string].  The first [json.loads] stands in a [try] that
    catches [JSONDecodeError] only: any other exception leaves the
    method.  The second one stands under [except Exception] as well, so
    whatever it raises gives [None]. *)
Definition fix_json_string (json_text : str) : fix_result :=
  match json_loads json_text with
  | Some _ => FixReturns (Some json_text)
  | None =>
      if json_loads_other_error json_text then FixRaises
      else
        let fixed_text := fix_scan json_text false false in
        match json_loads fixed_text with
        | Some _ => FixReturns (Some fixed_text)
        | None => FixReturns None
        end
  end.

(** [format_json_content].  The result is the value stored under one of
    the two keys when it is truthy, and otherwise the pretty-printed
    object; an object that is not a dict ends in the same fall-back,
    through a failed membership test or the [except] branch. *)
Definition format_json_content (json_obj : json) : json :=
  let whole := JStr (lit "Cleaned output: " ++ json_dumps json_obj) in
  match json_obj with
  | JObj kv =>
      let content :=
        match dict_get (lit "updated_paragraph_latest_state") kv with
        | Some v => Some v
        | None => dict_get (lit "paragraph_latest_state") kv
        end in
      match content with
      | Some v => if truthy v then v else whole
      | None => whole
      end
  | _ => whole
  end.

(** Parse, repairing once on failure (the body shared by the one-line
    and the multi-line case of [extract_json_content]).  An exception
    that is not a [JSONDecodeError] ends in the [except Exception] of
    [extract_json_content], which returns [None]. *)
Definition parse_or_repair (text : str) : option json :=
  match json_loads text with
  | Some json_obj => Some (format_json_content json_obj)
  | None =>
      if json_loads_other_error text then None
      else
        match fix_json_string text with
        | FixReturns (Some fixed_json) =>
            if nonempty fixed_json then
              match json_loads fixed_json with
              | Some json_obj => Some (format_json_content json_obj)
              | None => None
              end
            else None
        | FixReturns None => None
        | FixRaises => None
        end
  end.

Fixpoint from_start_line (json_lines : list str) : option (str * list str) :=
  match json_lines with
  | [] => None
  | line :: rest =>
      if contains (lit "Cleaned output: {") line then Some (line, rest)
      else from_start_line rest
  end.

(** [extract_json_content] *)
Definition extract_json_content (json_lines : list str) : option json :=
  match from_start_line json_lines with
  | None => None
  | Some (first_line, following) =>
      match find (lit "Cleaned output: {") first_line with
      | None => None
      | Some json_start_pos =>
          let json_part := drop (json_start_pos + length (lit "Cleaned output: ")) first_line in
          if endswith (lit "}") (strip json_part)
             && Nat.eqb (count 123 json_part) (count 125 json_part)
          then parse_or_repair (strip json_part)
          else
            let json_text :=
              fold_left (fun acc line => acc ++ strip_log_prefix line) following json_part in
            parse_or_repair (strip json_text)
      end
  end.

(** *** The monitor object and [process_lines_for_json] *)

(** The fields of [LogMonitor] that the tailer and the host trigger use.
    The per-engine dicts are keyed by the engine name ([app_name]). *)
Record monitor : Type := Mon {
  file_positions : gmap string Z;
  file_line_counts : gmap string Z;
  is_searching : bool;
  search_inactive_count : Z;
  agent_speeches_buffer : list str;
  host_speech_threshold : Z;
  is_host_generating : bool;
  capturing_json : gmap string bool;
  json_buffer : gmap string (list str);
  json_start_line : gmap string str;
  in_error_block : gmap string bool
}.

Definition set_capturing_json (f : gmap string bool -> gmap string bool) (st : monitor) : monitor :=
  Mon (file_positions st) (file_line_counts st) (is_searching st)
      (search_inactive_count st) (agent_speeches_buffer st)
      (host_speech_threshold st) (is_host_generating st)
      (f (capturing_json st)) (json_buffer st) (json_start_line st) (in_error_block st).
Definition set_json_buffer (f : gmap string (list str) -> gmap string (list str)) (st : monitor) : monitor :=
  Mon (file_positions st) (file_line_counts st) (is_searching st)
      (search_inactive_count st) (agent_speeches_buffer st)
      (host_speech_threshold st) (is_host_generating st)
      (capturing_json st) (f (json_buffer st)) (json_start_line st) (in_error_block st).
Definition set_json_start_line (f : gmap string str -> gmap string str) (st : monitor) : monitor :=
  Mon (file_positions st) (file_line_counts st) (is_searching st)
      (search_inactive_count st) (agent_speeches_buffer st)
      (host_speech_threshold st) (is_host_generating st)
      (capturing_json st) (json_buffer st) (f (json_start_line st)) (in_error_block st).
Definition set_in_error_block (f : gmap string bool -> gmap string bool) (st : monitor) : monitor :=
  Mon (file_positions st) (file_line_counts st) (is_searching st)
      (search_inactive_count st) (agent_speeches_buffer st)
      (host_speech_threshold st) (is_host_generating st)
      (capturing_json st) (json_buffer st) (json_start_line st) (f (in_error_block st)).
Definition set_file_positions (f : gmap string Z -> gmap string Z) (st : monitor) : monitor :=
  Mon (f (file_positions st)) (file_line_counts st) (is_searching st)
      (search_inactive_count st) (agent_speeches_buffer st)
      (host_speech_threshold st) (is_host_generating st)
      (capturing_json st) (json_buffer st) (json_start_line st) (in_error_block st).
Definition set_file_line_counts (f : gmap string Z -> gmap string Z) (st : monitor) : monitor :=
  Mon (file_positions st) (f (file_line_counts st)) (is_searching st)
      (search_inactive_count st) (agent_speeches_buffer st)
      (host_speech_threshold st) (is_host_generating st)
      (capturing_json st) (json_buffer st) (json_start_line st) (in_error_block st).
Definition set_agent_speeches_buffer (b : list str) (st : monitor) : monitor :=
  Mon (file_positions st) (file_line_counts st) (is_searching st)
      (search_inactive_count st) b
      (host_speech_threshold st) (is_host_generating st)
      (capturing_json st) (json_buffer st) (json_start_line st) (in_error_block st).
Definition set_is_host_generating (b : bool) (st : monitor) : monitor :=
  Mon (file_positions st) (file_line_counts st) (is_searching st)
      (search_inactive_count st) (agent_speeches_buffer st)
      (host_speech_threshold st) b
      (capturing_json st) (json_buffer st) (json_start_line st) (in_error_block st).
Definition set_is_searching (b : bool) (st : monitor) : monitor :=
  Mon (file_positions st) (file_line_counts st) b
      (search_inactive_count st) (agent_speeches_buffer st)
      (host_speech_threshold st) (is_host_generating st)
      (capturing_json st) (json_buffer st) (json_start_line st) (in_error_block st).
Definition set_search_inactive_count (n : Z) (st : monitor) : monitor :=
  Mon (file_positions st) (file_line_counts st) (is_searching st)
      n (agent_speeches_buffer st)
      (host_speech_threshold st) (is_host_generating st)
      (capturing_json st) (json_buffer st) (json_start_line st) (in_error_block st).

(** The exceptions that can leave [process_lines_for_json]. *)
Inductive exn : Type := KeyError | TypeError.

Inductive result (A : Type) : Type :=
| Ok (a : A)
| Raise (e : exn).
Arguments Ok {A} a.
Arguments Raise {A} e.

(** Methods of the monitor: they update the object and return or raise;
    what was written to the object before a raise stays written. *)
Definition M (A : Type) : Type := monitor -> monitor * result A.

Definition ret {A} (a : A) : M A := fun st => (st, Ok a).
Definition raise {A} (e : exn) : M A := fun st => (st, Raise e).
Definition bind {A B} (c : M A) (k : A -> M B) : M B :=
  fun st => match c st with
            | (st', Ok a) => k a st'
            | (st', Raise e) => (st', Raise e)
            end.
Definition modify (f : monitor -> monitor) : M unit := fun st => (f st, Ok tt).

Notation "'let*' x ':=' c 'in' k" := (bind c (fun x => k))
  (at level 10, x name, c at level 100, k at level 200).
Notation "c ';;' k" := (bind c (fun _ => k))
  (at level 100, k at level 200, right associativity).

(** [self.capturing_json[app_name]] and friends, as reads. *)
Definition read_key {V} (field : monitor -> gmap string V) (app_name : string) : M V :=
  fun st => match field st !! app_name with
            | Some v => (st, Ok v)
            | None => (st, Raise KeyError)
            end.

(** [if self.capturing_json[app_name]: ... = False; ... = []] *)
Definition stop_capturing (app_name : string) : M unit :=
  let* capturing := read_key capturing_json app_name in
  if capturing : bool then
    modify (set_capturing_json (<[app_name := false]>)) ;;
    modify (set_json_buffer (<[app_name := []]>))
  else ret tt.

(** [if content: captured_contents.append(f"{_clean_content_tags(content, app_name)}")]
    for the result of [extract_json_content]; a truthy value that is not
    a [str] makes [re.sub] raise [TypeError]. *)
Definition record_json_content (content : option json) (captured_contents : list str)
  : M (list str) :=
  match content with
  | Some v =>
      if truthy v then
        match v with
        | JStr s => ret (captured_contents ++ [_clean_content_tags s])
        | _ => raise TypeError
        end
      else ret captured_contents
  | None => ret captured_contents
  end.

Definition is_end_marker (line : str) : bool :=
  let cleaned_line := strip line in
  let cleaned_line := strip_log_prefix cleaned_line in
  let cleaned_line := strip cleaned_line in
  str_eqb cleaned_line (lit "}") || str_eqb cleaned_line (lit "] }").

(** One turn of the [for line in lines] loop. *)
Definition process_line (app_name : string) (line : str) (captured_contents : list str)
  : M (list str) :=
  if negb (nonempty (strip line)) then ret captured_contents
  else
    let log_level := get_log_level line in
    if level_is "ERROR" log_level then
      modify (set_in_error_block (<[app_name := true]>)) ;;
      stop_capturing app_name ;;
      ret captured_contents
    else
      (if level_is "INFO" log_level
       then modify (set_in_error_block (<[app_name := false]>))
       else ret tt) ;;
      let* in_error := read_key in_error_block app_name in
      if in_error : bool then
        stop_capturing app_name ;;
        ret captured_contents
      else
        let is_target := is_target_log_line line in
        let is_json_start := is_json_start_line line in
        if is_target && is_json_start then
          modify (set_capturing_json (<[app_name := true]>)) ;;
          modify (set_json_buffer (<[app_name := [line]]>)) ;;
          modify (set_json_start_line (<[app_name := line]>)) ;;
          if endswith (lit "}") (strip line) then
            let content := extract_json_content [line] in
            let* captured_contents := record_json_content content captured_contents in
            modify (set_capturing_json (<[app_name := false]>)) ;;
            modify (set_json_buffer (<[app_name := []]>)) ;;
            ret captured_contents
          else ret captured_contents
        else if is_target && is_valuable_content line then
          ret (captured_contents ++ [_clean_content_tags (extract_node_content line)])
        else
          let* capturing := read_key capturing_json app_name in
          if capturing : bool then
            let* buffer := read_key json_buffer app_name in
            modify (set_json_buffer (<[app_name := buffer ++ [line]]>)) ;;
            if is_end_marker line then
              let* buffer := read_key json_buffer app_name in
              let content := extract_json_content buffer in
              let* captured_contents := record_json_content content captured_contents in
              modify (set_capturing_json (<[app_name := false]>)) ;;
              modify (set_json_buffer (<[app_name := []]>)) ;;
              ret captured_contents
            else ret captured_contents
          else ret captured_contents.

Fixpoint process_loop (app_name : string) (lines : list str) (captured_contents : list str)
  : M (list str) :=
  match lines with
  | [] => ret captured_contents
  | line :: lines' =>
      let* captured_contents := process_line app_name line captured_contents in
      process_loop app_name lines' captured_contents
  end.

(** The two [if app_name not in ...] initialisations. *)
Definition init_capture_state (app_name : string) (st : monitor) : monitor :=
  let st :=
    match capturing_json st !! app_name with
    | None => set_json_buffer (<[app_name := []]>)
                (set_capturing_json (<[app_name := false]>) st)
    | Some _ => st
    end in
  match in_error_block st !! app_name with
  | None => set_in_error_block (<[app_name := false]>) st
  | Some _ => st
  end.

(** [process_lines_for_json] *)
Definition process_lines_for_json (lines : list str) (app_name : string) : M (list str) :=
  modify (init_capture_state app_name) ;;
  process_loop app_name lines [].

(** *** Reading an engine log *)

(** What [open(file_path, 'r', encoding='utf-8').read()] makes of the
    bytes of a file: the text, or [None] when decoding raises. *)
Variable decode_text : list N -> option str.

(** The three assignments that reset the capture state of an engine. *)
Definition reset_capture_state (app_name : string) (st : monitor) : monitor :=
  set_in_error_block (<[app_name := false]>)
    (set_json_buffer (<[app_name := []]>)
       (set_capturing_json (<[app_name := false]>) st)).

(** [[line.strip() for line in new_lines if line.strip()]] *)
Definition nonblank_stripped (lines : list str) : list str :=
  List.map strip (List.filter (fun line => nonempty (strip line)) lines).

(** The truncation check of [read_new_lines]:
    [if current_size < last_position: last_position = 0; ...].
    Returns the offset the read will start from. *)
Definition detect_truncation (current_size : Z) (app_name : string) (st : monitor)
  : Z * monitor :=
  let last_position := default 0%Z (file_positions st !! app_name) in
  if (current_size <? last_position)%Z
  then (0%Z, reset_capture_state app_name st)
  else (last_position, st).

(** [read_new_lines].  [file] is the log file: [None] when it does not
    exist, else its bytes.  An exception inside the [try] is logged and
    the empty [new_lines] is returned. *)
Definition read_new_lines (file : option (list N)) (app_name : string) (st : monitor)
  : list str * monitor :=
  match file with
  | None => ([], st)
  | Some data =>
      let current_size := Z.of_nat (length data) in
      let '(last_position, st) := detect_truncation current_size app_name st in
      if (current_size >? last_position)%Z then
        if (last_position <? 0)%Z then ([], st)       (* f.seek raises *)
        else
          match decode_text (drop (Z.to_nat last_position) data) with
          | None => ([], st)                          (* f.read raises *)
          | Some new_content =>
              let new_lines := split_lines new_content in
              let st := set_file_positions (<[app_name := current_size]>) st in
              (nonblank_stripped new_lines, st)
          end
      else ([], st)
  end.

(** *** The forum log and the host *)

Record datetime : Type := DateTime {
  year : nat; month : nat; day : nat; hour : nat; minute : nat; second : nat
}.

Definition digit (n : nat) : char := 48 + N.of_nat (n mod 10).
Definition two_digits (n : nat) : str := [digit (n / 10); digit n].
Definition four_digits (n : nat) : str :=
  [digit (n / 1000); digit (n / 100); digit (n / 10); digit n].

(** [strftime('%H:%M:%S')] *)
Definition strftime_HMS (t : datetime) : str :=
  two_digits (hour t) ++ lit ":" ++ two_digits (minute t) ++ lit ":" ++ two_digits (second t).
(** [strftime('%Y-%m-%d %H:%M:%S')] *)
Definition strftime_YmdHMS (t : datetime) : str :=
  four_digits (year t) ++ lit "-" ++ two_digits (month t) ++ lit "-"
    ++ two_digits (day t) ++ lit " " ++ strftime_HMS t.

(** The world outside the monitor: the clock and the host LLM. *)
Variable World : Type.
(** [datetime.now()] *)
Variable datetime_now : World -> datetime * World.
(** [llm_host.generate_host_speech], which returns [None] on any failure. *)
Variable generate_host_speech : list str -> World -> option str * World.
(** Whether [from .llm_host import generate_host_speech] succeeded. *)
Variable HOST_AVAILABLE : bool.

(** The monitor together with what it acts on: [forum.log] ([None] when
    the file does not exist), the world, and the requests made to the
    host so far. *)
Record system : Type := Sys {
  mon : monitor;
  forum_log_file : option str;
  world : World;
  host_calls : list (list str)
}.

Definition with_mon (f : monitor -> monitor) (s : system) : system :=
  Sys (f (mon s)) (forum_log_file s) (world s) (host_calls s).

(** [content.replace('\n', '\\n').replace('\r', '\\r')] *)
Definition one_line (content : str) : str :=
  replace CR [BACKSLASH; 114] (replace LF [BACKSLASH; 110] content).

(** Truth value of an optional [str] ([if source:], [if host_speech:]). *)
Definition given (o : option str) : bool :=
  match o with
  | Some text => nonempty text
  | None => false
  end.

(** The text of one [f.write] of [write_to_forum_log]. *)
Definition forum_record (timestamp content : str) (source : option str) : str :=
  if given source
  then lit "[" ++ timestamp ++ lit "] [" ++ default [] source ++ lit "] "
         ++ one_line content ++ [LF]
  else lit "[" ++ timestamp ++ lit "] " ++ one_line content ++ [LF].

(** [write_to_forum_log]: append mode creates the file when missing. *)
Definition write_to_forum_log (content : str) (source : option str) (s : system) : system :=
  let '(t, w) := datetime_now (world s) in
  let timestamp := strftime_HMS t in
  Sys (mon s)
      (Some (default [] (forum_log_file s) ++ forum_record timestamp content source))
      w (host_calls s).

(** [clear_forum_log] *)
Definition clear_forum_log (s : system) : system :=
  let '(t, w) := datetime_now (world s) in
  let start_time := strftime_YmdHMS t in
  let s := Sys (mon s) (Some []) w (host_calls s) in
  let s := write_to_forum_log
             (lit "=== ForumEngine monitoring started - " ++ start_time ++ lit " ===")
             (Some (lit "SYSTEM")) s in
  with_mon (fun st =>
              Mon (file_positions st) (file_line_counts st) (is_searching st)
                  (search_inactive_count st) [] (host_speech_threshold st) false
                  ∅ ∅ ∅ ∅) s.

(** [_trigger_host_speech] *)
Definition _trigger_host_speech (s : system) : system :=
  if negb HOST_AVAILABLE || is_host_generating (mon s) then s
  else
    let s := with_mon (set_is_host_generating true) s in
    let recent_speeches := take 5 (agent_speeches_buffer (mon s)) in
    if Nat.ltb (length recent_speeches) 5 then
      with_mon (set_is_host_generating false) s
    else
      let '(host_speech, w) := generate_host_speech recent_speeches (world s) in
      let s := Sys (mon s) (forum_log_file s) w (host_calls s ++ [recent_speeches]) in
      let s :=
        if given host_speech then
          let s := write_to_forum_log (default [] host_speech) (Some (lit "HOST")) s in
          with_mon (fun st => set_agent_speeches_buffer
                                (drop 5 (agent_speeches_buffer st)) st) s
        else s in
      with_mon (set_is_host_generating false) s.

Definition upper_char (c : char) : char :=
  if (97 <=? c) && (c <=? 122) then c - 32 else c.
(** [app_name.upper()] for an engine name (ASCII). *)
Definition upper (app_name : string) : str := List.map upper_char (lit app_name).

(** One turn of [for content in captured_contents] in [monitor_logs]. *)
Definition publish_content (app_name : string) (s : system) (content : str) : system :=
  let source_tag := upper app_name in
  let s := write_to_forum_log content (Some source_tag) s in
  let '(t, w) := datetime_now (world s) in
  let timestamp := strftime_HMS t in
  let log_line := lit "[" ++ timestamp ++ lit "] [" ++ source_tag ++ lit "] " ++ content in
  let s := Sys (set_agent_speeches_buffer
                  (agent_speeches_buffer (mon s) ++ [log_line]) (mon s))
               (forum_log_file s) w (host_calls s) in
  if (Z.of_nat (length (agent_speeches_buffer (mon s))) >=? host_speech_threshold (mon s))%Z
     && negb (is_host_generating (mon s))
  then _trigger_host_speech s
  else s.

Definition publish_contents (app_name : string) (captured_contents : list str) (s : system)
  : system :=
  fold_left (publish_content app_name) captured_contents s.

(** Publishing what several polls captured, engine by engine. *)
Definition publish_all (items : list (string * str)) (s : system) : system :=
  fold_left (fun s item => publish_content (fst item) s (snd item)) items s.

(** [get_file_line_count] *)
Definition count_text_lines (text : str) : nat :=
  match text with
  | [] => O
  | _ => (count LF text + (if endswith [LF] text then 0 else 1))%nat
  end.
Definition get_file_line_count (file : option (list N)) : Z :=
  match file with
  | None => 0%Z
  | Some data =>
      match decode_text data with
      | Some text => Z.of_nat (count_text_lines text)
      | None => 0%Z
      end
  end.
(** [get_file_size] *)
Definition get_file_size (file : option (list N)) : Z :=
  match file with
  | None => 0%Z
  | Some data => Z.of_nat (length data)
  end.

(** The search for the first-summary marker that opens a session. *)
Definition opens_session (new_lines : list str) : bool :=
  existsb (fun line =>
             nonempty (strip line) && is_target_log_line line
             && (contains (lit "FirstSummaryNode") line
                 || contains (lit "Generating first paragraph summary") line))
          new_lines.

(** The body of [for app_name, log_file in self.monitored_logs.items()]
    in [monitor_logs], up to the update of the line count.  An exception
    of [process_lines_for_json] leaves through the [try] of the loop. *)
Definition monitor_engine (app_name : string) (file : option (list N)) (s : system)
  : system * result unit :=
  let current_lines := get_file_line_count file in
  let previous_lines := default 0%Z (file_line_counts (mon s) !! app_name) in
  let finish (s : system) :=
    (with_mon (set_file_line_counts (<[app_name := current_lines]>)) s, Ok tt) in
  if (current_lines >? previous_lines)%Z then
    let '(new_lines, st) := read_new_lines file app_name (mon s) in
    let s := with_mon (fun _ => st) s in
    let s :=
      if negb (is_searching (mon s)) && opens_session new_lines then
        clear_forum_log
          (with_mon (fun st => set_search_inactive_count 0 (set_is_searching true st)) s)
      else s in
    if is_searching (mon s) then
      match process_lines_for_json new_lines app_name (mon s) with
      | (st, Ok captured_contents) =>
          finish (publish_contents app_name captured_contents (with_mon (fun _ => st) s))
      | (st, Raise e) => (with_mon (fun _ => st) s, Raise e)
      end
    else finish s
  else if (current_lines <? previous_lines)%Z then
    let s := with_mon (set_file_positions (<[app_name := get_file_size file]>)) s in
    finish (with_mon (reset_capture_state app_name) s)
  else finish s.

(** The grammar of a line of the forum log,
    [^\[\d{2}:\d{2}:\d{2}\] \[[A-Z]+\] [^\n]*$]. *)
Definition re_forum_line : regex :=
  seqs [Bol; re_hms; Lit " ["; Plus true upper_AZ; Lit "] "; Star true (neqc LF); Eol].

(** The monitor as [__init__] leaves it. *)
Definition new_monitor : monitor := Mon ∅ ∅ false 0 [] 5 false ∅ ∅ ∅ ∅.

(** *** Notions used in the statements about the monitor *)

(** The keys that [process_lines_for_json] initialises are present. *)
Definition has_keys (app_name : string) (st : monitor) : Prop :=
  is_Some (capturing_json st !! app_name) /\ is_Some (in_error_block st !! app_name).

(** The monitor after an ERROR line: the flag is set and a capture in
    progress is dropped. *)
Definition enter_error_block (app_name : string) (st : monitor) : monitor :=
  let st := set_in_error_block (<[app_name := true]>) st in
  match capturing_json st !! app_name with
  | Some true => set_json_buffer (<[app_name := []]>)
                   (set_capturing_json (<[app_name := false]>) st)
  | _ => st
  end.

(** The engine is in an ERROR block and captures nothing. *)
Definition blocked (app_name : string) (st : monitor) : Prop :=
  in_error_block st !! app_name = Some true /\ capturing_json st !! app_name = Some false.

(** Putting [captured] in front of what a run of the tailer returns. *)
Definition prepend (captured : list str) (r : monitor * result (list str))
  : monitor * result (list str) :=
  match r with
  | (st, Ok out) => (st, Ok (captured ++ out))
  | (st, Raise e) => (st, Raise e)
  end.

(** A line that is not blank and not at level ERROR. *)
Definition plain (line : str) : Prop :=
  nonempty (strip line) = true /\ level_is "ERROR" (get_log_level line) = false.

(** The monitor after the start line of a capture, and after its end. *)
Definition start_capture (app_name : string) (line : str) (st : monitor) : monitor :=
  set_json_start_line (<[app_name := line]>)
    (set_json_buffer (<[app_name := [line]]>)
       (set_capturing_json (<[app_name := true]>) st)).

Definition end_capture (app_name : string) (st : monitor) : monitor :=
  set_json_buffer (<[app_name := []]>) (set_capturing_json (<[app_name := false]>) st).

(** The line takes neither of the two branches that publish a target line. *)
Definition not_published (line : str) : Prop :=
  is_target_log_line line && is_json_start_line line = false
  /\ is_target_log_line line && is_valuable_content line = false.

(** A continuation line of a capture: it is buffered. *)
Definition continuation (line : str) : Prop :=
  plain line /\ not_published line /\ is_end_marker line = false.

(** Every request to the host is answered with a speech. *)
Definition host_always_answers : Prop :=
  forall (speeches : list str) (w : World), given (fst (generate_host_speech speeches w)) = true.

(** The monitor is idle with [n] utterances waiting, fewer than the
    threshold of five. *)
Definition waiting (n : nat) (s : system) : Prop :=
  host_speech_threshold (mon s) = 5%Z
  /\ is_host_generating (mon s) = false
  /\ length (agent_speeches_buffer (mon s)) = n
  /\ (n < 5)%nat.

End WithJson.

Arguments Ok {A} a.
Arguments Raise {A} e.
Arguments Sys {World} mon forum_log_file world host_calls.
Arguments mon {World} s.
Arguments forum_log_file {World} s.
Arguments world {World} s.
Arguments host_calls {World} s.

End Monitor.


(** ** ReportEngine/agent.py: the readiness check *)

Module Report.
Import Py.

(** What the file system holds at a path. *)
Inductive fs_node : Type :=
| Directory (entries : list str)      (* [os.listdir] gives [entries] *)
| NotDirectory.                       (* exists, but [os.listdir] raises *)

Definition filesystem : Type := str -> option fs_node.

(** [os.path.exists] *)
Definition path_exists (fs : filesystem) (path : str) : bool :=
  match fs path with Some _ => true | None => false end.

(** [[f for f in os.listdir(directory) if f.endswith('.md')]] *)
Definition md_files (entries : list str) : list str :=
  List.filter (endswith (lit ".md")) entries.

(** The dict [check_new_files] returns. *)
Record new_files_check : Type := NewFilesCheck {
  nf_ready : bool;
  nf_baseline_counts : gmap string Z;
  nf_current_counts : gmap string Z;
  nf_new_files_found : gmap string Z;
  nf_missing_engines : list string
}.

(** The three variables the loop of [check_new_files] updates. *)
Record scan : Type := Scan {
  current_counts : gmap string Z;
  new_files_found : gmap string Z;
  all_have_new : bool
}.

(** One turn of [for engine, directory in directories.items()];
    [None] when [os.listdir] raises. *)
Definition check_engine (fs : filesystem) (baseline_data : gmap string Z)
    (acc : scan) (engine : string) (directory : str) : option scan :=
  match fs directory with
  | Some (Directory entries) =>
      let n := Z.of_nat (length (md_files entries)) in
      let baseline_count := default 0%Z (baseline_data !! engine) in
      if (n >? baseline_count)%Z then
        Some (Scan (<[engine := n]> (current_counts acc))
                   (<[engine := (n - baseline_count)%Z]> (new_files_found acc))
                   (all_have_new acc))
      else
        Some (Scan (<[engine := n]> (current_counts acc))
                   (<[engine := 0%Z]> (new_files_found acc))
                   false)
  | Some NotDirectory => None
  | None =>
      Some (Scan (<[engine := 0%Z]> (current_counts acc))
                 (<[engine := 0%Z]> (new_files_found acc))
                 false)
  end.

Fixpoint check_engines (fs : filesystem) (baseline_data : gmap string Z)
    (acc : scan) (directories : list (string * str)) : option scan :=
  match directories with
  | [] => Some acc
  | (engine, directory) :: rest =>
      match check_engine fs baseline_data acc engine directory with
      | Some acc' => check_engines fs baseline_data acc' rest
      | None => None
      end
  end.

(** [FileCountBaseline.check_new_files]; [directories] is the dict in
    iteration order. *)
Definition check_new_files (fs : filesystem) (baseline_data : gmap string Z)
    (directories : list (string * str)) : option new_files_check :=
  match check_engines fs baseline_data (Scan ∅ ∅ true) directories with
  | Some acc =>
      Some (NewFilesCheck (all_have_new acc) baseline_data (current_counts acc)
              (new_files_found acc)
              (List.filter (fun engine =>
                              bool_decide (new_files_found acc !! engine = Some 0%Z))
                           (List.map fst directories)))
  | None => None
  end.

(** The part of the dict [check_input_files] returns that is computed
    from the counts (the texts of [files_found] / [missing_files] and the
    paths of [latest_files] are left out). *)
Record input_check : Type := InputCheck {
  ready : bool;
  baseline_counts : gmap string Z;
  result_current_counts : gmap string Z;
  result_new_files_found : gmap string Z
}.

Definition engine_directories (insight_dir media_dir query_dir : str) : list (string * str) :=
  [ ("insight"%string, insight_dir); ("media"%string, media_dir); ("query"%string, query_dir) ].

(** [ReportAgent.check_input_files] *)
Definition check_input_files (fs : filesystem) (baseline_data : gmap string Z)
    (insight_dir media_dir query_dir forum_log_path : str) : option input_check :=
  let directories := engine_directories insight_dir media_dir query_dir in
  match check_new_files fs baseline_data directories with
  | Some check_result =>
      let forum_ready := path_exists fs forum_log_path in
      Some (InputCheck (nf_ready check_result && forum_ready)
              (nf_baseline_counts check_result)
              (nf_current_counts check_result)
              (nf_new_files_found check_result))
  | None => None
  end.

(** The number of [.md] files the check counts for a directory. *)
Definition md_count (fs : filesystem) (directory : str) : Z :=
  match fs directory with
  | Some (Directory entries) => Z.of_nat (length (md_files entries))
  | _ => 0%Z
  end.

(** The engine's directory is there and holds more [.md] files than the
    baseline records for the engine. *)
Definition has_new_files (fs : filesystem) (baseline_data : gmap string Z)
    (engine : string) (directory : str) : Prop :=
  (exists entries, fs directory = Some (Directory entries))
  /\ (md_count fs directory > default 0 (baseline_data !! engine))%Z.

End Report.

(** ** utils/retry_helper.py: the graceful retry envelope *)

Module Retry.

Section Envelope.

Variables (Val Exn : Type).

(** [isinstance(e, config.retry_on_exceptions)] *)
Variable retry_on_exceptions : Exn -> bool.
(** [isinstance(e, Exception)]: false for what only derives from
    [BaseException], such as [KeyboardInterrupt] and [SystemExit]. *)
Variable is_Exception : Exn -> bool.
Variable max_retries : Z.
Variable default_return : Val.

Inductive outcome : Type :=
| Returns (v : Val)
| Raises (e : Exn).

(** [func k] is what the [k]-th call [func(...)] of the
    wrapper does ([k] counted from 0). *)
Variable func : nat -> outcome.

(** The steps of the wrapper's own code that can raise; each gives the
    exception it raises, if any. *)
(** [func.__name__] in a log message: the [AttributeError] of a callable
    without the attribute. *)
Variable func_name_error : option Exn.
(** [str(e)] in a log message. *)
Variable str_error : Exn -> option Exn.
(** The field [{default_return}] of a log message. *)
Variable default_text_error : option Exn.
(** [min(config.initial_delay * (config.backoff_factor ** attempt),
    config.max_delay)]: the [OverflowError] of a power that is too
    large. *)
Variable delay_error : nat -> option Exn.
(** [time.sleep(delay)] after attempt [attempt]: the [ValueError] of a
    negative delay. *)
Variable sleep_error : nat -> option Exn.

(** What a call of the wrapper does, and how often it called [func]. *)
Record run : Type := Run { result : outcome; calls : nat }.

(** The first exception of a sequence of steps. *)
Fixpoint first_error (steps : list (option Exn)) : option Exn :=
  match steps with
  | [] => None
  | Some e :: _ => Some e
  | None :: rest => first_error rest
  end.

(** The log messages before [return default_return], in either handler:
    they read [func.__name__], [str(e)] and the default, in this order.
    An exception raised inside a handler leaves the wrapper. *)
Definition return_default (e : Exn) : outcome :=
  match first_error [func_name_error; str_error e; default_text_error] with
  | Some raised => Raises raised
  | None => Returns default_return
  end.

(** The steps of the first handler between the test of the last attempt
    and the next turn of the loop, for the error [e] of attempt
    [attempt]: the delay, the two log messages, the sleep. *)
Definition back_off (attempt : nat) (e : Exn) : option Exn :=
  first_error [delay_error attempt; func_name_error; str_error e; sleep_error attempt].

(** The [for attempt in range(config.max_retries + 1)] loop; [remaining]
    turns are left and the next one has index [attempt].  The message
    after a success at a later attempt is written inside the [try]: what
    it raises is handled like an error of the call. *)
Fixpoint attempts (remaining attempt : nat) : run :=
  match remaining with
  | O => Run (Returns default_return) attempt
  | S remaining' =>
      let handle (e : Exn) : run :=
        if retry_on_exceptions e then
          if (Z.of_nat attempt =? max_retries)%Z
          then Run (return_default e) (S attempt)
          else
            match back_off attempt e with
            | Some raised => Run (Raises raised) (S attempt)
            | None => attempts remaining' (S attempt)
            end
        else if is_Exception e then Run (return_default e) (S attempt)
        else Run (Raises e) (S attempt) in
      match func attempt with
      | Returns v =>
          if Nat.ltb 0 attempt then
            match func_name_error with
            | Some raised => handle raised
            | None => Run (Returns v) (S attempt)
            end
          else Run (Returns v) (S attempt)
      | Raises e => handle e
      end
  end.

(** The wrapper that [with_graceful_retry(config, default_return)(func)] builds. *)
Definition with_graceful_retry : run :=
  attempts (Z.to_nat (max_retries + 1)) 0.

(** The [k]-th call fails with an error of the retry list. *)
Definition fails_retryably (k : nat) : Prop :=
  exists e, func k = Raises e /\ retry_on_exceptions e = true.

(** The wrapper's own code raises nothing: the callable has a name, the
    default and the errors of the calls can be written to the log, and
    the delay after each attempt before the last one can be computed
    and slept. *)
Definition own_code_completes : Prop :=
  func_name_error = None
  /\ default_text_error = None
  /\ (forall k e, func k = Raises e -> str_error e = None)
  /\ (forall k, (Z.of_nat k < max_retries)%Z -> delay_error k = None /\ sleep_error k = None).

End Envelope.

Arguments Returns {Val Exn} v.
Arguments Raises {Val Exn} e.
Arguments Run {Val Exn} result calls.
Arguments result {Val Exn} r.
Arguments calls {Val Exn} r.

End Retry.

(** ** app.py: the system-start guard *)

Module App.

Record system_state : Type := SystemState { started : bool; starting : bool }.

(** [_prepare_system_start], the body under [system_state_lock]. *)
Definition _prepare_system_start (s : system_state)
  : (bool * option string) * system_state :=
  if started s then ((false, Some "System already started"%string), s)
  else if starting s then ((false, Some "System is starting"%string), s)
  else ((true, None), SystemState (started s) true).

(** [_set_system_state(started=..., starting=...)] *)
Definition _set_system_state (started' starting' : option bool) (s : system_state)
  : system_state :=
  SystemState (default (started s) started') (default (starting s) starting').

(** Where a request handled by [start_system] stands. *)
Inductive pc : Type :=
| Arrived                    (* before [_prepare_system_start] *)
| Rejected (message : string)  (* answered 400 *)
| Initializing               (* in [initialize_system_components] *)
| RollingBack                (* still in it, after its [cleanup_processes()] *)
| Initialized (success : bool)  (* it returned or raised; [started] not yet written *)
| Finishing                  (* before the [finally] *)
| Finished.

(** How [initialize_system_components] ends. *)
Inductive init_outcome : Type :=
| InitOk
| InitErrors       (* [if errors: cleanup_processes() ...; return False, ...] *)
| InitRaises.

(** The next access of a request to the flags; each is one critical
    section of [system_state_lock].  [cleanup_processes] ends with
    [_set_system_state(started=False, starting=False)]. *)
Definition request_step (o : init_outcome) (p : pc) (s : system_state)
  : option (pc * system_state) :=
  match p with
  | Arrived =>
      let '((allowed, message), s') := _prepare_system_start s in
      if allowed then Some (Initializing, s')
      else Some (Rejected (default EmptyString message), s')
  | Initializing =>
      match o with
      | InitOk => Some (Initialized true, s)
      | InitErrors => Some (RollingBack, _set_system_state (Some false) (Some false) s)
      | InitRaises => Some (Initialized false, s)
      end
  | RollingBack => Some (Initialized false, s)
  | Initialized success => Some (Finishing, _set_system_state (Some success) None s)
  | Finishing => Some (Finished, _set_system_state None (Some false) s)
  | Rejected _ => None
  | Finished => None
  end.

(** The server: the flags and the requests in flight or answered. *)
Record server : Type := Server { flags : system_state; requests : list pc }.

Inductive event : Type :=
| NewRequest                               (* a POST /api/system/start arrives *)
| Advance (i : nat) (o : init_outcome).    (* request [i] takes its next step *)

Definition server_step (sv : server) (e : event) : server :=
  match e with
  | NewRequest => Server (flags sv) (requests sv ++ [Arrived])
  | Advance i o =>
      match requests sv !! i with
      | Some p =>
          match request_step o p (flags sv) with
          | Some (p', s') => Server s' (<[i := p']> (requests sv))
          | None => sv
          end
      | None => sv
      end
  end.

Definition run_server (sv : server) (schedule : list event) : server :=
  fold_left server_step schedule sv.

Definition initial_server : server := Server (SystemState false false) [].

(** A request is being initialized from the grant of the guard until
    [initialize_system_components] has returned. *)
Definition in_initialization (p : pc) : bool :=
  match p with
  | Initializing | RollingBack => true
  | _ => false
  end.

(** A request holds the start from the grant to its [finally]. *)
Definition holds_start (p : pc) : bool :=
  match p with
  | Initializing | RollingBack | Initialized _ | Finishing => true
  | _ => false
  end.

Definition count_where (f : pc -> bool) (l : list pc) : nat :=
  length (List.filter f l).

Definition no_init_errors (schedule : list event) : Prop :=
  Forall (fun e => match e with Advance _ InitErrors => False | _ => True end) schedule.

Definition weight (b : bool) : nat := if b then 1 else 0.

(** The flag [starting] is set exactly while one request holds the start. *)
Definition start_held_once (sv : server) : Prop :=
  count_where holds_start (requests sv) = weight (starting (flags sv)).

End App.

(** ** InsightEngine/agent.py: the per-paragraph research loop *)

Module Research.
Import Py Re.

Section Agent.

(** A search result as handed to the summary prompts. *)
Variable Result : Type.

(** Modelled from the spec: the classes [Research], [Paragraph] and [State]
    of the state module, which is not under src.  A [Research] starts with
    an empty summary, [reflection_count] 0 and an empty search history;
    [increment_reflection] adds one to the counter, [add_search_results]
    appends to the history, [mark_completed] sets the completion flag. *)
Record research : Type := MkResearch {
  latest_summary : str;
  reflection_count : Z;
  search_history : list (str * list Result);
  is_completed : bool
}.

Record paragraph : Type := MkParagraph {
  title : str;
  content : str;
  p_research : research
}.

Record state : Type := MkState { paragraphs : list paragraph }.

Definition new_research : research := MkResearch [] 0 [] false.
Definition new_paragraph (title content : str) : paragraph :=
  MkParagraph title content new_research.

Definition increment_reflection (r : research) : research :=
  MkResearch (latest_summary r) (reflection_count r + 1) (search_history r) (is_completed r).
Definition add_search_results (query : str) (results : list Result) (r : research) : research :=
  MkResearch (latest_summary r) (reflection_count r)
             (search_history r ++ [(query, results)]) (is_completed r).
Definition mark_completed (r : research) : research :=
  MkResearch (latest_summary r) (reflection_count r) (search_history r) true.
Definition set_latest_summary (summary : str) (r : research) : research :=
  MkResearch summary (reflection_count r) (search_history r) (is_completed r).

Definition on_research (f : research -> research) (p : paragraph) : paragraph :=
  MkParagraph (title p) (content p) (f (p_research p)).

(** The settings the loop reads. *)
Record config : Type := Config {
  MAX_REFLECTIONS : Z;
  MAX_SEARCH_RESULTS_FOR_LLM : Z;
  DEFAULT_SEARCH_HOT_CONTENT_LIMIT : Z;
  DEFAULT_SEARCH_TOPIC_GLOBALLY_LIMIT_PER_TABLE : Z;
  DEFAULT_SEARCH_TOPIC_BY_DATE_LIMIT_PER_TABLE : Z;
  DEFAULT_GET_COMMENTS_FOR_TOPIC_LIMIT : Z;
  DEFAULT_SEARCH_TOPIC_ON_PLATFORM_LIMIT : Z
}.

(** The dict a search or reflection node returns; a key that is absent
    is [None]. *)
Record search_output : Type := SearchOutput {
  o_search_query : option str;
  o_search_tool : option str;
  o_reasoning : option str;
  o_start_date : option str;
  o_end_date : option str;
  o_platform : option str;
  o_time_period : option str
}.

(** [search_kwargs] *)
Record search_kwargs : Type := SearchKwargs {
  k_start_date : option str;
  k_end_date : option str;
  k_platform : option str;
  k_time_period : option str;
  k_limit : option Z;
  k_limit_per_table : option Z
}.

(** [datetime.strptime(date_str, '%Y-%m-%d')] does not raise. *)
Variable strptime_ok : str -> bool.

Definition truthy (o : option str) : bool :=
  match o with Some s => nonempty s | None => false end.

(** [_validate_date_format] *)
Definition _validate_date_format (date_str : str) : bool :=
  if negb (nonempty date_str) then false
  else
    match re_match (seqs [Bol; Rep 4 isdecimal; Lit "-"; d2; Lit "-"; d2; Eol]) date_str with
    | None => false
    | Some _ => strptime_ok date_str
    end.

Definition tool_is (name : string) (search_tool : str) : bool := str_eqb search_tool (lit name).

(** The choice of tool and parameters between the node call and
    [execute_search_tool], the same in [_initial_search_and_summary] and
    in [_reflection_loop]. *)
Definition plan_search (cfg : config) (out : search_output) : str * search_kwargs :=
  let search_tool := default (lit "search_topic_globally") (o_search_tool out) in
  let kw := SearchKwargs None None None None None None in
  (* tools that need dates *)
  let '(search_tool, kw) :=
    if tool_is "search_topic_by_date" search_tool || tool_is "search_topic_on_platform" search_tool
    then
      if truthy (o_start_date out) && truthy (o_end_date out) then
        if _validate_date_format (default [] (o_start_date out))
           && _validate_date_format (default [] (o_end_date out))
        then (search_tool,
              SearchKwargs (o_start_date out) (o_end_date out) None None None None)
        else (lit "search_topic_globally", kw)
      else if tool_is "search_topic_by_date" search_tool
           then (lit "search_topic_globally", kw)
           else (search_tool, kw)
    else (search_tool, kw) in
  (* the tool that needs a platform *)
  let '(search_tool, kw) :=
    if tool_is "search_topic_on_platform" search_tool then
      if truthy (o_platform out)
      then (search_tool,
            SearchKwargs (k_start_date kw) (k_end_date kw) (o_platform out) None None None)
      else (lit "search_topic_globally", kw)
    else (search_tool, kw) in
  (* limits from the configuration *)
  let kw :=
    if tool_is "search_hot_content" search_tool then
      SearchKwargs (k_start_date kw) (k_end_date kw) (k_platform kw)
        (Some (default (lit "week") (o_time_period out)))
        (Some (DEFAULT_SEARCH_HOT_CONTENT_LIMIT cfg)) None
    else if tool_is "search_topic_globally" search_tool then
      SearchKwargs (k_start_date kw) (k_end_date kw) (k_platform kw) None None
        (Some (DEFAULT_SEARCH_TOPIC_GLOBALLY_LIMIT_PER_TABLE cfg))
    else if tool_is "search_topic_by_date" search_tool then
      SearchKwargs (k_start_date kw) (k_end_date kw) (k_platform kw) None None
        (Some (DEFAULT_SEARCH_TOPIC_BY_DATE_LIMIT_PER_TABLE cfg))
    else if tool_is "get_comments_for_topic" search_tool then
      SearchKwargs (k_start_date kw) (k_end_date kw) (k_platform kw) None
        (Some (DEFAULT_GET_COMMENTS_FOR_TOPIC_LIMIT cfg)) None
    else if tool_is "search_topic_on_platform" search_tool then
      SearchKwargs (k_start_date kw) (k_end_date kw) (k_platform kw) None
        (Some (DEFAULT_SEARCH_TOPIC_ON_PLATFORM_LIMIT cfg)) None
    else kw in
  (search_tool, kw).

(** [search_response.results[:max_results]] *)
Definition results_for_llm (cfg : config) (results : list Result) : list Result :=
  if (MAX_SEARCH_RESULTS_FOR_LLM cfg >? 0)%Z
  then take (Nat.min (length results) (Z.to_nat (MAX_SEARCH_RESULTS_FOR_LLM cfg))) results
  else results.

(** The world of an engine: its LLM and its search backend.  Each call
    returns [None] when it raises. *)
Variable World : Type.
(** [first_search_node.run({title, content})] *)
Variable first_search_run : str -> str -> World -> option search_output * World.
(** [reflection_node.run({title, content, paragraph_latest_state})] *)
Variable reflection_run : str -> str -> str -> World -> option search_output * World.
(** [execute_search_tool(tool, query, **kwargs)], as the list of results
    of the response (empty when there is none). *)
Variable execute_search_tool : str -> str -> search_kwargs -> World -> option (list Result) * World.
(** [FirstSummaryNode.run({title, content, search_query, search_results})] *)
Variable first_summary_run : str -> str -> str -> list Result -> World -> option str * World.
(** [ReflectionSummaryNode.run({title, content, search_query, search_results,
    paragraph_latest_state})] *)
Variable reflection_summary_run :
  str -> str -> str -> list Result -> str -> World -> option str * World.

(** The node calls of a run, by paragraph index. *)
Inductive event : Type :=
| FirstSearch (i : nat)
| FirstSummary (i : nat)
| Reflection (i : nat)
| ReflectionSummary (i : nat).

(** The agent during a run: [self.state], the world, and the node calls
    made so far. *)
Record agent : Type := Agent { st : state; world : World; history : list event }.

(** A method of the agent: [None] is an exception that leaves it; the
    state keeps what was written before. *)
Definition A (T : Type) : Type := agent -> agent * option T.

Definition ret {T} (x : T) : A T := fun a => (a, Some x).
Definition fail {T} : A T := fun a => (a, None).
Definition bind {T U} (c : A T) (k : T -> A U) : A U :=
  fun a => match c a with
           | (a', Some x) => k x a'
           | (a', None) => (a', None)
           end.

Notation "'let*' x ':=' c 'in' k" := (bind c (fun x => k))
  (at level 10, x name, c at level 100, k at level 200).
Notation "c ';;' k" := (bind c (fun _ => k))
  (at level 100, k at level 200, right associativity).

(** A value that must be there: a missing key or index raises. *)
Definition required {T} (o : option T) : A T :=
  match o with Some x => ret x | None => fail end.

(** [self.state.paragraphs[paragraph_index]] *)
Definition get_paragraph (paragraph_index : nat) : A paragraph :=
  fun a => required (paragraphs (st a) !! paragraph_index) a.

(** An update of the paragraph object at an index that exists. *)
Definition update_paragraph (paragraph_index : nat) (f : paragraph -> paragraph) : A unit :=
  fun a =>
    match paragraphs (st a) !! paragraph_index with
    | Some p =>
        (Agent (MkState (<[paragraph_index := f p]> (paragraphs (st a)))) (world a) (history a),
         Some tt)
    | None => (a, None)
    end.

(** A call into the world, entered in the history. *)
Definition call {T} (e : event) (f : World -> option T * World) : A T :=
  fun a =>
    let '(r, w) := f (world a) in
    (Agent (st a) w (history a ++ [e]), r).

(** The path from a node's output to the search results that both
    [_initial_search_and_summary] and [_reflection_loop] take. *)
Definition search_with (cfg : config) (out : search_output) : A (str * list Result) :=
  let* search_query := required (o_search_query out) in
  let* _reasoning := required (o_reasoning out) in
  let '(search_tool, kw) := plan_search cfg out in
  let* results :=
    (fun a => let '(r, w) := execute_search_tool search_tool search_query kw (world a) in
              (Agent (st a) w (history a), r)) in
  ret (search_query, results_for_llm cfg results).

(** [FirstSummaryNode.mutate_state] *)
Definition first_summary_mutate_state (paragraph_index : nat)
    (title content search_query : str) (search_results : list Result) : A unit :=
  let* summary :=
    call (FirstSummary paragraph_index)
         (first_summary_run title content search_query search_results) in
  update_paragraph paragraph_index (on_research (set_latest_summary summary)).

(** [ReflectionSummaryNode.mutate_state] *)
Definition reflection_summary_mutate_state (paragraph_index : nat)
    (title content search_query : str) (search_results : list Result)
    (paragraph_latest_state : str) : A unit :=
  let* updated_summary :=
    call (ReflectionSummary paragraph_index)
         (reflection_summary_run title content search_query search_results
                                 paragraph_latest_state) in
  update_paragraph paragraph_index
    (fun p => on_research increment_reflection
                (on_research (set_latest_summary updated_summary) p)).

(** [_initial_search_and_summary] *)
Definition _initial_search_and_summary (cfg : config) (paragraph_index : nat) : A unit :=
  let* paragraph := get_paragraph paragraph_index in
  let* search_output :=
    call (FirstSearch paragraph_index)
         (first_search_run (title paragraph) (content paragraph)) in
  let* found := search_with cfg search_output in
  update_paragraph paragraph_index
    (on_research (add_search_results (fst found) (snd found))) ;;
  first_summary_mutate_state paragraph_index (title paragraph) (content paragraph)
    (fst found) (snd found).

(** One turn of the [for reflection_i in range(...)] loop.  [paragraph]
    is the object bound before the loop, which the state mutation
    updates in place: its fields are read from the state. *)
Definition reflection_turn (cfg : config) (paragraph_index : nat) : A unit :=
  let* paragraph := get_paragraph paragraph_index in
  let* reflection_output :=
    call (Reflection paragraph_index)
         (reflection_run (title paragraph) (content paragraph)
                         (latest_summary (p_research paragraph))) in
  let* found := search_with cfg reflection_output in
  update_paragraph paragraph_index
    (on_research (add_search_results (fst found) (snd found))) ;;
  let* paragraph := get_paragraph paragraph_index in
  reflection_summary_mutate_state paragraph_index (title paragraph) (content paragraph)
    (fst found) (snd found) (latest_summary (p_research paragraph)).

Fixpoint repeat_turns (turns : nat) (turn : A unit) : A unit :=
  match turns with
  | O => ret tt
  | S turns' => turn ;; repeat_turns turns' turn
  end.

(** [_reflection_loop] *)
Definition _reflection_loop (cfg : config) (paragraph_index : nat) : A unit :=
  let* _paragraph := get_paragraph paragraph_index in
  repeat_turns (Z.to_nat (MAX_REFLECTIONS cfg)) (reflection_turn cfg paragraph_index).

(** The body of the loop of [_process_paragraphs]. *)
Definition process_paragraph (cfg : config) (i : nat) : A unit :=
  _initial_search_and_summary cfg i ;;
  _reflection_loop cfg i ;;
  update_paragraph i (on_research mark_completed).

Fixpoint for_each (indices : list nat) (body : nat -> A unit) : A unit :=
  match indices with
  | [] => ret tt
  | i :: rest => body i ;; for_each rest body
  end.

(** [_process_paragraphs] *)
Definition _process_paragraphs (cfg : config) : A unit :=
  fun a =>
    let total_paragraphs := length (paragraphs (st a)) in
    for_each (seq 0 total_paragraphs) (process_paragraph cfg) a.

(** *** Notions used in the statements about the loop *)

(** The reflection counters of the paragraphs, in order. *)
Definition counts (a : agent) : list Z :=
  List.map (fun p => reflection_count (p_research p)) (paragraphs (st a)).

(** A step of the agent that adds [n] to the counter of paragraph [i],
    leaves the other counters, and makes the node calls [evs]. *)
Definition effect (i : nat) (n : Z) (evs : list event) (a a' : agent) : Prop :=
  counts a' = alter (fun c => (c + n)%Z) i (counts a)
  /\ history a' = history a ++ evs.

Definition does {T} (c : A T) (i : nat) (n : Z) (evs : list event) : Prop :=
  forall a a' x, c a = (a', Some x) -> effect i n evs a a'.

(** The node calls of [n] turns of the reflection loop of paragraph [i]. *)
Definition reflections (i n : nat) : list event :=
  concat (repeat [Reflection i; ReflectionSummary i] n).

(** The node calls of a paragraph: first search and summary, then the
    reflections. *)
Definition paragraph_events (n : nat) (i : nat) : list event :=
  [FirstSearch i; FirstSummary i] ++ reflections i n.

End Agent.

Arguments MkResearch {Result} _ _ _ _.
Arguments latest_summary {Result} _.
Arguments reflection_count {Result} _.
Arguments search_history {Result} _.
Arguments is_completed {Result} _.
Arguments MkParagraph {Result} _ _ _.
Arguments title {Result} _.
Arguments content {Result} _.
Arguments p_research {Result} _.
Arguments MkState {Result} _.
Arguments paragraphs {Result} _.
Arguments Agent {Result World} _ _ _.
Arguments st {Result World} _.
Arguments world {Result World} _.
Arguments history {Result World} _.
Arguments new_paragraph {Result} _ _.
Arguments ret {Result World T} _ _.
Arguments bind {Result World T U} _ _ _.
Arguments required {Result World T} _ _.
Arguments get_paragraph {Result World} _ _.
Arguments update_paragraph {Result World} _ _ _.
Arguments call {Result World T} _ _ _.
Arguments counts {Result World} _.
Arguments effect {Result World} _ _ _ _ _.
Arguments does {Result World T} _ _ _ _.

End Research.

(** ** utils/retry_helper.py: the retry envelope that re-raises *)

Module RetryStrict.
Import Retry.

Section Envelope.

Variables (Val Exn : Type).
Variable retry_on_exceptions : Exn -> bool.
Variable max_retries : Z.
Variable func : nat -> outcome Val Exn.
(** The steps of the wrapper's own code that can raise, as for the
    graceful wrapper. *)
Variable func_name_error : option Exn.
Variable str_error : Exn -> option Exn.
Variable delay_error : nat -> option Exn.
Variable sleep_error : nat -> option Exn.

(** How a call of the wrapper of [with_retry] ends: with the value of an
    attempt, with an exception, or by falling out of the loop with no
    error recorded, which returns [None]. *)
Inductive ending : Type :=
| Returned (v : Val)
| Raised (e : Exn)
| ReturnedNone.

Record strict_run : Type := StrictRun { ending_of : ending; strict_calls : nat }.

(** The log message before [raise e], which reads [func.__name__] and
    [str(e)]. *)
Definition reraise (e : Exn) : ending :=
  match first_error Exn [func_name_error; str_error e] with
  | Some raised => Raised raised
  | None => Raised e
  end.

(** The loop of the wrapper of [with_retry]; [last_exception] is the
    variable of that name.  An error that is on the retry list at the
    last attempt, or is an [Exception] outside the list, is re-raised
    after a log message; any other error passes the handlers. *)
Fixpoint strict_attempts (is_Exception : Exn -> bool) (remaining attempt : nat)
    (last_exception : option Exn) : strict_run :=
  match remaining with
  | O =>
      StrictRun (match last_exception with
                 | Some e => Raised e
                 | None => ReturnedNone
                 end) attempt
  | S remaining' =>
      let handle (e : Exn) : strict_run :=
        if retry_on_exceptions e then
          if (Z.of_nat attempt =? max_retries)%Z
          then StrictRun (reraise e) (S attempt)
          else
            match back_off Exn func_name_error str_error delay_error sleep_error attempt e with
            | Some raised => StrictRun (Raised raised) (S attempt)
            | None => strict_attempts is_Exception remaining' (S attempt) (Some e)
            end
        else if is_Exception e then StrictRun (reraise e) (S attempt)
        else StrictRun (Raised e) (S attempt) in
      match func attempt with
      | Returns v =>
          if Nat.ltb 0 attempt then
            match func_name_error with
            | Some raised => handle raised
            | None => StrictRun (Returned v) (S attempt)
            end
          else StrictRun (Returned v) (S attempt)
      | Raises e => handle e
      end
  end.

(** The wrapper that [with_retry(config)(func)] builds. *)
Definition with_retry (is_Exception : Exn -> bool) : strict_run :=
  strict_attempts is_Exception (Z.to_nat (max_retries + 1)) 0 None.

(** What the graceful wrapper makes of an ending of the strict one. *)
Definition softened (is_Exception : Exn -> bool) (default_return : Val) (e : ending)
  : outcome Val Exn :=
  match e with
  | Returned v => Returns v
  | Raised e =>
      if retry_on_exceptions e || is_Exception e then Returns default_return else Raises e
  | ReturnedNone => Returns default_return
  end.

End Envelope.

Arguments Returned {Val Exn} v.
Arguments Raised {Val Exn} e.
Arguments ReturnedNone {Val Exn}.
Arguments StrictRun {Val Exn} ending_of strict_calls.
Arguments ending_of {Val Exn} s.
Arguments strict_calls {Val Exn} s.

Section DefaultConfig.

Variables (Val Exn : Type).
(** [isinstance(e, Exception)] *)
Variable is_Exception : Exn -> bool.
(** [isinstance] of one of the seven classes that [RetryConfig] lists
    before [Exception]: the five of [requests.exceptions],
    [ConnectionError] and [TimeoutError]. *)
Variable is_listed_network_error : Exn -> bool.

(** [RetryConfig(...).retry_on_exceptions] when the argument is [None]:
    the tuple of the listed classes, which ends with [Exception]. *)
Definition default_retry_on_exceptions (e : Exn) : bool :=
  is_listed_network_error e || is_Exception e.

(** [retry_on_network_error(max_retries, ...)(func)]: [with_retry] over a
    [RetryConfig] with the default list. *)
Definition retry_on_network_error (max_retries : Z) (func : nat -> outcome Val Exn)
    (func_name_error : option Exn) (str_error : Exn -> option Exn)
    (delay_error sleep_error : nat -> option Exn) : strict_run Val Exn :=
  with_retry Val Exn default_retry_on_exceptions max_retries func
    func_name_error str_error delay_error sleep_error is_Exception.

End DefaultConfig.

End RetryStrict.

(** ** ReportEngine/agent.py: taking the baseline *)

Module ReportBaseline.
Import Py Report.

(** One turn of the loop of [initialize_baseline]; [None] when
    [os.listdir] raises. *)
Definition count_engine (fs : filesystem) (current_counts : gmap string Z)
    (engine : string) (directory : str) : option (gmap string Z) :=
  match fs directory with
  | Some (Directory entries) =>
      Some (<[engine := Z.of_nat (length (md_files entries))]> current_counts)
  | Some NotDirectory => None
  | None => Some (<[engine := 0%Z]> current_counts)
  end.

Fixpoint count_engines (fs : filesystem) (current_counts : gmap string Z)
    (directories : list (string * str)) : option (gmap string Z) :=
  match directories with
  | [] => Some current_counts
  | (engine, directory) :: rest =>
      match count_engine fs current_counts engine directory with
      | Some current_counts' => count_engines fs current_counts' rest
      | None => None
      end
  end.

(** [FileCountBaseline.initialize_baseline]: the counts it returns,
    which become [baseline_data]. *)
Definition initialize_baseline (fs : filesystem) (directories : list (string * str))
  : option (gmap string Z) :=
  count_engines fs ∅ directories.

(** The number of new files that [check_new_files] reports for an
    engine: the excess over the baseline, and 0 without an excess or
    without the directory. *)
Definition new_files_of (fs : filesystem) (baseline_data : gmap string Z)
    (engine : string) (directory : str) : Z :=
  match fs directory with
  | Some (Directory entries) =>
      Z.max 0 (Z.of_nat (length (md_files entries)) - default 0%Z (baseline_data !! engine))
  | _ => 0%Z
  end.

End ReportBaseline.

(** ** app.py: notions about the start requests *)

Module AppNotions.
Import App.

(** The request has been answered with the already-started message, or
    has not reached the guard yet. *)
Definition turned_away (p : pc) : Prop :=
  p = Arrived \/ p = Rejected "System already started".

(** No request is between the grant of the guard and the write of
    [started]. *)
Definition none_initializing (sv : server) : Prop :=
  Forall (fun p => match p with
                   | Initializing | RollingBack | Initialized _ => False
                   | _ => True
                   end) (requests sv).

(** While [started] is set, no request is being initialized. *)
Definition started_settled (sv : server) : Prop :=
  start_held_once sv /\ (started (flags sv) = true -> none_initializing sv).

End AppNotions.


(** ** Sample inputs *)

Module Samples.
Import Py Json Monitor.

(** The three lines of a summary emitted over several lines, each with
    the prefix of the engine log. *)
Definition reassembly_start : str :=
  lit "2025-01-01 12:00:00.000 | INFO | insight.nodes.summary_node - Cleaned output: {".
Definition reassembly_field : str :=
  lit "2025-01-01 12:00:00.000 | INFO | insight.nodes.summary_node -   "
    ++ [DQUOTE] ++ lit "updated_paragraph_latest_state" ++ [DQUOTE] ++ lit ": "
    ++ [DQUOTE] ++ lit "alpha\nbeta" ++ [DQUOTE].
Definition reassembly_end : str :=
  lit "2025-01-01 12:00:00.000 | INFO | insight.nodes.summary_node - }".
Definition reassembly_lines : list str :=
  [reassembly_start; reassembly_field; reassembly_end].

(** The text of the field line behind its prefix. *)
Definition reassembly_field_body : str :=
  [DQUOTE] ++ lit "updated_paragraph_latest_state" ++ [DQUOTE] ++ lit ": "
    ++ [DQUOTE] ++ lit "alpha\nbeta" ++ [DQUOTE].

(** An ERROR line, lines of a traceback that look like a summary, and
    an INFO line with a summary. *)
Definition error_line : str :=
  lit "2025-01-01 12:00:01.000 | ERROR    | insight.nodes.summary_node:run:120 - JSON parsing failed: x".
Definition traceback_lines : list str :=
  [ lit "Traceback (most recent call last):";
    lit "2025-01-01 12:00:01.100 | WARNING  | insight.nodes.summary_node:run:121 - Cleaned output: {"
      ++ [DQUOTE] ++ lit "paragraph_latest_state" ++ [DQUOTE] ++ lit ": "
      ++ [DQUOTE] ++ lit "lost" ++ [DQUOTE] ++ lit "}";
    lit "   " ].
Definition info_line : str :=
  lit "2025-01-01 12:00:02.000 | INFO     | insight.nodes.summary_node:run:125 - Cleaned output: {"
    ++ [DQUOTE] ++ lit "paragraph_latest_state" ++ [DQUOTE] ++ lit ": "
    ++ [DQUOTE] ++ lit "ok" ++ [DQUOTE] ++ lit "}".

(** The same summary with the time stamp of the supervisor in front of
    its continuation lines. *)
Definition stamped_lines : list str :=
  [ reassembly_start;
    lit "[12:00:00]   " ++ reassembly_field_body;
    lit "[12:00:00] }" ].

(** The monitor after the start line of the summary. *)
Definition before_error : monitor :=
  fst (process_lines_for_json sample_json_loads sample_loads_other_error sample_json_dumps [reassembly_start]
         "insight" new_monitor).

(** A world for the examples: a clock that stands still and a host
    that always answers. *)
Definition sample_now (w : unit) : datetime * unit :=
  (DateTime 2025 1 1 9 5 7, tt).
Definition sample_host (speeches : list str) (w : unit) : option str * unit :=
  (Some (lit "Please compare your sources."), tt).

(** A monitor with the given utterances waiting, before any forum log. *)
Definition sample_system (buffer : list str) : system unit :=
  Sys (set_agent_speeches_buffer buffer new_monitor) None tt [].

Definition five_utterances : list str :=
  [ lit "[09:05:01] [QUERY] one"; lit "[09:05:02] [MEDIA] two";
    lit "[09:05:03] [INSIGHT] three"; lit "[09:05:04] [QUERY] four";
    lit "[09:05:05] [MEDIA] five" ].

Definition twelve_items : list (string * str) :=
  [ ("query", lit "one"); ("media", lit "two"); ("insight", lit "three");
    ("query", lit "four"); ("media", lit "five"); ("insight", lit "six");
    ("query", lit "seven"); ("media", lit "eight"); ("insight", lit "nine");
    ("query", lit "ten"); ("media", lit "eleven"); ("insight", lit "twelve") ]%string.

(** A log file of two lines, and a decoder for ASCII text. *)
Definition sample_log : list N := lit "first line" ++ [LF] ++ lit "second line" ++ [LF].
Definition sample_decode (data : list N) : option str := Some data.

(** A monitor that has read an engine log up to byte 10000. *)
Definition monitor_at_10000 : monitor :=
  set_file_positions (<["query"%string := 10000%Z]>) new_monitor.

(** The monitor that has read the log of the query engine up to byte
    10000 and counted [n] lines in it, with no forum log yet. *)
Definition monitor_at_line (n : Z) : system unit :=
  Sys (set_file_line_counts (<["query"%string := n]>) monitor_at_10000) None tt [].

(** One poll of the log of the query engine. *)
Definition sample_poll (file : option (list N)) (s : system unit)
  : system unit * result unit :=
  monitor_engine sample_json_loads sample_loads_other_error sample_json_dumps sample_decode
    unit sample_now sample_host true "query" file s.

(** Report directories with the given numbers of reports, next to a
    file that is not a report, and the forum log. *)
Definition sample_reports (n : nat) : list str :=
  lit "notes.txt" :: List.map (fun i => lit "report_" ++ [48 + N.of_nat i] ++ lit ".md") (seq 0 n).

Definition sample_fs (insight media query : nat) : Report.filesystem :=
  fun path =>
    if str_eqb path (lit "insight_engine_streamlit_reports")
    then Some (Report.Directory (sample_reports insight))
    else if str_eqb path (lit "media_engine_streamlit_reports")
    then Some (Report.Directory (sample_reports media))
    else if str_eqb path (lit "query_engine_streamlit_reports")
    then Some (Report.Directory (sample_reports query))
    else if str_eqb path (lit "logs/forum.log") then Some Report.NotDirectory
    else None.

Definition sample_baseline : gmap string Z :=
  <["insight"%string := 3%Z]> (<["media"%string := 3%Z]> (<["query"%string := 3%Z]> ∅)).

Definition sample_check (fs : Report.filesystem) : option Report.input_check :=
  Report.check_input_files fs sample_baseline
    (lit "insight_engine_streamlit_reports") (lit "media_engine_streamlit_reports")
    (lit "query_engine_streamlit_reports") (lit "logs/forum.log").

(** Errors for the retry examples: [ConnectionError] is on the retry
    list, [ValueError] is not, [KeyboardInterrupt] is no [Exception];
    [OverflowError] is what a power of floats raises. *)
Inductive sample_exn : Type :=
| ConnectionError | ValueError | KeyboardInterrupt | OverflowError.

Definition sample_retry_on (e : sample_exn) : bool :=
  match e with ConnectionError => true | _ => false end.
Definition sample_is_Exception (e : sample_exn) : bool :=
  match e with KeyboardInterrupt => false | _ => true end.

(** A call that fails twice with a connection error and then returns 7;
    a call interrupted from the keyboard; a call that never connects. *)
Definition flaky_call (k : nat) : Retry.outcome nat sample_exn :=
  if Nat.ltb k 2 then Retry.Raises ConnectionError else Retry.Returns 7%nat.
Definition interrupted_call (k : nat) : Retry.outcome nat sample_exn :=
  Retry.Raises KeyboardInterrupt.
Definition offline_call (k : nat) : Retry.outcome nat sample_exn :=
  Retry.Raises ConnectionError.

(** The wrapper's own steps for a named function, errors and a default
    that print, and delays that can be slept. *)
Definition sample_str_error (e : sample_exn) : option sample_exn := None.
Definition sample_sleep_error (attempt : nat) : option sample_exn := None.
Definition sample_delay_error (attempt : nat) : option sample_exn := None.
(** With the back-off factor 2.0 of the default configuration the power
    [2.0 ** attempt] is out of range from attempt 1024 on. *)
Definition overflowing_delay_error (attempt : nat) : option sample_exn :=
  if Nat.leb 1024 attempt then Some OverflowError else None.

(** The wrapper of a sample call, with 5 retries and the default 0. *)
Definition sample_graceful_retry (retry_on : sample_exn -> bool)
    (func : nat -> Retry.outcome nat sample_exn) : Retry.run nat sample_exn :=
  Retry.with_graceful_retry nat sample_exn retry_on sample_is_Exception 5 0%nat func
    None sample_str_error None sample_delay_error sample_sleep_error.

(** An engine whose nodes and searches always answer, with two fresh
    paragraphs and two reflections per paragraph. *)
Definition sample_output : Research.search_output :=
  Research.SearchOutput (Some (lit "topic")) None (Some (lit "because")) None None None None.
Definition sample_first_search (title content : str) (w : unit)
  : option Research.search_output * unit := (Some sample_output, tt).
Definition sample_reflection (title content latest : str) (w : unit)
  : option Research.search_output * unit := (Some sample_output, tt).
Definition sample_search (tool query : str) (kw : Research.search_kwargs) (w : unit)
  : option (list unit) * unit := (Some [tt; tt], tt).
Definition sample_first_summary (title content query : str) (results : list unit) (w : unit)
  : option str * unit := (Some (lit "summary"), tt).
Definition sample_reflection_summary (title content query : str) (results : list unit)
    (latest : str) (w : unit) : option str * unit := (Some (latest ++ lit "+"), tt).

Definition sample_config (max_reflections : Z) : Research.config :=
  Research.Config max_reflections 0 100 50 100 500 200.

Definition sample_agent : Research.agent unit unit :=
  Research.Agent
    (Research.MkState [ Research.new_paragraph (lit "Background") (lit "what happened");
                        Research.new_paragraph (lit "Reactions") (lit "who said what") ])
    tt [].

Definition sample_process (max_reflections : Z)
  : Research.agent unit unit * option unit :=
  Research._process_paragraphs unit (fun _ => true) unit sample_first_search
    sample_reflection sample_search sample_first_summary sample_reflection_summary
    (sample_config max_reflections) sample_agent.

(** A text of a hundred thousand opening brackets. *)
Definition deeply_nested : str := repeat 91 (N.to_nat 100000).

(** A summary whose value holds unescaped quotes. *)
Definition unescaped_quotes : str :=
  lit "{" ++ [DQUOTE] ++ lit "a" ++ [DQUOTE] ++ lit ": " ++ [DQUOTE]
    ++ lit "he said " ++ [DQUOTE] ++ lit "hi" ++ [DQUOTE] ++ lit " ok" ++ [DQUOTE] ++ lit "}".

End Samples.

(** ** Sample inputs of the retry wrappers and of the baseline *)

Module MoreSamples.
Import Py Retry RetryStrict Report ReportBaseline Samples.

(** A call that always fails with a [ValueError]. *)
Definition bad_value_call (k : nat) : outcome nat sample_exn := Raises ValueError.

(** The wrapper of [with_retry] around a sample call, with 5 retries. *)
Definition sample_with_retry (retry_on : sample_exn -> bool)
    (func : nat -> outcome nat sample_exn) : strict_run nat sample_exn :=
  with_retry nat sample_exn retry_on 5 func None sample_str_error
    sample_delay_error sample_sleep_error sample_is_Exception.

(** The three report directories of [check_input_files]. *)
Definition sample_directories : list (string * str) :=
  engine_directories (lit "insight_engine_streamlit_reports")
    (lit "media_engine_streamlit_reports") (lit "query_engine_streamlit_reports").

Definition no_check : new_files_check := NewFilesCheck false ∅ ∅ ∅ [].

(** What [check_new_files] returns over the sample baseline when the
    directories hold 3, 5 and 3 reports. *)
Definition sample_new_files_check : new_files_check :=
  default no_check (check_new_files (sample_fs 3 5 3) sample_baseline sample_directories).

(** The baseline taken when the directories hold 3, 5 and 3 reports. *)
Definition sample_fresh_baseline : gmap string Z :=
  default ∅ (initialize_baseline (sample_fs 3 5 3) sample_directories).

End MoreSamples.

(** * Properties *)

(** ** Strings and patterns *)

Module PyFacts.
Import Py Re.

Lemma In_lstrip (c : char) (s : str) :
  In c s -> isspace c = false -> In c (lstrip s).
Proof.
  induction s as [|x s IH]; simpl; [tauto|].
  intros [->|Hin] Hc.
  - rewrite Hc. now left.
  - destruct (isspace x); [now apply IH | now right].
Qed.

Lemma In_strip (c : char) (s : str) :
  In c s -> isspace c = false -> In c (strip s).
Proof.
  intros Hin Hc. unfold strip, rstrip.
  apply (proj1 (in_rev _ _)). apply In_lstrip; [|assumption].
  apply (proj1 (in_rev _ _)). now apply In_lstrip.
Qed.

Lemma nonempty_In (c : char) (s : str) : In c s -> nonempty s = true.
Proof. destruct s; simpl; [tauto | reflexivity]. Qed.

(** A successful search matched at some suffix of the subject. *)
Lemma search_from_suffix (r : regex) (s : str) (i : nat) (m : mst) :
  search_from r i s = Some m ->
  exists j pre suf, s = pre ++ suf /\ match_at r j suf = Some m.
Proof.
  revert i. induction s as [|c s IH]; intros i; simpl.
  - destruct (match_at r i []) eqn:E; simpl; [|discriminate].
    intros [= <-]. exists i, [], []. auto.
  - destruct (match_at r i (c :: s)) eqn:E; simpl.
    + intros [= <-]. exists i, [], (c :: s). auto.
    + intros H. destruct (IH _ H) as (j & pre & suf & -> & Hm).
      exists j, (c :: pre), suf. auto.
Qed.

End PyFacts.

(** ** The log tailer *)

Module MonitorFacts.
Import Py Re Json Monitor PyFacts Samples.

Lemma str_eqb_eq (a b : str) : str_eqb a b = true <-> a = b.
Proof.
  revert b. induction a as [|x a IH]; intros [|y b]; simpl; split; try easy.
  - intros H. apply andb_prop in H as [H1 H2]. apply N.eqb_eq in H1. apply IH in H2. congruence.
  - intros [= -> ->]. rewrite N.eqb_refl. simpl. now apply IH.
Qed.

(** A line with a recognizable level holds a [|], so it is not blank. *)
Lemma level_not_blank (line : str) (lv : str) :
  get_log_level line = Some lv -> nonempty (strip line) = true.
Proof.
  unfold get_log_level, re_search.
  destruct (search_from re_level 0 line) as [m|] eqn:E; [|discriminate].
  intros _. apply search_from_suffix in E as (j & pre & suf & -> & Hm).
  assert (Hre : exists r, re_level = Seq (Chr (eqc 124)) r) by (eexists; reflexivity).
  destruct Hre as [r Hre]. rewrite Hre in Hm. unfold match_at in Hm. simpl in Hm.
  destruct suf as [|c suf]; [discriminate Hm|].
  destruct (eqc 124 c) eqn:Hc; [|discriminate Hm].
  unfold eqc in Hc. apply N.eqb_eq in Hc. subst c.
  apply (nonempty_In 124). apply In_strip; [|reflexivity].
  apply in_or_app. right. now left.
Qed.

Section WithJson.

Variable json_loads : str -> option json.
Variable json_loads_other_error : str -> bool.
Variable json_dumps : json -> str.

Abbreviation process_line := (process_line json_loads json_loads_other_error json_dumps).
Abbreviation process_loop := (process_loop json_loads json_loads_other_error json_dumps).
Abbreviation process_lines_for_json :=
  (process_lines_for_json json_loads json_loads_other_error json_dumps).

Lemma has_keys_init app_name st : has_keys app_name (init_capture_state app_name st).
Proof.
  unfold init_capture_state, has_keys.
  destruct (capturing_json st !! app_name) eqn:E1.
  - destruct (in_error_block st !! app_name) eqn:E2; simpl.
    + rewrite E1, E2. eauto.
    + rewrite E1, lookup_insert_eq. eauto.
  - simpl. destruct (in_error_block st !! app_name) eqn:E2; simpl.
    + rewrite lookup_insert_eq, E2. eauto.
    + rewrite !lookup_insert_eq. eauto.
Qed.

Lemma init_has_keys app_name st : has_keys app_name st -> init_capture_state app_name st = st.
Proof.
  intros [[c Hc] [e He]]. unfold init_capture_state. now rewrite Hc, He.
Qed.

Lemma set_in_error_block_id app_name b st :
  in_error_block st !! app_name = Some b ->
  set_in_error_block (<[app_name := b]>) st = st.
Proof.
  intros H. destruct st; simpl in *. unfold set_in_error_block; simpl.
  f_equal. now apply insert_id.
Qed.

Lemma process_line_error app_name line captured st :
  has_keys app_name st ->
  level_is "ERROR" (get_log_level line) = true ->
  process_line app_name line captured st = (enter_error_block app_name st, Ok captured).
Proof.
  intros [[c Hc] _] Hlv. unfold process_line.
  destruct (get_log_level line) as [lv|] eqn:Elv; [|discriminate Hlv].
  rewrite (level_not_blank _ _ Elv). simpl negb. cbv iota. rewrite Hlv.
  unfold enter_error_block, bind, modify, stop_capturing, read_key, bind, modify, ret.
  simpl. rewrite Hc. destruct c; reflexivity.
Qed.

Lemma process_line_blocked app_name line captured st :
  blocked app_name st ->
  level_is "INFO" (get_log_level line) = false ->
  process_line app_name line captured st = (st, Ok captured).
Proof.
  intros [He Hc] Hlv. unfold process_line.
  destruct (negb (nonempty (strip line))); [reflexivity|].
  rewrite Hlv.
  unfold bind, modify, stop_capturing, read_key, bind, modify, ret.
  destruct (level_is "ERROR" (get_log_level line)); simpl.
  - rewrite Hc. now rewrite (set_in_error_block_id _ _ _ He).
  - rewrite He, Hc. reflexivity.
Qed.

Lemma enter_error_block_blocked app_name st :
  has_keys app_name st -> blocked app_name (enter_error_block app_name st).
Proof.
  intros [[c Hc] _]. unfold enter_error_block, blocked. simpl. rewrite Hc.
  destruct c; simpl; rewrite ?lookup_insert_eq; auto.
Qed.

Lemma blocked_has_keys app_name st : blocked app_name st -> has_keys app_name st.
Proof. intros [He Hc]. split; eauto. Qed.

Lemma record_json_content_acc content captured st :
  record_json_content content captured st
  = prepend captured (record_json_content content [] st).
Proof.
  unfold record_json_content, ret, raise.
  destruct content as [v|]; simpl; [|now rewrite app_nil_r].
  destruct (truthy v); simpl; [|now rewrite app_nil_r].
  destruct v; reflexivity.
Qed.

Lemma process_line_acc app_name line captured st :
  process_line app_name line captured st
  = prepend captured (process_line app_name line [] st).
Proof.
  unfold process_line.
  destruct (negb (nonempty (strip line))); [simpl; now rewrite app_nil_r|].
  unfold bind, modify, stop_capturing, read_key, bind, modify, ret.
  destruct (level_is "ERROR" (get_log_level line)).
  { simpl. destruct (capturing_json st !! app_name) as [[]|]; simpl; now rewrite ?app_nil_r. }
  destruct (level_is "INFO" (get_log_level line)); simpl.
  all: repeat match goal with
       | |- context [record_json_content ?c ?cap ?s] =>
           is_var cap; rewrite (record_json_content_acc c cap s);
           destruct (record_json_content c [] s) as [? [?|?]]; simpl
       | |- context [if ?b then _ else _] => destruct b; simpl
       | |- context [match ?m !! ?k with _ => _ end] => destruct (m !! k); simpl
       end; rewrite ?app_nil_r; try reflexivity.
Qed.

Lemma record_json_content_state content captured st :
  (record_json_content content captured st).1 = st.
Proof.
  unfold record_json_content, ret, raise.
  destruct content as [v|]; [|reflexivity].
  destruct (truthy v); [|reflexivity]. destruct v; reflexivity.
Qed.

Lemma process_line_keys app_name line captured st :
  has_keys app_name st -> has_keys app_name (process_line app_name line captured st).1.
Proof.
  intros [[c Hc] [e He]]. unfold process_line.
  destruct (negb (nonempty (strip line))); [simpl; split; eauto|].
  unfold bind, modify, stop_capturing, read_key, bind, modify, ret.
  destruct (level_is "ERROR" (get_log_level line)).
  { simpl. rewrite Hc. destruct c; simpl; split; simpl; rewrite ?lookup_insert_eq; eauto. }
  destruct (level_is "INFO" (get_log_level line)); simpl.
  all: repeat match goal with
       | |- context [record_json_content ?c ?cap ?s] =>
           let H := fresh in
           pose proof (record_json_content_state c cap s) as H;
           destruct (record_json_content c cap s) as [? [?|?]]; simpl in H; subst; simpl
       | |- context [if ?b then _ else _] => destruct b; simpl
       | |- context [match ?m !! ?k with _ => _ end] => destruct (m !! k) eqn:?; simpl
       end; split; simpl; rewrite ?lookup_insert_eq; eauto;
       solve [eexists; eassumption | congruence].
Qed.

Lemma process_line_info app_name line captured st :
  level_is "INFO" (get_log_level line) = true ->
  in_error_block (process_line app_name line captured st).1 !! app_name = Some false.
Proof.
  intros Hlv. unfold process_line.
  destruct (get_log_level line) as [lv|] eqn:Elv; [|discriminate Hlv].
  rewrite (level_not_blank _ _ Elv). simpl negb. cbv iota.
  assert (Herr : level_is "ERROR" (Some lv) = false).
  { unfold level_is in *. destruct (str_eqb lv (lit "ERROR")) eqn:E; [|reflexivity].
    apply str_eqb_eq in Hlv, E. subst lv. discriminate E. }
  rewrite Herr, Hlv.
  unfold bind, modify, stop_capturing, read_key, bind, modify, ret. simpl.
  rewrite lookup_insert_eq.
  repeat match goal with
       | |- context [record_json_content ?c ?cap ?s] =>
           let H := fresh in
           pose proof (record_json_content_state c cap s) as H;
           destruct (record_json_content c cap s) as [? [?|?]]; simpl in H; subst; simpl
       | |- context [if ?b then _ else _] => destruct b; simpl
       | |- context [match ?m !! ?k with _ => _ end] => destruct (m !! k) eqn:?; simpl
       end; rewrite ?lookup_insert_eq; eauto.
Qed.

Lemma process_loop_acc app_name lines captured st :
  process_loop app_name lines captured st
  = prepend captured (process_loop app_name lines [] st).
Proof.
  revert captured st. induction lines as [|line lines IH]; intros captured st; simpl.
  - unfold ret. simpl. now rewrite app_nil_r.
  - unfold bind. rewrite process_line_acc.
    destruct (process_line app_name line [] st) as [st1 [out|e]]; simpl; [|reflexivity].
    rewrite IH. rewrite (IH out).
    destruct (process_loop app_name lines [] st1) as [st2 [out2|e]]; simpl; [|reflexivity].
    now rewrite app_assoc.
Qed.

Lemma process_loop_app app_name lines1 lines2 captured st :
  process_loop app_name (lines1 ++ lines2) captured st
  = match process_loop app_name lines1 captured st with
    | (st1, Ok captured1) => process_loop app_name lines2 captured1 st1
    | (st1, Raise e) => (st1, Raise e)
    end.
Proof.
  revert captured st. induction lines1 as [|line lines1 IH]; intros captured st; simpl.
  - reflexivity.
  - unfold bind. destruct (process_line app_name line captured st) as [st1 [out|e]]; [|reflexivity].
    apply IH.
Qed.

Lemma process_loop_keys app_name lines captured st :
  has_keys app_name st -> has_keys app_name (process_loop app_name lines captured st).1.
Proof.
  revert captured st. induction lines as [|line lines IH]; intros captured st Hk; simpl.
  - exact Hk.
  - unfold bind. pose proof (process_line_keys app_name line captured st Hk) as Hk1.
    destruct (process_line app_name line captured st) as [st1 [out|e]]; simpl in *.
    + now apply IH.
    + exact Hk1.
Qed.

Lemma process_loop_blocked app_name lines captured st :
  blocked app_name st ->
  Forall (fun line => level_is "INFO" (get_log_level line) = false) lines ->
  process_loop app_name lines captured st = (st, Ok captured).
Proof.
  intros Hb Hall. induction Hall as [|line lines Hline _ IH]; simpl.
  - reflexivity.
  - unfold bind. rewrite (process_line_blocked _ _ _ _ Hb Hline). exact IH.
Qed.

Lemma process_lines_for_json_keys lines app_name st :
  has_keys app_name (process_lines_for_json lines app_name st).1.
Proof.
  unfold Monitor.process_lines_for_json, bind, modify. simpl.
  apply process_loop_keys, has_keys_init.
Qed.


Abbreviation extract_json_content :=
  (extract_json_content json_loads json_loads_other_error json_dumps).
Abbreviation parse_or_repair := (parse_or_repair json_loads json_loads_other_error json_dumps).

Lemma bind_modify {A} (f : monitor -> monitor) (k : unit -> M A) st :
  bind (modify f) k st = k tt (f st).
Proof. reflexivity. Qed.

Lemma bind_ret {A B} (x : A) (k : A -> M B) st : bind (ret x) k st = k x st.
Proof. reflexivity. Qed.

Lemma bind_read_key {V B} (field : monitor -> gmap string V) app_name (v : V)
    (k : V -> M B) st :
  field st !! app_name = Some v -> bind (read_key field app_name) k st = k v st.
Proof. intros H. unfold bind, read_key. now rewrite H. Qed.

(** The level checks at the head of the loop body do nothing on a plain
    line outside an ERROR block. *)
Lemma process_line_plain app_name line captured st :
  plain line ->
  in_error_block st !! app_name = Some false ->
  process_line app_name line captured st
  = (if is_target_log_line line && is_json_start_line line then
       bind (modify (set_capturing_json (<[app_name := true]>))) (fun _ =>
       bind (modify (set_json_buffer (<[app_name := [line]]>))) (fun _ =>
       bind (modify (set_json_start_line (<[app_name := line]>))) (fun _ =>
       if endswith (lit "}") (strip line) then
         bind (record_json_content (extract_json_content [line]) captured)
           (fun captured_contents =>
         bind (modify (set_capturing_json (<[app_name := false]>))) (fun _ =>
         bind (modify (set_json_buffer (<[app_name := []]>))) (fun _ =>
         ret captured_contents)))
       else ret captured)))
     else if is_target_log_line line && is_valuable_content line then
       ret (captured ++ [_clean_content_tags (extract_node_content line)])
     else
       bind (read_key capturing_json app_name) (fun capturing =>
       if capturing : bool then
         bind (read_key json_buffer app_name) (fun buffer =>
         bind (modify (set_json_buffer (<[app_name := buffer ++ [line]]>))) (fun _ =>
         if is_end_marker line then
           bind (read_key json_buffer app_name) (fun buffer =>
           bind (record_json_content (extract_json_content buffer) captured)
             (fun captured_contents =>
           bind (modify (set_capturing_json (<[app_name := false]>))) (fun _ =>
           bind (modify (set_json_buffer (<[app_name := []]>))) (fun _ =>
           ret captured_contents))))
         else ret captured))
       else ret captured)) st.
Proof.
  intros [Hnb Herr] He. unfold Monitor.process_line.
  rewrite Hnb, Herr. cbn [negb].
  destruct (level_is "INFO" (get_log_level line)).
  - rewrite bind_modify, (set_in_error_block_id _ _ _ He).
    now rewrite (bind_read_key in_error_block _ _ _ _ He).
  - rewrite bind_ret. now rewrite (bind_read_key in_error_block _ _ _ _ He).
Qed.

Lemma process_line_start app_name line captured st :
  plain line ->
  in_error_block st !! app_name = Some false ->
  is_target_log_line line = true ->
  is_json_start_line line = true ->
  endswith (lit "}") (strip line) = false ->
  process_line app_name line captured st = (start_capture app_name line st, Ok captured).
Proof.
  intros Hp He Ht Hs Hend. rewrite (process_line_plain _ _ _ _ Hp He).
  now rewrite Ht, Hs, Hend.
Qed.

(** A target line with enough text is published on its own, also in the
    middle of a capture. *)
Lemma process_line_valuable app_name line captured st :
  plain line ->
  in_error_block st !! app_name = Some false ->
  is_target_log_line line = true ->
  is_json_start_line line = false ->
  is_valuable_content line = true ->
  process_line app_name line captured st
  = (st, Ok (captured ++ [_clean_content_tags (extract_node_content line)])).
Proof.
  intros Hp He Ht Hs Hv. rewrite (process_line_plain _ _ _ _ Hp He).
  now rewrite Ht, Hs, Hv.
Qed.

Lemma process_line_continue app_name line captured st buffer :
  plain line ->
  in_error_block st !! app_name = Some false ->
  not_published line ->
  capturing_json st !! app_name = Some true ->
  json_buffer st !! app_name = Some buffer ->
  is_end_marker line = false ->
  process_line app_name line captured st
  = (set_json_buffer (<[app_name := buffer ++ [line]]>) st, Ok captured).
Proof.
  intros Hp He [Hs Hv] Hc Hb Hend. rewrite (process_line_plain _ _ _ _ Hp He).
  rewrite Hs, Hv. rewrite (bind_read_key capturing_json _ _ _ _ Hc).
  rewrite (bind_read_key json_buffer _ _ _ _ Hb). rewrite bind_modify.
  now rewrite Hend.
Qed.

Lemma process_line_end app_name line captured st buffer :
  plain line ->
  in_error_block st !! app_name = Some false ->
  not_published line ->
  capturing_json st !! app_name = Some true ->
  json_buffer st !! app_name = Some buffer ->
  is_end_marker line = true ->
  process_line app_name line captured st
  = match record_json_content (extract_json_content (buffer ++ [line])) captured
            (set_json_buffer (<[app_name := buffer ++ [line]]>) st) with
    | (st', Ok captured') => (end_capture app_name st', Ok captured')
    | (st', Raise e) => (st', Raise e)
    end.
Proof.
  intros Hp He [Hs Hv] Hc Hb Hend. rewrite (process_line_plain _ _ _ _ Hp He).
  rewrite Hs, Hv. rewrite (bind_read_key capturing_json _ _ _ _ Hc).
  rewrite (bind_read_key json_buffer _ _ _ _ Hb). rewrite bind_modify.
  rewrite Hend.
  erewrite (bind_read_key json_buffer); [|simpl; apply lookup_insert_eq].
  unfold bind at 1.
  destruct (record_json_content _ _ _) as [st' [c|e]]; reflexivity.
Qed.

(** The text handed to the parser when the start line does not hold the
    whole object. *)
Lemma extract_json_content_multi (first_line : str) (following : list str) (pos : nat) :
  contains (lit "Cleaned output: {") first_line = true ->
  find (lit "Cleaned output: {") first_line = Some pos ->
  let json_part := drop (pos + length (lit "Cleaned output: ")) first_line in
  endswith (lit "}") (strip json_part)
    && Nat.eqb (count 123 json_part) (count 125 json_part) = false ->
  extract_json_content (first_line :: following)
  = parse_or_repair
      (strip (fold_left (fun acc line => acc ++ strip_log_prefix line) following json_part)).
Proof.
  intros Hc Hf json_part Hone. unfold Monitor.extract_json_content.
  simpl from_start_line. rewrite Hc, Hf. fold json_part. now rewrite Hone.
Qed.

(** C2, at the failing input.  The three lines of a summary printed over
    several lines, each with the prefix of the engine log, do not yield
    one item: the field line is a target line with enough text and is
    published on its own instead of being buffered, and the object that
    is parsed at the end marker is the empty one. *)
Theorem reassembly_diverted :
  json_loads (lit "{}") = Some (JObj []) ->
  (process_lines_for_json reassembly_lines "insight" new_monitor).2
  = Ok [ reassembly_field_body;
         _clean_content_tags (lit "Cleaned output: " ++ json_dumps (JObj [])) ].
Proof.
  intros Hloads.
  unfold Monitor.process_lines_for_json, reassembly_lines. rewrite bind_modify.
  set (st0 := init_capture_state "insight" new_monitor).
  assert (He0 : in_error_block st0 !! "insight"%string = Some false) by reflexivity.
  simpl Monitor.process_loop.
  unfold bind at 1.
  rewrite (process_line_start "insight" reassembly_start [] st0);
    [| split; vm_compute; reflexivity | exact He0 | vm_compute; reflexivity ..].
  unfold bind at 1.
  rewrite (process_line_valuable "insight" reassembly_field [] _);
    [| split; vm_compute; reflexivity | reflexivity | vm_compute; reflexivity ..].
  unfold bind at 1.
  rewrite (process_line_end "insight" reassembly_end _ _ [reassembly_start]);
    [| split; vm_compute; reflexivity | reflexivity | split; vm_compute; reflexivity
     | reflexivity | reflexivity | vm_compute; reflexivity ].
  change ([reassembly_start] ++ [reassembly_end]) with [reassembly_start; reassembly_end].
  erewrite (extract_json_content_multi reassembly_start [reassembly_end]);
    [| vm_compute; reflexivity | vm_compute; reflexivity | vm_compute; reflexivity ].
  replace (strip _) with (lit "{}") by (vm_compute; reflexivity).
  unfold Monitor.parse_or_repair. rewrite Hloads.
  unfold format_json_content. simpl dict_get. cbv iota.
  unfold record_json_content. simpl truthy. cbv iota.
  replace (_clean_content_tags (extract_node_content reassembly_field))
    with reassembly_field_body by (vm_compute; reflexivity).
  reflexivity.
Qed.

Lemma set_json_buffer_twice app_name (b1 b2 : list str) st :
  set_json_buffer (<[app_name := b2]>) (set_json_buffer (<[app_name := b1]>) st)
  = set_json_buffer (<[app_name := b2]>) st.
Proof.
  destruct st; unfold set_json_buffer; simpl. f_equal. apply insert_insert_eq.
Qed.

Lemma set_json_buffer_id app_name (b : list str) st :
  json_buffer st !! app_name = Some b -> set_json_buffer (<[app_name := b]>) st = st.
Proof.
  intros H. destruct st; unfold set_json_buffer; simpl in *. f_equal. now apply insert_id.
Qed.

Lemma process_loop_buffers app_name (mid : list str) captured st buffer :
  in_error_block st !! app_name = Some false ->
  capturing_json st !! app_name = Some true ->
  json_buffer st !! app_name = Some buffer ->
  Forall continuation mid ->
  process_loop app_name mid captured st
  = (set_json_buffer (<[app_name := buffer ++ mid]>) st, Ok captured).
Proof.
  intros He Hc Hb Hmid. revert st buffer He Hc Hb.
  induction Hmid as [|line mid (Hp & Hnp & Hend) _ IH]; intros st buffer He Hc Hb.
  - simpl. rewrite app_nil_r, (set_json_buffer_id _ _ _ Hb). reflexivity.
  - simpl. unfold bind.
    rewrite (process_line_continue _ _ _ _ buffer Hp He Hnp Hc Hb Hend).
    rewrite (IH _ (buffer ++ [line])); simpl; rewrite ?lookup_insert_eq; auto.
    rewrite set_json_buffer_twice, <- app_assoc. reflexivity.
Qed.

(** When no continuation line is published on its own, the lines from
    the start line to the end marker are parsed as one object. *)
Lemma multi_line_reassembly app_name (start_line end_line : str) (mid : list str)
    captured st :
  plain start_line ->
  in_error_block st !! app_name = Some false ->
  is_target_log_line start_line = true ->
  is_json_start_line start_line = true ->
  endswith (lit "}") (strip start_line) = false ->
  Forall continuation mid ->
  plain end_line -> not_published end_line -> is_end_marker end_line = true ->
  process_loop app_name (start_line :: mid ++ [end_line]) captured st
  = match record_json_content
            (extract_json_content (start_line :: mid ++ [end_line])) captured
            (set_json_buffer (<[app_name := start_line :: mid ++ [end_line]]>)
               (start_capture app_name start_line st)) with
    | (st', Ok captured') => (end_capture app_name st', Ok captured')
    | (st', Raise e) => (st', Raise e)
    end.
Proof.
  intros Hp He Ht Hs Hone Hmid Hpe Hnpe Hend.
  cbn [Monitor.process_loop]. unfold bind at 1.
  rewrite (process_line_start _ _ _ _ Hp He Ht Hs Hone).
  rewrite process_loop_app.
  set (st1 := start_capture app_name start_line st).
  assert (He1 : in_error_block st1 !! app_name = Some false) by exact He.
  assert (Hc1 : capturing_json st1 !! app_name = Some true)
    by (unfold st1, start_capture; simpl; apply lookup_insert_eq).
  assert (Hb1 : json_buffer st1 !! app_name = Some [start_line])
    by (unfold st1, start_capture; simpl; apply lookup_insert_eq).
  rewrite (process_loop_buffers _ _ _ _ _ He1 Hc1 Hb1 Hmid).
  cbn [Monitor.process_loop]. unfold bind at 1.
  erewrite (process_line_end _ _ _ _ ([start_line] ++ mid) Hpe);
    [| exact He1 | exact Hnpe | exact Hc1 | simpl; apply lookup_insert_eq | exact Hend].
  rewrite set_json_buffer_twice. cbn [app].
  destruct (record_json_content _ _ _) as [st' [c|e]]; reflexivity.
Qed.

(** What is recorded for the result of the parser: nothing when parsing
    and repair failed, at most one item otherwise. *)
Lemma record_json_content_items (content : option json) captured st :
  match record_json_content content captured st with
  | (st', Ok captured') =>
      st' = st
      /\ match content with
         | None => captured' = captured
         | Some v => captured' = captured \/ exists item, captured' = captured ++ [item]
         end
  | (st', Raise e) => st' = st /\ e = TypeError /\ exists v, content = Some v
  end.
Proof.
  unfold record_json_content, ret, raise. destruct content as [v|]; [|auto].
  destruct (truthy v); [|auto]. destruct v; eauto.
Qed.

(** C10, as amended.  When the first [json.loads] raises nothing but a
    [JSONDecodeError], [fix_json_string] returns [None] or a text that
    [json.loads] accepts: the input itself when it already parses, and
    otherwise the repaired text, which is returned only if it parses.
    Any other exception of the first [json.loads] leaves the method. *)
Theorem fix_json_string_parses (json_text : str) :
  match fix_json_string json_loads json_loads_other_error json_text with
  | FixReturns None =>
      json_loads json_text = None
      /\ json_loads_other_error json_text = false
      /\ json_loads (fix_scan json_text false false) = None
  | FixReturns (Some fixed) =>
      is_Some (json_loads fixed)
      /\ (fixed = json_text
          \/ (json_loads json_text = None
              /\ json_loads_other_error json_text = false
              /\ fixed = fix_scan json_text false false))
  | FixRaises =>
      json_loads json_text = None /\ json_loads_other_error json_text = true
  end
  /\ (json_loads json_text = None
      \/ fix_json_string json_loads json_loads_other_error json_text
         = FixReturns (Some json_text))
  /\ ((json_loads json_text = None /\ json_loads_other_error json_text = true)
      \/ exists r, fix_json_string json_loads json_loads_other_error json_text
                   = FixReturns r).
Proof.
  unfold fix_json_string.
  destruct (json_loads json_text) as [v|] eqn:E1.
  - split; [|split; [right; reflexivity | right; eauto]].
    split; [rewrite E1; eauto | now left].
  - destruct (json_loads_other_error json_text) eqn:E0.
    + split; [split; reflexivity|]. split; [now left | now left].
    + destruct (json_loads (fix_scan json_text false false)) as [v|] eqn:E2.
      * split; [|split; [now left | right; eauto]].
        split; [rewrite E2; eauto | right; auto].
      * split; [|split; [now left | right; eauto]]. auto.
Qed.

End WithJson.


Lemma reassembly_diverted_witness :
  (process_lines_for_json sample_json_loads sample_loads_other_error sample_json_dumps reassembly_lines
     "insight" new_monitor).2
  = Ok [ reassembly_field_body; lit "Cleaned output: {}" ].
Proof.
  exact (reassembly_diverted sample_json_loads sample_loads_other_error sample_json_dumps eq_refl).
Defined.

(** With the supervisor's time stamp in front of the continuation lines
    the summary is reassembled and published once; the line feed of the
    value is folded into a space by the clean-up. *)
Example stamped_lines_reassembled :
  snd (process_lines_for_json sample_json_loads sample_loads_other_error sample_json_dumps stamped_lines
         "insight" new_monitor)
  = Ok [ lit "alpha beta" ].
Proof. vm_compute. reflexivity. Qed.

(** The repair at work: quotes inside a value are escaped, and the
    result parses. *)
Example fix_json_string_repairs :
  sample_json_loads unescaped_quotes = None
  /\ fix_json_string sample_json_loads sample_loads_other_error unescaped_quotes
     = FixReturns (Some (fix_scan unescaped_quotes false false))
  /\ is_Some (sample_json_loads (fix_scan unescaped_quotes false false)).
Proof. vm_compute. eauto. Qed.

(** C10, counterexample.  On a text of a hundred thousand opening
    brackets the first [json.loads] raises a [RecursionError], which no
    handler of [fix_json_string] catches: the method neither returns
    [None] nor a text that parses. *)
Lemma fix_json_string_raises_on_deep_nesting :
  sample_loads_other_error deeply_nested = true
  /\ fix_json_string sample_json_loads sample_loads_other_error deeply_nested = FixRaises
  /\ ~ exists r, fix_json_string sample_json_loads sample_loads_other_error deeply_nested
                 = FixReturns r.
Proof.
  assert (H : fix_json_string sample_json_loads sample_loads_other_error deeply_nested
              = FixRaises) by (vm_compute; reflexivity).
  split; [vm_compute; reflexivity|]. split; [exact H|].
  intros [r Hr]. rewrite H in Hr. discriminate Hr.
Qed.

End MonitorFacts.

(** ** The forum log, truncated engine logs and the host *)

Module ForumFacts.
Import Py Re Json Monitor PyFacts MonitorFacts Samples.

Lemma replace_not_In (c : char) (new s : str) :
  ~ In c new -> ~ In c (replace c new s).
Proof.
  intros Hnew. unfold replace. rewrite in_flat_map. intros (x & _ & Hin).
  destruct (x =? c) eqn:E; [now apply Hnew|].
  destruct Hin as [->|[]]. now rewrite N.eqb_refl in E.
Qed.

Lemma replace_keeps_out (c d : char) (new s : str) :
  ~ In d new -> ~ In d s -> ~ In d (replace c new s).
Proof.
  intros Hnew Hs. unfold replace. rewrite in_flat_map. intros (x & Hx & Hin).
  destruct (x =? c); [now apply Hnew|].
  destruct Hin as [->|[]]. now apply Hs.
Qed.

(** No line feed and no carriage return is left in the escaped content. *)
Lemma one_line_no_newline (content : str) :
  ~ In LF (one_line content) /\ ~ In CR (one_line content).
Proof.
  unfold one_line. split.
  - apply replace_keeps_out.
    + simpl. intros [H|[H|[]]]; discriminate H.
    + apply replace_not_In. simpl. intros [H|[H|[]]]; discriminate H.
  - apply replace_not_In. simpl. intros [H|[H|[]]]; discriminate H.
Qed.

Lemma isdecimal_digit (n : nat) : isdecimal (digit n) = true.
Proof.
  unfold isdecimal, digit. simpl existsb. apply orb_true_iff. left.
  assert (n mod 10 < 10)%nat by (apply Nat.mod_upper_bound; lia).
  apply andb_true_iff. split; apply N.leb_le; lia.
Qed.

Lemma digit_no_newline (n : nat) : digit n <> LF /\ digit n <> CR.
Proof. unfold digit, LF, CR. split; lia. Qed.

Lemma star_greedy_is_Some (p : char -> bool) (k : mst -> option mst)
    (a b : str) (i : nat) (cap : option str) :
  Forall (fun c => p c = true) a ->
  is_Some (k (MSt (i + length a) b cap)) ->
  is_Some (star_greedy p k i (a ++ b) cap).
Proof.
  intros Ha. revert i. induction Ha as [|c a Hc _ IH]; intros i Hk; simpl.
  - rewrite Nat.add_0_r in Hk.
    destruct b as [|c b]; simpl; [exact Hk|].
    destruct (p c); [|exact Hk].
    destruct (star_greedy p k (S i) b cap); simpl; [eauto | exact Hk].
  - rewrite Hc.
    assert (H' : is_Some (star_greedy p k (S i) (a ++ b) cap)).
    { apply IH. simpl in Hk. now rewrite Nat.add_succ_r in Hk. }
    destruct H' as [m ->]. simpl. eauto.
Qed.

Section Truncation.

Variable decode_text : list N -> option str.

(** When the log file is shorter than the recorded read offset,
    [read_new_lines] sets the offset it reads from to 0 and clears
    [capturing_json], [json_buffer] and [in_error_block] of the engine: a
    file that is not empty is read from its first byte and its size
    becomes the recorded offset. *)
Lemma read_new_lines_truncated (data : list N) (app_name : string)
    (st : monitor) (last_position : Z) :
  file_positions st !! app_name = Some last_position ->
  (Z.of_nat (length data) < last_position)%Z ->
  let current_size := Z.of_nat (length data) in
  let r := read_new_lines decode_text (Some data) app_name st in
  detect_truncation current_size app_name st = (0%Z, reset_capture_state app_name st)
  /\ capturing_json r.2 !! app_name = Some false
  /\ json_buffer r.2 !! app_name = Some []
  /\ in_error_block r.2 !! app_name = Some false
  /\ r = match data, decode_text data with
         | _ :: _, Some text =>
             (nonblank_stripped (split_lines text),
              set_file_positions (<[app_name := current_size]>)
                (reset_capture_state app_name st))
         | _, _ => ([], reset_capture_state app_name st)
         end.
Proof.
  intros Hpos Hlt current_size r.
  assert (Hd : detect_truncation current_size app_name st
               = (0%Z, reset_capture_state app_name st)).
  { unfold detect_truncation. rewrite Hpos. simpl.
    destruct (Z.ltb_spec current_size last_position); [reflexivity|]. unfold current_size in *. lia. }
  assert (Hr : r = match data, decode_text data with
         | _ :: _, Some text =>
             (nonblank_stripped (split_lines text),
              set_file_positions (<[app_name := current_size]>)
                (reset_capture_state app_name st))
         | _, _ => ([], reset_capture_state app_name st)
         end).
  { unfold r, read_new_lines. fold current_size. rewrite Hd.
    destruct data as [|b data]; [reflexivity|].
    assert (Hgt : (current_size >? 0)%Z = true).
    { unfold current_size. simpl length. apply Z.gtb_lt. lia. }
    rewrite Hgt. simpl. destruct (decode_text (b :: data)); reflexivity. }
  split; [exact Hd|].
  rewrite Hr. destruct data as [|b data]; [|destruct (decode_text (b :: data))]; simpl;
    rewrite ?lookup_insert_eq; auto.
Qed.

End Truncation.


Section WithWorld.

Variable World : Type.
Variable datetime_now : World -> datetime * World.
Variable generate_host_speech : list str -> World -> option str * World.
Variable HOST_AVAILABLE : bool.

Abbreviation write_to_forum_log := (write_to_forum_log World datetime_now).
Abbreviation _trigger_host_speech :=
  (_trigger_host_speech World datetime_now generate_host_speech HOST_AVAILABLE).
Abbreviation publish_content :=
  (publish_content World datetime_now generate_host_speech HOST_AVAILABLE).
Abbreviation publish_all :=
  (publish_all World datetime_now generate_host_speech HOST_AVAILABLE).

Lemma length_take_5 (buffer : list str) :
  (5 <= length buffer)%nat -> length (take 5 buffer) = 5%nat.
Proof. intros H. rewrite length_take. lia. Qed.

(** What one trigger does when the host is there, idle, and five
    utterances are buffered. *)
Lemma trigger_fires (s : system World) :
  HOST_AVAILABLE = true ->
  is_host_generating (mon s) = false ->
  (5 <= length (agent_speeches_buffer (mon s)))%nat ->
  let buffer := agent_speeches_buffer (mon s) in
  let recent := take 5 buffer in
  let reply := generate_host_speech recent (world s) in
  let s' := _trigger_host_speech s in
  host_calls s' = host_calls s ++ [recent]
  /\ is_host_generating (mon s') = false
  /\ host_speech_threshold (mon s') = host_speech_threshold (mon s)
  /\ (if given reply.1
      then agent_speeches_buffer (mon s') = drop 5 buffer
           /\ forum_log_file s'
              = Some (default [] (forum_log_file s)
                        ++ forum_record (strftime_HMS (datetime_now reply.2).1)
                                        (default [] reply.1) (Some (lit "HOST")))
      else agent_speeches_buffer (mon s') = buffer
           /\ forum_log_file s' = forum_log_file s).
Proof.
  intros Hhost Hidle Hlen buffer recent reply s'.
  subst s' reply recent buffer.
  unfold Monitor._trigger_host_speech. rewrite Hhost, Hidle.
  cbn [negb orb with_mon mon world forum_log_file host_calls
       set_is_host_generating agent_speeches_buffer].
  rewrite (length_take_5 _ Hlen). cbn [Nat.ltb Nat.leb].
  destruct (generate_host_speech _ (world s)) as [speech w] eqn:Er.
  cbn [fst snd].
  destruct (given speech) eqn:Eg.
  - unfold Monitor.write_to_forum_log. simpl.
    destruct (datetime_now w) as [t w']. simpl. auto.
  - simpl. auto.
Qed.

Lemma publish_content_step (app_name : string) (content : str) (s : system World) (n : nat) :
  HOST_AVAILABLE = true ->
  host_always_answers World generate_host_speech ->
  waiting World n s ->
  let s' := publish_content app_name s content in
  if Nat.eqb n 4
  then waiting World 0 s'
       /\ exists speeches, host_calls s' = host_calls s ++ [speeches]
                            /\ length speeches = 5%nat
  else waiting World (S n) s' /\ host_calls s' = host_calls s.
Proof.
  intros Hhost Hans (Hth & Hidle & Hlen & Hn) s'. subst s'.
  unfold Monitor.publish_content, Monitor.write_to_forum_log.
  destruct (datetime_now (world s)) as [t1 w1].
  cbn [world mon forum_log_file host_calls].
  destruct (datetime_now w1) as [t2 w2].
  cbn [world mon forum_log_file host_calls agent_speeches_buffer
       set_agent_speeches_buffer host_speech_threshold is_host_generating].
  rewrite Hth, Hidle, length_app, Hlen. cbn [length negb].
  destruct (Nat.eqb_spec n 4) as [->|Hne].
  - change ((Z.of_nat (4 + 1) >=? 5)%Z && true) with true. cbv iota.
    match goal with
    | |- context [Monitor._trigger_host_speech _ _ _ _ ?sx] =>
        remember sx as sx' eqn:Esx
    end.
    assert (Hidle' : is_host_generating (mon sx') = false) by (subst sx'; exact Hidle).
    assert (Hlen' : length (agent_speeches_buffer (mon sx')) = 5%nat).
    { subst sx'. cbn [mon agent_speeches_buffer set_agent_speeches_buffer].
      rewrite length_app, Hlen. reflexivity. }
    assert (Hth0 : host_speech_threshold (mon sx') = 5%Z) by (subst sx'; exact Hth).
    assert (Hcalls0 : host_calls sx' = host_calls s) by (subst sx'; reflexivity).
    pose proof (trigger_fires sx' Hhost Hidle' ltac:(lia)) as Hfire.
    cbv zeta in Hfire.
    destruct Hfire as (Hcalls & Hidle'' & Hth' & Hrest).
    rewrite Hans in Hrest. destruct Hrest as [Hbuf _].
    split.
    + unfold waiting. split; [rewrite Hth'; exact Hth0|].
      split; [exact Hidle''|]. split; [|lia].
      rewrite Hbuf, length_drop, Hlen'. reflexivity.
    + eexists. split; [rewrite Hcalls, Hcalls0; reflexivity|].
      rewrite length_take, Hlen'. reflexivity.
  - assert (Hge : (Z.of_nat (n + 1) >=? 5)%Z = false).
    { rewrite Z.geb_leb. apply Z.leb_gt. lia. }
    rewrite Hge. cbn [andb mon host_calls agent_speeches_buffer set_agent_speeches_buffer
                       host_speech_threshold is_host_generating].
    split; [|reflexivity]. unfold waiting.
    cbn [andb mon host_calls agent_speeches_buffer set_agent_speeches_buffer
         host_speech_threshold is_host_generating].
    split; [exact Hth|]. split; [exact Hidle|]. split; [|lia].
    rewrite length_app, Hlen. simpl. lia.
Qed.

Lemma publish_all_counts (items : list (string * str)) (s : system World) (n : nat) :
  HOST_AVAILABLE = true ->
  host_always_answers World generate_host_speech ->
  waiting World n s ->
  let s' := publish_all items s in
  waiting World ((n + length items) mod 5) s'
  /\ exists calls, host_calls s' = host_calls s ++ calls
                    /\ length calls = ((n + length items) / 5)%nat
                    /\ Forall (fun speeches => length speeches = 5%nat) calls.
Proof.
  intros Hhost Hans. revert s n.
  induction items as [|[app_name content] items IH]; intros s n Hw;
    unfold Monitor.publish_all in *; cbn [fold_left length fst snd].
  - pose proof Hw as (_ & _ & _ & Hn).
    rewrite Nat.add_0_r, Nat.mod_small, Nat.div_small by lia.
    split; [exact Hw|]. exists []. rewrite app_nil_r. auto.
  - pose proof (publish_content_step app_name content s n Hhost Hans Hw) as Hstep.
    cbv zeta in Hstep.
    pose proof Hw as (_ & _ & _ & Hn).
    destruct (Nat.eqb_spec n 4) as [->|Hne].
    + destruct Hstep as [Hw' (speeches & Hcalls & Hfive)].
      destruct (IH _ _ Hw') as [Hw'' (calls & Hcalls' & Hlen & Hall)].
      replace ((4 + S (length items)) mod 5)%nat with ((0 + length items) mod 5)%nat.
      2:{ replace (4 + S (length items))%nat with (length items + 1 * 5)%nat by lia.
          now rewrite Nat.Div0.mod_add. }
      split; [exact Hw''|].
      exists (speeches :: calls). rewrite Hcalls', Hcalls, <- app_assoc. cbn [app].
      split; [reflexivity|]. split; [|constructor; assumption].
      cbn [length]. rewrite Hlen.
      replace (4 + S (length items))%nat with (length items + 1 * 5)%nat by lia.
      rewrite Nat.div_add by lia. simpl. lia.
    + destruct Hstep as [Hw' Hcalls].
      destruct (IH _ _ Hw') as [Hw'' (calls & Hcalls' & Hlen & Hall)].
      replace (n + S (length items))%nat with (S n + length items)%nat by lia.
      split; [exact Hw''|].
      exists calls. rewrite Hcalls', Hcalls. auto.
Qed.

(** C5.  The record that [write_to_forum_log] appends for a source tag
    is [[HH:MM:SS] [SOURCE] body] followed by the line feed: the body is
    the content with every line feed and carriage return replaced by the
    two characters backslash-n and backslash-r, so it holds neither, the
    record is one physical line, and it matches the grammar of the forum
    log. *)
Theorem forum_record_one_line (s : system World) (content source : str) :
  source <> [] ->
  Forall (fun c => upper_AZ c = true) source ->
  let t := fst (datetime_now (world s)) in
  let record := forum_record (strftime_HMS t) content (Some source) in
  forum_log_file (write_to_forum_log content (Some source) s)
  = Some (default [] (forum_log_file s) ++ record)
  /\ record = lit "[" ++ strftime_HMS t ++ lit "] [" ++ source ++ lit "] "
               ++ one_line content ++ [LF]
  /\ one_line content = replace CR [BACKSLASH; 114] (replace LF [BACKSLASH; 110] content)
  /\ ~ In LF (one_line content) /\ ~ In CR (one_line content)
  /\ (exists line, record = line ++ [LF] /\ ~ In LF line /\ ~ In CR line)
  /\ is_Some (re_match re_forum_line record).
Proof.
  intros Hne Hup t record.
  split.
  { unfold Monitor.write_to_forum_log. subst record t.
    destruct (datetime_now (world s)) as [t' w]. reflexivity. }
  assert (Hrec : record = lit "[" ++ strftime_HMS t ++ lit "] [" ++ source ++ lit "] "
             ++ one_line content ++ [LF]).
  { unfold record, forum_record, given. destruct source; [congruence|reflexivity]. }
  destruct (one_line_no_newline content) as [Hlf Hcr].
  split; [exact Hrec|]. split; [reflexivity|]. split; [exact Hlf|]. split; [exact Hcr|].
  split.
  - exists (lit "[" ++ strftime_HMS t ++ lit "] [" ++ source ++ lit "] " ++ one_line content).
    split.
    + rewrite Hrec. now rewrite <- !app_assoc.
    + assert (Hsrc : forall c, In c source -> c <> LF /\ c <> CR).
      { intros c Hin. rewrite Forall_forall in Hup. specialize (Hup c).
        rewrite <- list_elem_of_In in Hin. specialize (Hup Hin).
        unfold upper_AZ in Hup. apply andb_true_iff in Hup as [H1 H2].
        apply N.leb_le in H1, H2. unfold LF, CR. lia. }
      assert (Hts : forall c, In c (strftime_HMS t) -> c <> LF /\ c <> CR).
      { intros c. unfold strftime_HMS, two_digits. simpl.
        intros H. repeat destruct H as [<-|H]; try apply digit_no_newline;
          try (unfold LF, CR; split; discriminate). destruct H. }
      assert (Hlit : forall l : string, ~ In LF (lit l) -> ~ In CR (lit l) ->
                forall c, In c (lit l) -> c <> LF /\ c <> CR).
      { intros l H1 H2 c Hin. split; intros ->; tauto. }
      assert (Hall : forall c,
                In c (lit "[" ++ strftime_HMS t ++ lit "] [" ++ source ++ lit "] "
                        ++ one_line content) ->
                c <> LF /\ c <> CR).
      { intros c Hin.
        apply in_app_or in Hin as [Hin|Hin];
          [revert c Hin; apply Hlit; vm_compute; intuition discriminate|].
        apply in_app_or in Hin as [Hin|Hin]; [now apply Hts|].
        apply in_app_or in Hin as [Hin|Hin];
          [revert c Hin; apply Hlit; vm_compute; intuition discriminate|].
        apply in_app_or in Hin as [Hin|Hin]; [now apply Hsrc|].
        apply in_app_or in Hin as [Hin|Hin];
          [revert c Hin; apply Hlit; vm_compute; intuition discriminate|].
        split; intros ->; tauto. }
      split; intros Hin; apply Hall in Hin as [? ?]; congruence.
  - rewrite Hrec. unfold re_match, match_at, strftime_HMS, two_digits.
    cbn -[isdecimal upper_AZ star_greedy digit Nat.div].
    rewrite !isdecimal_digit.
    destruct source as [|c0 source]; [congruence|].
    apply Forall_cons in Hup as [Hc0 Hup].
    cbn -[isdecimal upper_AZ star_greedy digit Nat.div]. rewrite Hc0.
    apply star_greedy_is_Some; [exact Hup|].
    cbn -[isdecimal upper_AZ star_greedy digit Nat.div].
    apply star_greedy_is_Some.
    + apply Forall_forall. intros c Hin. unfold neqc. apply negb_true_iff, N.eqb_neq.
      intros ->. apply Hlf. now rewrite <- list_elem_of_In.
    + cbn. eauto.
Qed.


End WithWorld.

Section Poll.

Variable json_loads : str -> option json.
Variable json_loads_other_error : str -> bool.
Variable json_dumps : json -> str.
Variable decode_text : list N -> option str.
Variable World : Type.
Variable datetime_now : World -> datetime * World.
Variable generate_host_speech : list str -> World -> option str * World.
Variable HOST_AVAILABLE : bool.

Abbreviation read_new_lines := (read_new_lines decode_text).
Abbreviation get_file_line_count := (get_file_line_count decode_text).
Abbreviation process_line := (process_line json_loads json_loads_other_error json_dumps).
Abbreviation process_loop := (process_loop json_loads json_loads_other_error json_dumps).
Abbreviation process_lines_for_json :=
  (process_lines_for_json json_loads json_loads_other_error json_dumps).
Abbreviation monitor_engine :=
  (monitor_engine json_loads json_loads_other_error json_dumps decode_text World datetime_now
     generate_host_speech HOST_AVAILABLE).
Abbreviation publish_content :=
  (publish_content World datetime_now generate_host_speech HOST_AVAILABLE).
Abbreviation publish_contents :=
  (publish_contents World datetime_now generate_host_speech HOST_AVAILABLE).
Abbreviation _trigger_host_speech :=
  (_trigger_host_speech World datetime_now generate_host_speech HOST_AVAILABLE).
Abbreviation with_mon := (with_mon World).

Lemma process_line_positions app_name line captured st :
  file_positions (process_line app_name line captured st).1 = file_positions st.
Proof.
  unfold Monitor.process_line.
  destruct (negb (nonempty (strip line))); [reflexivity|].
  unfold bind, modify, stop_capturing, read_key, bind, modify, ret.
  destruct (level_is "ERROR" (get_log_level line)).
  { simpl. destruct (capturing_json st !! app_name) as [[]|]; reflexivity. }
  destruct (level_is "INFO" (get_log_level line)); simpl.
  all: repeat match goal with
       | |- context [record_json_content ?c ?cap ?s] =>
           let H := fresh in
           pose proof (record_json_content_state c cap s) as H;
           destruct (record_json_content c cap s) as [? [?|?]]; simpl in H; subst; simpl
       | |- context [if ?b then _ else _] => destruct b; simpl
       | |- context [match ?m !! ?k with _ => _ end] => destruct (m !! k) eqn:?; simpl
       end; reflexivity.
Qed.

Lemma process_loop_positions app_name lines captured st :
  file_positions (process_loop app_name lines captured st).1 = file_positions st.
Proof.
  revert captured st. induction lines as [|line lines IH]; intros captured st; simpl.
  - reflexivity.
  - unfold bind. pose proof (process_line_positions app_name line captured st) as H.
    destruct (process_line app_name line captured st) as [st1 [out|e]]; simpl in *.
    + now rewrite IH.
    + exact H.
Qed.

Lemma process_lines_for_json_positions lines app_name st :
  file_positions (process_lines_for_json lines app_name st).1 = file_positions st.
Proof.
  unfold Monitor.process_lines_for_json, bind, modify. simpl.
  rewrite process_loop_positions. unfold init_capture_state.
  destruct (capturing_json st !! app_name); simpl;
    destruct (in_error_block _ !! app_name); reflexivity.
Qed.

Lemma trigger_positions (s : system World) :
  file_positions (mon (_trigger_host_speech s)) = file_positions (mon s).
Proof.
  unfold Monitor._trigger_host_speech.
  destruct (negb HOST_AVAILABLE || is_host_generating (mon s)); [reflexivity|].
  cbn [with_mon mon]. destruct (length _ <? 5)%nat; [reflexivity|].
  cbn [world]. destruct (generate_host_speech _ _) as [speech w].
  destruct (given speech); [|reflexivity].
  unfold Monitor.write_to_forum_log. cbn [world].
  destruct (datetime_now w) as [t w']. reflexivity.
Qed.

Lemma publish_content_positions app_name (s : system World) content :
  file_positions (mon (publish_content app_name s content)) = file_positions (mon s).
Proof.
  unfold Monitor.publish_content, Monitor.write_to_forum_log.
  destruct (datetime_now (world s)) as [t1 w1]. cbn [world mon].
  destruct (datetime_now w1) as [t2 w2].
  match goal with |- context [if ?b then _ else _] => destruct b end;
    [rewrite trigger_positions|]; reflexivity.
Qed.

Lemma publish_contents_positions app_name contents (s : system World) :
  file_positions (mon (publish_contents app_name contents s)) = file_positions (mon s).
Proof.
  unfold Monitor.publish_contents. revert s.
  induction contents as [|c contents IH]; intros s; simpl; [reflexivity|].
  now rewrite IH, publish_content_positions.
Qed.

Lemma clear_forum_log_positions (s : system World) :
  file_positions (mon (clear_forum_log World datetime_now s)) = file_positions (mon s).
Proof.
  unfold clear_forum_log, Monitor.write_to_forum_log.
  destruct (datetime_now (world s)) as [t w]. cbn [world].
  destruct (datetime_now w) as [t' w']. reflexivity.
Qed.

(** A read at the end of the file finds nothing. *)
Lemma read_new_lines_at_end (data : list N) app_name st :
  file_positions st !! app_name = Some (Z.of_nat (length data)) ->
  read_new_lines (Some data) app_name st = ([], st).
Proof.
  intros Hpos. unfold Monitor.read_new_lines, detect_truncation. rewrite Hpos. simpl.
  rewrite Z.ltb_irrefl.
  replace (Z.of_nat (length data) >? Z.of_nat (length data))%Z with false; [reflexivity|].
  symmetry. rewrite Z.gtb_ltb. apply Z.ltb_irrefl.
Qed.

(** C4, as amended.  When [read_new_lines] is called on a log file that
    is shorter than the recorded read offset, it reads from offset 0 and
    clears [capturing_json], [json_buffer] and [in_error_block] of the
    engine: a file that is not empty is read from its first byte and its
    size becomes the recorded offset.  The poll of [monitor_logs] calls
    it only when the file has more lines than at the last poll, and the
    offset it leaves is the one of that read.  When the file has fewer
    lines, the poll sets the offset to the size of the file and clears
    the capture state, so that what the file then holds is not read;
    when it has as many lines, the poll resets nothing. *)
Theorem truncation_handling (data : list N) (app_name : string) (s : system World)
    (last_position : Z) :
  file_positions (mon s) !! app_name = Some last_position ->
  (Z.of_nat (length data) < last_position)%Z ->
  let current_size := Z.of_nat (length data) in
  let current_lines := get_file_line_count (Some data) in
  let previous_lines := default 0%Z (file_line_counts (mon s) !! app_name) in
  let r := read_new_lines (Some data) app_name (mon s) in
  let polled := monitor_engine app_name (Some data) s in
  (detect_truncation current_size app_name (mon s)
   = (0%Z, reset_capture_state app_name (mon s))
   /\ capturing_json r.2 !! app_name = Some false
   /\ json_buffer r.2 !! app_name = Some []
   /\ in_error_block r.2 !! app_name = Some false
   /\ r = match data, decode_text data with
          | _ :: _, Some text =>
              (nonblank_stripped (split_lines text),
               set_file_positions (<[app_name := current_size]>)
                 (reset_capture_state app_name (mon s)))
          | _, _ => ([], reset_capture_state app_name (mon s))
          end)
  /\ ((current_lines > previous_lines)%Z ->
      file_positions (mon polled.1) = file_positions r.2
      /\ (is_searching (mon s) = false -> opens_session r.1 = false ->
          polled = (with_mon (fun _ => set_file_line_counts (<[app_name := current_lines]>) r.2) s,
                    Ok tt)))
  /\ ((current_lines < previous_lines)%Z ->
      polled
      = (with_mon (set_file_line_counts (<[app_name := current_lines]>))
           (with_mon (reset_capture_state app_name)
              (with_mon (set_file_positions (<[app_name := current_size]>)) s)),
         Ok tt)
      /\ file_positions (mon polled.1) !! app_name = Some current_size
      /\ capturing_json (mon polled.1) !! app_name = Some false
      /\ json_buffer (mon polled.1) !! app_name = Some []
      /\ in_error_block (mon polled.1) !! app_name = Some false
      /\ read_new_lines (Some data) app_name (mon polled.1) = ([], mon polled.1))
  /\ (current_lines = previous_lines ->
      polled = (with_mon (set_file_line_counts (<[app_name := current_lines]>)) s, Ok tt)
      /\ file_positions (mon polled.1) !! app_name = Some last_position
      /\ capturing_json (mon polled.1) = capturing_json (mon s)
      /\ json_buffer (mon polled.1) = json_buffer (mon s)
      /\ in_error_block (mon polled.1) = in_error_block (mon s)).
Proof.
  intros Hpos Hlt current_size current_lines previous_lines r polled.
  split; [exact (read_new_lines_truncated decode_text data app_name (mon s) last_position
                   Hpos Hlt)|].
  split; [|split].
  - intros Hgrow. subst polled. unfold Monitor.monitor_engine.
    fold current_lines. fold previous_lines.
    replace (current_lines >? previous_lines)%Z with true
      by (symmetry; apply Z.gtb_lt; lia).
    fold r. destruct r as [new_lines st] eqn:Er. cbn [fst snd].
    split.
    + assert (Hafter : forall s1 : system World,
                file_positions (mon s1) = file_positions st ->
                file_positions
                  (mon (if is_searching (mon s1)
                        then match process_lines_for_json new_lines app_name (mon s1) with
                             | (st', Ok captured_contents) =>
                                 (with_mon (set_file_line_counts (<[app_name := current_lines]>))
                                    (publish_contents app_name captured_contents
                                       (with_mon (fun _ => st') s1)), Ok tt)
                             | (st', Raise e) => (with_mon (fun _ => st') s1, Raise e)
                             end
                        else (with_mon (set_file_line_counts (<[app_name := current_lines]>)) s1,
                              Ok tt)).1)
                = file_positions st).
      { intros s1 H1. destruct (is_searching (mon s1)); [|exact H1].
        pose proof (process_lines_for_json_positions new_lines app_name (mon s1)) as Hp.
        destruct (process_lines_for_json new_lines app_name (mon s1)) as [st' [out|e]];
          cbn [fst snd] in *.
        - unfold Monitor.with_mon at 1. cbn [mon set_file_line_counts file_positions].
          rewrite publish_contents_positions. cbn [Monitor.with_mon mon]. congruence.
        - cbn [Monitor.with_mon mon]. congruence. }
      apply Hafter.
      destruct (negb (is_searching (mon (with_mon (fun _ => st) s))) && opens_session new_lines).
      * now rewrite clear_forum_log_positions.
      * reflexivity.
    + intros Hs Ho.
      assert (Hst : is_searching st = false).
      { assert (H : st = (read_new_lines (Some data) app_name (mon s)).2)
          by (fold r; now rewrite Er).
        rewrite H. unfold Monitor.read_new_lines, detect_truncation. rewrite Hpos. simpl.
        replace (Z.of_nat (length data) <? last_position)%Z with true
          by (symmetry; apply Z.ltb_lt; lia).
        destruct (_ >? 0)%Z; [|exact Hs]. simpl.
        destruct (decode_text _); exact Hs. }
      cbn [Monitor.with_mon mon]. rewrite Hst, Ho. cbn [negb andb Monitor.with_mon mon].
      rewrite Hst. reflexivity.
  - intros Hshrink. subst polled. unfold Monitor.monitor_engine.
    fold current_lines. fold previous_lines.
    replace (current_lines >? previous_lines)%Z with false
      by (symmetry; rewrite Z.gtb_ltb; apply Z.ltb_ge; lia).
    replace (current_lines <? previous_lines)%Z with true
      by (symmetry; apply Z.ltb_lt; lia).
    cbn [get_file_size fst snd Monitor.with_mon mon]. fold current_size.
    split; [reflexivity|].
    assert (Hp : file_positions
                   (set_file_line_counts (<[app_name := current_lines]>)
                      (reset_capture_state app_name
                         (set_file_positions (<[app_name := current_size]>) (mon s))))
                 !! app_name = Some current_size) by (simpl; apply lookup_insert_eq).
    split; [exact Hp|]. repeat (split; [simpl; apply lookup_insert_eq|]).
    now apply read_new_lines_at_end.
  - intros Heq. subst polled. unfold Monitor.monitor_engine.
    fold current_lines. fold previous_lines. rewrite Heq.
    replace (previous_lines >? previous_lines)%Z with false
      by (symmetry; rewrite Z.gtb_ltb; apply Z.ltb_irrefl).
    rewrite Z.ltb_irrefl. cbn [fst snd Monitor.with_mon mon].
    split; [reflexivity|]. split; [exact Hpos|]. auto.
Qed.

End Poll.


Lemma truncation_handling_witness :
  read_new_lines sample_decode (Some sample_log) "query" (mon (monitor_at_line 500))
  = ([lit "first line"; lit "second line"],
     set_file_positions (<["query"%string := 23%Z]>)
       (reset_capture_state "query" (mon (monitor_at_line 500)))).
Proof.
  refine (proj2 (proj2 (proj2 (proj2 (proj1
    (truncation_handling sample_json_loads sample_loads_other_error sample_json_dumps
       sample_decode unit sample_now sample_host true sample_log "query"
       (monitor_at_line 500) 10000%Z _ _)))))).
  - reflexivity.
  - reflexivity.
Defined.

(** C4, counterexample.  The log of the query engine was read up to byte
    10000 and line 500 and now holds two lines in 23 bytes: it is shorter
    than the recorded offset.  The poll sets the offset to 23, not to 0:
    a read of the file then returns nothing, and after a third line is
    appended the next read returns that line only, not the file from its
    beginning.  When the file still has as many lines as recorded, the
    poll leaves offset and capture state as they were. *)
Lemma shrunk_log_is_skipped :
  let polled := sample_poll (Some sample_log) (monitor_at_line 500) in
  let grown := sample_log ++ lit "third line" ++ [LF] in
  let same := with_mon unit (set_in_error_block (<["query"%string := true]>))
                (monitor_at_line 2) in
  (Z.of_nat (length sample_log) < 10000)%Z
  /\ file_positions (mon (monitor_at_line 500)) !! "query"%string = Some 10000%Z
  /\ polled.2 = Ok tt
  /\ file_positions (mon polled.1) !! "query"%string = Some 23%Z
  /\ file_positions (mon polled.1) !! "query"%string <> Some 0%Z
  /\ read_new_lines sample_decode (Some sample_log) "query" (mon polled.1)
     = ([], mon polled.1)
  /\ (read_new_lines sample_decode (Some grown) "query" (mon polled.1)).1
     = [lit "third line"]
  /\ file_positions (mon (sample_poll (Some sample_log) same).1) !! "query"%string
     = Some 10000%Z
  /\ in_error_block (mon (sample_poll (Some sample_log) same).1) !! "query"%string
     = Some true.
Proof.
  cbv zeta.
  assert (Hp : file_positions (mon (sample_poll (Some sample_log) (monitor_at_line 500)).1)
               !! "query"%string = Some 23%Z) by (vm_compute; reflexivity).
  split; [reflexivity|]. split; [reflexivity|]. split; [reflexivity|].
  split; [exact Hp|]. split; [rewrite Hp; discriminate|].
  split; [apply (read_new_lines_at_end sample_decode sample_log); exact Hp|].
  repeat split; vm_compute; reflexivity.
Qed.

Lemma forum_record_one_line_witness :
  forum_log_file
    (write_to_forum_log unit sample_now (lit "two" ++ [LF] ++ lit "lines")
       (Some (upper "insight")) (sample_system []))
  = Some (lit "[09:05:07] [INSIGHT] two\nlines" ++ [LF]).
Proof.
  refine (proj1 (forum_record_one_line unit sample_now (sample_system [])
                   (lit "two" ++ [LF] ++ lit "lines") (upper "insight") _ _)).
  - discriminate.
  - repeat constructor.
Defined.



(** The tags the monitor writes are source tags of the grammar. *)
Example source_tags_upper_case :
  Forall (fun tag => Forall (fun c => upper_AZ c = true) tag)
    [ lit "SYSTEM"; lit "HOST"; upper "insight"; upper "media"; upper "query" ].
Proof. repeat constructor. Qed.

End ForumFacts.

(** ** The readiness gate *)

Module ReportFacts.
Import Py Report Samples.

Section Readiness.

Variable fs : filesystem.
Variable baseline_data : gmap string Z.

Lemma check_engine_ready acc engine directory acc' :
  check_engine fs baseline_data acc engine directory = Some acc' ->
  (all_have_new acc' = true <-> all_have_new acc = true /\ has_new_files fs baseline_data engine directory)
  /\ current_counts acc' = <[engine := md_count fs directory]> (current_counts acc).
Proof.
  unfold check_engine, has_new_files, md_count.
  destruct (fs directory) as [[entries|]|] eqn:E; [| discriminate |].
  - destruct (Z.gtb_spec (Z.of_nat (length (md_files entries)))
                (default 0%Z (baseline_data !! engine))) as [Hgt|Hle];
      intros [= <-]; simpl; (split; [|reflexivity]).
    + split; [intros H; split; [exact H|]; split; [eauto|lia] | tauto].
    + split; [discriminate | intros [_ [_ H]]; lia].
  - intros [= <-]; simpl. split; [|reflexivity].
    split; [discriminate | intros [_ [[entries H] _]]; discriminate].
Qed.

Lemma check_engines_ready directories acc acc' :
  check_engines fs baseline_data acc directories = Some acc' ->
  (all_have_new acc' = true
   <-> all_have_new acc = true
       /\ Forall (fun ed => has_new_files fs baseline_data ed.1 ed.2) directories).
Proof.
  revert acc. induction directories as [|[engine directory] rest IH]; intros acc; simpl.
  - intros [= <-]. split; [auto | tauto].
  - destruct (check_engine fs baseline_data acc engine directory) as [acc1|] eqn:E;
      [|discriminate].
    intros H. apply IH in H. apply check_engine_ready in E as [E _].
    rewrite H, E, Forall_cons. simpl. tauto.
Qed.

Lemma check_engines_keeps directories acc acc' engine (n : Z) :
  check_engines fs baseline_data acc directories = Some acc' ->
  ~ In engine (List.map fst directories) ->
  current_counts acc !! engine = Some n ->
  current_counts acc' !! engine = Some n.
Proof.
  revert acc. induction directories as [|[e d] rest IH]; intros acc; simpl.
  - now intros [= <-].
  - destruct (check_engine fs baseline_data acc e d) as [acc1|] eqn:E; [|discriminate].
    intros H Hnotin Hn. apply check_engine_ready in E as [_ E].
    eapply IH; [exact H | tauto |].
    rewrite E, lookup_insert_ne; [exact Hn | intros ->; tauto].
Qed.

Lemma check_engines_counts directories acc acc' engine directory :
  check_engines fs baseline_data acc directories = Some acc' ->
  NoDup (List.map fst directories) ->
  In (engine, directory) directories ->
  current_counts acc' !! engine = Some (md_count fs directory).
Proof.
  revert acc. induction directories as [|[e d] rest IH]; intros acc; simpl; [tauto|].
  destruct (check_engine fs baseline_data acc e d) as [acc1|] eqn:E; [|discriminate].
  intros H Hnd [Heq|Hin].
  - injection Heq as -> ->. apply NoDup_cons in Hnd as [Hnotin _].
    apply check_engine_ready in E as [_ E].
    eapply check_engines_keeps; [exact H | |].
    + rewrite <- list_elem_of_In. exact Hnotin.
    + rewrite E. apply lookup_insert_eq.
  - apply NoDup_cons in Hnd as [_ Hnd]. eapply IH; eauto.
Qed.

Lemma check_engines_total directories acc :
  Forall (fun ed => fs ed.2 <> Some NotDirectory) directories ->
  is_Some (check_engines fs baseline_data acc directories).
Proof.
  intros H. revert acc. induction H as [|[e d] rest Hd _ IH]; intros acc; simpl; [eauto|].
  assert (Hs : is_Some (check_engine fs baseline_data acc e d)).
  { unfold check_engine. simpl in Hd. destruct (fs d) as [[entries|]|]; [|congruence|eauto].
    destruct (_ >? _)%Z; eauto. }
  destruct Hs as [acc1 ->]. apply IH.
Qed.


End Readiness.

(** Baseline 3, 3, 3: two new media reports alone do not make the gate
    ready, one more report in each of the other directories does. *)
Example readiness_strict_increase :
  (ready <$> sample_check (sample_fs 3 5 3)) = Some false
  /\ (ready <$> sample_check (sample_fs 4 5 4)) = Some true
  /\ ((fun r => result_current_counts r !! "media"%string) <$> sample_check (sample_fs 3 5 3))
     = Some (Some 5%Z)
  /\ ((fun r => result_new_files_found r !! "media"%string) <$> sample_check (sample_fs 3 5 3))
     = Some (Some 2%Z)
  /\ ((fun r => result_new_files_found r !! "query"%string) <$> sample_check (sample_fs 3 5 3))
     = Some (Some 0%Z).
Proof. repeat split; vm_compute; reflexivity. Qed.


End ReportFacts.


(** ** The graceful retry envelope *)

Module RetryFacts.
Import Retry Samples.
Local Open Scope nat_scope.

Section Envelope.

Variables (Val Exn : Type).
Variable retry_on_exceptions : Exn -> bool.
Variable is_Exception : Exn -> bool.
Variable max_retries : Z.
Variable default_return : Val.
Variable func : nat -> outcome Val Exn.
Variable func_name_error : option Exn.
Variable str_error : Exn -> option Exn.
Variable default_text_error : option Exn.
Variable delay_error : nat -> option Exn.
Variable sleep_error : nat -> option Exn.

Abbreviation attempts :=
  (attempts Val Exn retry_on_exceptions is_Exception max_retries default_return func
     func_name_error str_error default_text_error delay_error sleep_error).
Abbreviation with_graceful_retry :=
  (with_graceful_retry Val Exn retry_on_exceptions is_Exception max_retries default_return func
     func_name_error str_error default_text_error delay_error sleep_error).
Abbreviation fails_retryably := (fails_retryably Val Exn retry_on_exceptions func).
Abbreviation own_code_completes :=
  (own_code_completes Val Exn max_retries func func_name_error str_error
     default_text_error delay_error sleep_error).
Abbreviation return_default :=
  (return_default Val Exn default_return func_name_error str_error default_text_error).
Abbreviation back_off :=
  (back_off Exn func_name_error str_error delay_error sleep_error).

Lemma return_default_completes (k : nat) (e : Exn) :
  own_code_completes -> func k = Raises e -> return_default e = Returns default_return.
Proof.
  intros (Hname & Hdefault & Hstr & _) He. unfold Retry.return_default.
  rewrite Hname, Hdefault, (Hstr _ _ He). reflexivity.
Qed.

Lemma back_off_completes (k : nat) (e : Exn) :
  own_code_completes -> func k = Raises e -> (Z.of_nat k < max_retries)%Z ->
  back_off k e = None.
Proof.
  intros (Hname & _ & Hstr & Hwait) He Hk. unfold Retry.back_off.
  destruct (Hwait k Hk) as [-> ->]. rewrite Hname, (Hstr _ _ He). reflexivity.
Qed.

Lemma attempts_skip (n remaining a : nat) :
  own_code_completes ->
  (forall j, (a <= j < a + n)%nat -> fails_retryably j) ->
  (Z.of_nat (a + n) <= max_retries)%Z ->
  (n <= remaining)%nat ->
  attempts remaining a = attempts (remaining - n) (a + n).
Proof.
  intros Hown. revert remaining a. induction n as [|n IH]; intros remaining a Hfail Hmax Hrem.
  - now rewrite Nat.sub_0_r, Nat.add_0_r.
  - destruct remaining as [|remaining]; [lia|].
    destruct (Hfail a ltac:(lia)) as (e & He & Hr).
    simpl Retry.attempts at 1. rewrite He, Hr.
    destruct (Z.eqb_spec (Z.of_nat a) max_retries) as [Heq|_]; [lia|].
    rewrite (back_off_completes a e Hown He) by lia.
    rewrite (IH remaining (S a)); [| intros j Hj; apply Hfail; lia | lia | lia].
    f_equal; lia.
Qed.

Lemma attempts_never_propagate (remaining a : nat) :
  own_code_completes ->
  (Z.of_nat a + Z.of_nat remaining <= max_retries + 1)%Z ->
  (forall k e, func k = Raises e -> retry_on_exceptions e = true \/ is_Exception e = true) ->
  exists v, result (attempts remaining a) = Returns v.
Proof.
  intros Hown Hbound Hexc. revert a Hbound.
  induction remaining as [|remaining IH]; intros a Hbound; simpl.
  - eauto.
  - pose proof Hown as (Hname & _).
    destruct (func a) as [v|e] eqn:E.
    + rewrite Hname. destruct (0 <? a); simpl; eauto.
    + destruct (retry_on_exceptions e) eqn:Hr.
      * destruct (Z.eqb_spec (Z.of_nat a) max_retries) as [Heq|Hne]; simpl.
        -- rewrite (return_default_completes a e Hown E). eauto.
        -- rewrite (back_off_completes a e Hown E) by lia. apply IH. lia.
      * destruct (Hexc _ _ E) as [H|H]; [congruence|]. rewrite H. simpl.
        rewrite (return_default_completes a e Hown E). eauto.
Qed.

(** C9, as amended.  As long as the wrapper's own handler code raises
    nothing (the delay computation, the log messages with the name of
    the function, the error and the default, and the sleep), the wrapper
    built by [with_graceful_retry] never propagates an error of the
    wrapped call that is an [Exception] or on the retry list; when every
    attempt fails with an error of the retry list it returns the default
    after [max_retries + 1] calls; an [Exception] that is not on the
    retry list makes it return the default at once; and the result of
    the first attempt that succeeds is returned. *)
Theorem graceful_retry_returns :
  own_code_completes ->
  ((forall k e, func k = Raises e -> retry_on_exceptions e = true \/ is_Exception e = true) ->
   exists v, result with_graceful_retry = Returns v)
  /\ ((forall k, (Z.of_nat k <= max_retries)%Z -> fails_retryably k) ->
      with_graceful_retry = Run (Returns default_return) (Z.to_nat (max_retries + 1)))
  /\ (forall k e,
        (Z.of_nat k <= max_retries)%Z ->
        (forall j, (j < k)%nat -> fails_retryably j) ->
        func k = Raises e ->
        retry_on_exceptions e = false ->
        is_Exception e = true ->
        with_graceful_retry = Run (Returns default_return) (S k))
  /\ (forall k v,
        (Z.of_nat k <= max_retries)%Z ->
        (forall j, (j < k)%nat -> fails_retryably j) ->
        func k = Returns v ->
        with_graceful_retry = Run (Returns v) (S k)).
Proof.
  intros Hown. unfold Retry.with_graceful_retry.
  split; [|split; [|split]].
  - intros Hexc. destruct (Z.ltb_spec max_retries 0) as [Hneg|Hpos].
    + replace (Z.to_nat (max_retries + 1)) with 0%nat by lia. simpl. eauto.
    + apply attempts_never_propagate; [exact Hown | lia | exact Hexc].
  - intros Hfail. destruct (Z.ltb_spec max_retries 0) as [Hneg|Hpos].
    + replace (Z.to_nat (max_retries + 1)) with 0%nat by lia. reflexivity.
    + rewrite (attempts_skip (Z.to_nat max_retries) _ 0 Hown);
        [| intros j Hj; apply Hfail; lia | lia | lia].
      replace (Z.to_nat (max_retries + 1) - Z.to_nat max_retries)%nat with 1%nat by lia.
      destruct (Hfail (Z.to_nat max_retries) ltac:(lia)) as (e & He & Hr).
      simpl. rewrite He, Hr.
      destruct (Z.eqb_spec (Z.of_nat (Z.to_nat max_retries)) max_retries); [|lia].
      rewrite (return_default_completes _ e Hown He). f_equal. lia.
  - intros k e Hk Hfail He Hr Hx.
    rewrite (attempts_skip k _ 0 Hown); [| intros j Hj; apply Hfail; lia | simpl; lia | lia].
    destruct (Z.to_nat (max_retries + 1) - k)%nat as [|remaining] eqn:Hrem; [lia|].
    simpl. rewrite He, Hr, Hx. now rewrite (return_default_completes _ e Hown He).
  - intros k v Hk Hfail Hv.
    rewrite (attempts_skip k _ 0 Hown); [| intros j Hj; apply Hfail; lia | simpl; lia | lia].
    destruct (Z.to_nat (max_retries + 1) - k)%nat as [|remaining] eqn:Hrem; [lia|].
    simpl. rewrite Hv. destruct Hown as (-> & _). now destruct (0 <? k).
Qed.

End Envelope.

Lemma graceful_retry_returns_witness :
  sample_graceful_retry sample_retry_on flaky_call = Run (Returns 7%nat) 3.
Proof.
  refine (proj2 (proj2 (proj2
    (graceful_retry_returns nat sample_exn sample_retry_on sample_is_Exception 5 0%nat
       flaky_call None sample_str_error None sample_delay_error sample_sleep_error _)))
    2%nat 7%nat _ _ _).
  - repeat split; reflexivity.
  - lia.
  - intros j Hj. exists ConnectionError. split; [|reflexivity].
    destruct j as [|[|j]]; [reflexivity | reflexivity | lia].
  - reflexivity.
Defined.

(** C9, counterexample.  With the default retry list, on which
    [Exception] is, an interrupt from the keyboard in the wrapped call
    leaves the wrapper: the first attempt propagates it.  And with the
    back-off factor 2.0 and more than 1024 retries, a call that keeps
    failing with a connection error ends in the [OverflowError] of the
    delay computation, which leaves the wrapper from inside the handler
    after 1025 calls. *)
Lemma graceful_retry_propagates :
  sample_graceful_retry sample_is_Exception interrupted_call
  = Run (Raises KeyboardInterrupt) 1
  /\ (~ exists v, result (sample_graceful_retry sample_is_Exception interrupted_call)
                  = Returns v)
  /\ with_graceful_retry nat sample_exn sample_retry_on sample_is_Exception 2000 0%nat
       offline_call None sample_str_error None overflowing_delay_error sample_sleep_error
     = Run (Raises OverflowError) 1025.
Proof.
  split; [reflexivity|]. split; [intros [v H]; discriminate H|].
  vm_compute. reflexivity.
Qed.

End RetryFacts.


(** ** The system-start guard *)

Module AppFacts.
Import App.
Local Open Scope nat_scope.

Lemma count_where_app f l1 l2 :
  count_where f (l1 ++ l2) = count_where f l1 + count_where f l2.
Proof. unfold count_where. now rewrite List.filter_app, length_app. Qed.

Lemma count_where_insert (f : pc -> bool) (l : list pc) (i : nat) (p p' : pc) :
  l !! i = Some p ->
  count_where f (<[i := p']> l) + weight (f p) = count_where f l + weight (f p').
Proof.
  revert i. induction l as [|x l IH]; intros [|i]; simpl; try discriminate.
  - intros [= ->]. unfold count_where. simpl.
    destruct (f p), (f p'); simpl; lia.
  - intros H. specialize (IH _ H). unfold count_where in *. simpl.
    destruct (f x); simpl; lia.
Qed.

Lemma count_where_le (f g : pc -> bool) (l : list pc) :
  (forall p, f p = true -> g p = true) -> count_where f l <= count_where g l.
Proof.
  intros H. unfold count_where. induction l as [|x l IH]; simpl; [lia|].
  destruct (f x) eqn:E.
  - rewrite (H _ E). simpl. lia.
  - destruct (g x); simpl; lia.
Qed.

Lemma server_step_holds (sv : server) (e : event) :
  match e with Advance _ InitErrors => False | _ => True end ->
  start_held_once sv -> start_held_once (server_step sv e).
Proof.
  unfold start_held_once. intros Hok Hinv. destruct e as [|i o]; simpl.
  - rewrite count_where_app, Hinv. unfold count_where. simpl. lia.
  - destruct (requests sv !! i) as [p|] eqn:Ep; [|exact Hinv].
    destruct (request_step o p (flags sv)) as [[p' s']|] eqn:Es; [|exact Hinv].
    simpl. pose proof (count_where_insert holds_start _ _ _ p' Ep) as Hc.
    destruct sv as [[st sg] rs]. simpl in *.
    destruct p; simpl in Es.
    + unfold _prepare_system_start in Es. simpl in Es.
      destruct st, sg; simpl in Es; injection Es as <- <-; simpl in *; lia.
    + discriminate.
    + destruct o; [| contradiction |]; injection Es as <- <-; simpl in *; lia.
    + injection Es as <- <-; simpl in *; lia.
    + injection Es as <- <-; simpl in *; lia.
    + injection Es as <- <-; simpl in *. destruct sg; simpl in *; lia.
    + discriminate.
Qed.

Lemma run_server_holds (schedule : list event) (sv : server) :
  no_init_errors schedule ->
  start_held_once sv -> start_held_once (run_server sv schedule).
Proof.
  intros Hok. revert sv. induction Hok as [|e schedule He _ IH]; intros sv Hinv; simpl.
  - exact Hinv.
  - apply IH. now apply server_step_holds.
Qed.

(** C8, as amended.  [_prepare_system_start] rejects a request with the
    already-started message whenever [started] is set, with the starting
    message when [starting] is set and [started] is not, and grants the
    start, setting [starting], only when both flags are clear.  As long
    as no initialization ends in its error roll-back, at most one request
    is in initialization at any time, and [starting] is set exactly while
    one request is between its grant and its [finally]. *)
Theorem start_guard_single_flight :
  (forall s, started s = true ->
             _prepare_system_start s = ((false, Some "System already started"%string), s))
  /\ (forall s, started s = false -> starting s = true ->
                _prepare_system_start s = ((false, Some "System is starting"%string), s))
  /\ (forall s, started s = false -> starting s = false ->
                _prepare_system_start s = ((true, None), SystemState false true))
  /\ (forall s, fst (fst (_prepare_system_start s)) = true ->
                started s = false /\ starting s = false
                /\ starting (snd (_prepare_system_start s)) = true)
  /\ (forall schedule,
        no_init_errors schedule ->
        let sv := run_server initial_server schedule in
        count_where in_initialization (requests sv) <= 1
        /\ count_where holds_start (requests sv) = weight (starting (flags sv))).
Proof.
  split; [|split; [|split; [|split]]].
  - intros [st sg] H. simpl in H. subst. reflexivity.
  - intros [st sg] H1 H2. simpl in *. subst. reflexivity.
  - intros [st sg] H1 H2. simpl in *. subst. reflexivity.
  - intros [[] []]; simpl; intros H; try discriminate H. auto.
  - intros schedule Hok sv.
    assert (Hinv : start_held_once sv) by (apply run_server_holds; [exact Hok|reflexivity]).
    split; [|exact Hinv].
    etransitivity; [apply (count_where_le in_initialization holds_start)|].
    + intros []; simpl; congruence.
    + rewrite Hinv. destruct (starting (flags sv)); simpl; lia.
Qed.

Lemma start_guard_single_flight_witness :
  let sv := run_server initial_server
              [NewRequest; NewRequest; Advance 0 InitOk; Advance 1 InitOk;
               Advance 0 InitRaises; Advance 1 InitOk] in
  requests sv = [Initialized false; Rejected "System is starting"]
  /\ count_where in_initialization (requests sv) <= 1.
Proof.
  cbv zeta. split; [reflexivity|].
  refine (proj1 (proj2 (proj2 (proj2 (proj2 start_guard_single_flight))) _ _)).
  repeat constructor.
Defined.

(** C8, counterexample.  After a successful initialization and before
    the [finally], both flags are set; a request that arrives then, while
    [starting] is set, is answered with the already-started message, not
    with the starting message. *)
Lemma already_started_wins_over_starting :
  let sv := run_server initial_server
              [NewRequest; Advance 0 InitOk; Advance 0 InitOk; Advance 0 InitOk] in
  flags sv = SystemState true true
  /\ requests sv = [Finishing]
  /\ starting (flags sv) = true
  /\ fst (_prepare_system_start (flags sv)) <> (false, Some "System is starting"%string)
  /\ fst (_prepare_system_start (flags sv)) = (false, Some "System already started"%string).
Proof. cbv zeta. repeat split; try reflexivity. discriminate. Qed.

(** An initialization that ends in its error roll-back clears [starting]
    through [cleanup_processes] while the request is still in flight: a
    second request is granted the start, the [finally] of the first one
    clears the flag again, and a third request is initialized next to
    the second. *)
Example rollback_reopens_the_guard :
  let sv := run_server initial_server
              [ NewRequest; NewRequest; NewRequest;
                Advance 0 InitOk;          (* request 0 is granted the start *)
                Advance 0 InitErrors;      (* its initialization fails: cleanup_processes() *)
                Advance 1 InitOk;          (* request 1 is granted the start *)
                Advance 0 InitOk; Advance 0 InitOk; Advance 0 InitOk;  (* request 0 finishes *)
                Advance 2 InitOk ] in      (* request 2 is granted the start *)
  requests sv = [Finished; Initializing; Initializing]
  /\ count_where in_initialization (requests sv) = 2.
Proof. cbv zeta. split; reflexivity. Qed.

End AppFacts.


(** ** The reflection loop *)

Module ResearchFacts.
Import Py Research Samples.
Local Open Scope nat_scope.

Section Agent.

Variable Result : Type.
Variable strptime_ok : str -> bool.
Variable World : Type.
Variable first_search_run : str -> str -> World -> option search_output * World.
Variable reflection_run : str -> str -> str -> World -> option search_output * World.
Variable execute_search_tool :
  str -> str -> search_kwargs -> World -> option (list Result) * World.
Variable first_summary_run : str -> str -> str -> list Result -> World -> option str * World.
Variable reflection_summary_run :
  str -> str -> str -> list Result -> str -> World -> option str * World.

Abbreviation agent := (agent Result World).
Abbreviation A := (A Result World).
Abbreviation search_with := (search_with Result strptime_ok World execute_search_tool).
Abbreviation _initial_search_and_summary :=
  (_initial_search_and_summary Result strptime_ok World first_search_run
     execute_search_tool first_summary_run).
Abbreviation reflection_turn :=
  (reflection_turn Result strptime_ok World reflection_run execute_search_tool
     reflection_summary_run).
Abbreviation _reflection_loop :=
  (_reflection_loop Result strptime_ok World reflection_run execute_search_tool
     reflection_summary_run).
Abbreviation process_paragraph :=
  (process_paragraph Result strptime_ok World first_search_run reflection_run
     execute_search_tool first_summary_run reflection_summary_run).
Abbreviation _process_paragraphs :=
  (_process_paragraphs Result strptime_ok World first_search_run reflection_run
     execute_search_tool first_summary_run reflection_summary_run).

Lemma alter_zero (i : nat) (l : list Z) : alter (fun c => (c + 0)%Z) i l = l.
Proof.
  revert i. induction l as [|x l IH]; intros [|i]; simpl; try reflexivity.
  - f_equal. lia.
  - f_equal. apply IH.
Qed.

Lemma alter_add (i : nat) (n m : Z) (l : list Z) :
  alter (fun c => (c + m)%Z) i (alter (fun c => (c + n)%Z) i l)
  = alter (fun c => (c + (n + m))%Z) i l.
Proof.
  revert i. induction l as [|x l IH]; intros [|i]; simpl; try reflexivity.
  - f_equal. lia.
  - f_equal. apply IH.
Qed.

Lemma effect_same i (a a' : agent) :
  st a' = st a -> history a' = history a -> effect i 0 [] a a'.
Proof.
  intros H1 H2. split; [unfold counts; now rewrite H1, alter_zero | now rewrite H2, app_nil_r].
Qed.

Lemma effect_refl i (a : agent) : effect i 0 [] a a.
Proof. now apply effect_same. Qed.

Lemma effect_trans i n m e1 e2 (a a1 a2 : agent) :
  effect i n e1 a a1 -> effect i m e2 a1 a2 -> effect i (n + m) (e1 ++ e2) a a2.
Proof.
  intros [H1 H2] [H3 H4]. split.
  - now rewrite H3, H1, alter_add.
  - now rewrite H4, H2, app_assoc.
Qed.

Lemma does_bind {T U} (c : A T) (k : T -> A U) i n m e1 e2 :
  does c i n e1 -> (forall x, does (k x) i m e2) ->
  does (bind c k) i (n + m) (e1 ++ e2).
Proof.
  intros Hc Hk a a' y. unfold bind.
  destruct (c a) as [a1 [x|]] eqn:E; [|discriminate].
  intros H. eapply effect_trans; [eapply Hc; exact E | eapply Hk; exact H].
Qed.

Lemma does_ret {T} (x : T) i : does (ret x : A T) i 0 [].
Proof. intros a a' y [= <- _]. apply effect_refl. Qed.

Lemma does_required {T} (o : option T) i : does (required o : A T) i 0 [].
Proof. destruct o; [apply does_ret | intros a a' y; discriminate]. Qed.

Lemma does_get_paragraph j i : does (get_paragraph j : A _) i 0 [].
Proof. intros a a' y. unfold get_paragraph. apply does_required. Qed.

Lemma does_call {T} e (f : World -> option T * World) i :
  does (call e f : A T) i 0 [e].
Proof.
  intros a a' y. unfold call. destruct (f (world a)) as [r w]. intros [= <- _].
  split; [simpl; unfold counts; simpl; now rewrite alter_zero | reflexivity].
Qed.

Lemma does_search_with cfg out i : does (search_with cfg out) i 0 [].
Proof.
  unfold Research.search_with.
  change 0%Z with (0 + (0 + (0 + 0)))%Z. change (@nil event) with ([] ++ [] ++ [] ++ @nil event).
  apply does_bind; [apply does_required|]. intros q.
  apply does_bind; [apply does_required|]. intros r.
  destruct (plan_search strptime_ok cfg out) as [tool kw].
  apply does_bind; [|intros; apply does_ret].
  intros a a' y. destruct (execute_search_tool tool q kw (world a)) as [res w].
  intros [= <- _]. now apply effect_same.
Qed.

(** An update of paragraph [i] that adds [n] to its counter. *)
Lemma does_update_paragraph i (f : paragraph Result -> paragraph Result) n :
  (forall p, reflection_count (p_research (f p)) = (reflection_count (p_research p) + n)%Z) ->
  does (update_paragraph i f : A unit) i n [].
Proof.
  intros Hf a a' y. unfold update_paragraph.
  destruct (paragraphs (st a) !! i) as [p|] eqn:E; [|discriminate].
  intros [= <- _]. split; [|simpl; now rewrite app_nil_r].
  unfold counts. simpl. rewrite list_fmap_insert.
  apply list_eq. intros j. destruct (decide (j = i)) as [->|Hne].
  - rewrite list_lookup_alter_eq.
    assert (Hi : (i < length (paragraphs (st a)))%nat) by (eapply lookup_lt_Some; eauto).
    rewrite list_lookup_insert_eq by (now rewrite length_fmap).
    rewrite list_lookup_fmap, E. simpl. now rewrite Hf.
  - rewrite list_lookup_alter_ne by congruence.
    now rewrite list_lookup_insert_ne by congruence.
Qed.

Lemma does_bind' {T U} (c : A T) (k : T -> A U) i n m e1 e2 N E :
  does c i n e1 -> (forall x, does (k x) i m e2) ->
  (n + m = N)%Z -> e1 ++ e2 = E ->
  does (bind c k) i N E.
Proof. intros Hc Hk <- <-. now apply does_bind. Qed.

Lemma does_first_summary_mutate_state i t c q rs :
  does (first_summary_mutate_state Result World first_summary_run i t c q rs)
       i 0 [FirstSummary i].
Proof.
  unfold first_summary_mutate_state.
  eapply does_bind'; [apply does_call | intros summary | reflexivity | reflexivity].
  apply does_update_paragraph. intros p. simpl. lia.
Qed.

Lemma does_reflection_summary_mutate_state i t c q rs latest :
  does (reflection_summary_mutate_state Result World reflection_summary_run i t c q rs latest)
       i 1 [ReflectionSummary i].
Proof.
  unfold reflection_summary_mutate_state.
  eapply does_bind'; [apply does_call | intros summary | reflexivity | reflexivity].
  apply does_update_paragraph. intros p. reflexivity.
Qed.

Lemma does_initial_search_and_summary cfg i :
  does (_initial_search_and_summary cfg i) i 0 [FirstSearch i; FirstSummary i].
Proof.
  unfold Research._initial_search_and_summary.
  eapply does_bind'; [apply does_get_paragraph | intros p | reflexivity | reflexivity].
  eapply does_bind'; [apply does_call | intros out | reflexivity | reflexivity].
  eapply does_bind'; [apply does_search_with | intros found | reflexivity | reflexivity].
  eapply does_bind'; [apply (does_update_paragraph _ _ 0) | intros _ | reflexivity | reflexivity].
  - intros q. simpl. lia.
  - apply does_first_summary_mutate_state.
Qed.

Lemma does_reflection_turn cfg i :
  does (reflection_turn cfg i) i 1 [Reflection i; ReflectionSummary i].
Proof.
  unfold Research.reflection_turn.
  eapply does_bind'; [apply does_get_paragraph | intros p | reflexivity | reflexivity].
  eapply does_bind'; [apply does_call | intros out | reflexivity | reflexivity].
  eapply does_bind'; [apply does_search_with | intros found | reflexivity | reflexivity].
  eapply does_bind'; [apply (does_update_paragraph _ _ 0) | intros _ | reflexivity | reflexivity].
  - intros q. simpl. lia.
  - eapply does_bind'; [apply does_get_paragraph | intros p' | reflexivity | reflexivity].
    apply does_reflection_summary_mutate_state.
Qed.

Lemma does_repeat_turns (turn : A unit) i n evs :
  does turn i 1 evs ->
  does (repeat_turns Result World n turn) i (Z.of_nat n) (concat (repeat evs n)).
Proof.
  intros Hturn. induction n as [|n IH].
  - apply does_ret.
  - cbn [repeat_turns repeat concat].
    eapply does_bind'; [exact Hturn | intros _; exact IH | lia | reflexivity].
Qed.

Lemma does_reflection_loop cfg i :
  does (_reflection_loop cfg i) i
       (Z.of_nat (Z.to_nat (MAX_REFLECTIONS cfg)))
       (reflections i (Z.to_nat (MAX_REFLECTIONS cfg))).
Proof.
  unfold Research._reflection_loop.
  eapply does_bind'; [apply does_get_paragraph | intros p | reflexivity | reflexivity].
  apply does_repeat_turns, does_reflection_turn.
Qed.

Lemma does_process_paragraph cfg i :
  does (process_paragraph cfg i) i
       (Z.of_nat (Z.to_nat (MAX_REFLECTIONS cfg)))
       (paragraph_events (Z.to_nat (MAX_REFLECTIONS cfg)) i).
Proof.
  unfold Research.process_paragraph, paragraph_events.
  eapply does_bind'; [apply does_initial_search_and_summary | intros _ | reflexivity | reflexivity].
  eapply does_bind'; [apply does_reflection_loop | intros _ | | apply app_nil_r].
  - apply (does_update_paragraph _ _ 0). intros p. simpl. lia.
  - lia.
Qed.

Lemma for_each_counts (body : nat -> A unit) (N : Z) (evs : nat -> list event)
    (n k : nat) (a a' : agent) :
  (forall i, does (body i) i N (evs i)) ->
  for_each Result World (seq k n) body a = (a', Some tt) ->
  (forall j, counts a' !! j
             = (fun c => if bool_decide (k <= j < k + n)%nat then (c + N)%Z else c)
                 <$> counts a !! j)
  /\ history a' = history a ++ concat (List.map evs (seq k n)).
Proof.
  intros Hbody. revert k a. induction n as [|n IH]; intros k a; simpl.
  - intros [= <-]. split; [|now rewrite app_nil_r].
    intros j. rewrite bool_decide_eq_false_2 by lia. now destruct (counts a !! j).
  - unfold bind at 1. destruct (body k a) as [a1 [[]|]] eqn:E; [|discriminate].
    intros H. apply IH in H as [Hc Hh]. apply Hbody in E as [Ec Eh].
    split.
    + intros j. rewrite Hc, Ec. destruct (decide (j = k)) as [->|Hne].
      * rewrite list_lookup_alter_eq. destruct (counts a !! k); simpl; [|reflexivity].
        rewrite bool_decide_eq_false_2 by lia. now rewrite bool_decide_eq_true_2 by lia.
      * rewrite list_lookup_alter_ne by congruence.
        destruct (counts a !! j); simpl; [|reflexivity].
        f_equal. destruct (decide (S k <= j < S k + n)%nat).
        -- rewrite !bool_decide_eq_true_2 by lia. reflexivity.
        -- rewrite !bool_decide_eq_false_2 by lia. reflexivity.
    + rewrite Hh, Eh, <- app_assoc. reflexivity.
Qed.

(** C7, as amended.  In a run of [_process_paragraphs] that completes,
    over paragraphs whose reflection counter starts at 0 and with a maximum
    that is not negative, the reflection loop of every paragraph makes
    the pair of calls reflection, reflection summary exactly
    [MAX_REFLECTIONS] times, each turn adding one to the counter of the
    paragraph: at the end every counter equals, and so does not exceed,
    [MAX_REFLECTIONS]. *)
Theorem reflection_count_reaches_maximum (cfg : config) (a a' : agent) :
  (0 <= MAX_REFLECTIONS cfg)%Z ->
  Forall (fun p => reflection_count (p_research p) = 0%Z) (paragraphs (st a)) ->
  _process_paragraphs cfg a = (a', Some tt) ->
  Forall (fun p => reflection_count (p_research p) = MAX_REFLECTIONS cfg
                   /\ (reflection_count (p_research p) <= MAX_REFLECTIONS cfg)%Z)
         (paragraphs (st a'))
  /\ length (paragraphs (st a')) = length (paragraphs (st a))
  /\ history a'
     = history a
       ++ concat (List.map (paragraph_events (Z.to_nat (MAX_REFLECTIONS cfg)))
                           (seq 0 (length (paragraphs (st a))))).
Proof.
  intros Hmax Hfresh Hrun. unfold Research._process_paragraphs in Hrun.
  apply (for_each_counts _ _ _ _ _ _ _ (does_process_paragraph cfg)) in Hrun as [Hc Hh].
  assert (Hlen : length (paragraphs (st a')) = length (paragraphs (st a))).
  { destruct (Nat.lt_trichotomy (length (paragraphs (st a'))) (length (paragraphs (st a))))
      as [Hlt|[Heq|Hgt]]; [|exact Heq|]; exfalso.
    - specialize (Hc (length (paragraphs (st a')))).
      rewrite (lookup_ge_None_2 (counts a')) in Hc by (unfold counts; now rewrite length_map).
      destruct (lookup_lt_is_Some_2 (counts a) (length (paragraphs (st a'))))
        as [c Hcq]; [unfold counts; now rewrite length_map|].
      rewrite Hcq in Hc. discriminate.
    - specialize (Hc (length (paragraphs (st a)))).
      rewrite (lookup_ge_None_2 (counts a)) in Hc by (unfold counts; now rewrite length_map).
      destruct (lookup_lt_is_Some_2 (counts a') (length (paragraphs (st a))))
        as [c Hcq]; [unfold counts; now rewrite length_map|].
      rewrite Hcq in Hc. discriminate. }
  split; [|split; [exact Hlen | exact Hh]].
  apply Forall_lookup_2. intros j p Hp.
  assert (Hj : (j < length (paragraphs (st a)))%nat)
    by (rewrite <- Hlen; eapply lookup_lt_Some; eauto).
  destruct (lookup_lt_is_Some_2 (paragraphs (st a)) j Hj) as [p0 Hp0].
  specialize (Hc j). unfold counts in Hc.
  rewrite !list_lookup_fmap, Hp, Hp0 in Hc. simpl in Hc.
  rewrite bool_decide_eq_true_2 in Hc by lia.
  rewrite (Forall_lookup_1 _ _ _ _ Hfresh Hp0) in Hc.
  injection Hc as Hc. lia.
Qed.

End Agent.

Lemma reflection_count_reaches_maximum_witness :
  Forall (fun p => reflection_count (p_research p) = 2%Z
                   /\ (reflection_count (p_research p) <= 2)%Z)
         (paragraphs (st (fst (sample_process 2))))
  /\ history (fst (sample_process 2))
     = [ FirstSearch 0; FirstSummary 0; Reflection 0; ReflectionSummary 0;
         Reflection 0; ReflectionSummary 0;
         FirstSearch 1; FirstSummary 1; Reflection 1; ReflectionSummary 1;
         Reflection 1; ReflectionSummary 1 ].
Proof.
  destruct (reflection_count_reaches_maximum unit (fun _ => true) unit sample_first_search
              sample_reflection sample_search sample_first_summary
              sample_reflection_summary (sample_config 2) sample_agent
              (fst (sample_process 2))) as (Hcount & _ & Hhistory).
  - simpl. lia.
  - repeat constructor.
  - vm_compute. reflexivity.
  - split; [exact Hcount | exact Hhistory].
Defined.

(** C7, counterexample.  A maximum below zero is an empty range: the
    run completes without any reflection, so no paragraph makes the pair
    of calls [MAX_REFLECTIONS] times, and the counters, which stay 0,
    exceed the maximum of -1. *)
Lemma negative_maximum_exceeds_bound :
  let cfg := sample_config (-1) in
  let a' := fst (sample_process (-1)) in
  snd (sample_process (-1)) = Some tt
  /\ counts a' = [0%Z; 0%Z]
  /\ history a' = [FirstSearch 0; FirstSummary 0; FirstSearch 1; FirstSummary 1]
  /\ Forall (fun p => (reflection_count (p_research p) > MAX_REFLECTIONS cfg)%Z)
            (paragraphs (st a'))
  /\ ~ Forall (fun p => (reflection_count (p_research p) <= MAX_REFLECTIONS cfg)%Z)
              (paragraphs (st a')).
Proof.
  cbv zeta.
  assert (Hc : paragraphs (st (fst (sample_process (-1))))
               = [ MkParagraph (lit "Background") (lit "what happened")
                     (MkResearch (lit "summary") 0
                        [(lit "topic", [tt; tt])] true);
                   MkParagraph (lit "Reactions") (lit "who said what")
                     (MkResearch (lit "summary") 0
                        [(lit "topic", [tt; tt])] true) ])
    by (vm_compute; reflexivity).
  split; [vm_compute; reflexivity|]. split; [vm_compute; reflexivity|].
  split; [vm_compute; reflexivity|]. rewrite Hc. split.
  - repeat constructor.
  - intros H. apply Forall_cons in H as [H _]. simpl in H. lia.
Qed.

End ResearchFacts.


(** ** Stripping and blank runs *)

Module TextFacts.
Import Py Re PyFacts.
Local Open Scope nat_scope.

Lemma lstrip_app_keeps (a : str) (c : char) :
  isspace c = false -> lstrip (a ++ [c]) = lstrip a ++ [c].
Proof.
  intros Hc. induction a as [|x a IH]; simpl; [now rewrite Hc|].
  destruct (isspace x); [exact IH | reflexivity].
Qed.

Lemma lstrip_idem (s : str) : lstrip (lstrip s) = lstrip s.
Proof.
  induction s as [|x s IH]; simpl; [reflexivity|].
  destruct (isspace x) eqn:E; [exact IH|]. simpl. now rewrite E.
Qed.

Lemma rstrip_cons (c : char) (s : str) :
  isspace c = false -> rstrip (c :: s) = c :: rstrip s.
Proof.
  intros Hc. unfold rstrip. simpl. rewrite lstrip_app_keeps by exact Hc.
  rewrite rev_app_distr. reflexivity.
Qed.

Lemma rstrip_idem (s : str) : rstrip (rstrip s) = rstrip s.
Proof. unfold rstrip. now rewrite rev_involutive, lstrip_idem. Qed.

Lemma lstrip_head (s : str) :
  match lstrip s with c :: _ => isspace c = false | [] => True end.
Proof.
  induction s as [|x s IH]; simpl; [exact I|].
  destruct (isspace x) eqn:E; [exact IH | exact E].
Qed.

(** [s.strip().strip() == s.strip()] *)
Lemma strip_idem (s : str) : strip (strip s) = strip s.
Proof.
  unfold strip. pose proof (lstrip_head s) as H.
  destruct (lstrip s) as [|c u]; [reflexivity|].
  rewrite (rstrip_cons _ _ H). simpl. rewrite H.
  now rewrite (rstrip_cons _ _ H), rstrip_idem.
Qed.

Lemma In_lstrip_inv (c : char) (s : str) : In c (lstrip s) -> In c s.
Proof.
  induction s as [|x s IH]; simpl; [tauto|].
  destruct (isspace x); [auto | simpl; tauto].
Qed.

Lemma In_strip_inv (c : char) (s : str) : In c (strip s) -> In c s.
Proof.
  unfold strip, rstrip. intros H. apply In_lstrip_inv.
  apply (proj2 (in_rev _ _)). apply In_lstrip_inv. apply (proj2 (in_rev _ _)). exact H.
Qed.

Lemma length_lstrip (s : str) : length (lstrip s) <= length s.
Proof.
  induction s as [|x s IH]; simpl; [lia|]. destruct (isspace x); simpl; lia.
Qed.

(** [\s*] with nothing behind it takes the whole run of blanks. *)
Lemma star_greedy_blanks (i : nat) (s : str) (cap : option str) :
  star_greedy isspace Some i s cap
  = Some (MSt (i + (length s - length (lstrip s))) (lstrip s) cap).
Proof.
  revert i. induction s as [|c s IH]; intros i; simpl.
  - f_equal. f_equal. lia.
  - destruct (isspace c) eqn:E.
    + rewrite IH. simpl. pose proof (length_lstrip s). f_equal. f_equal. lia.
    + simpl. f_equal. f_equal. lia.
Qed.

(** What [re.sub(r'\s+', ' ', s)] leaves: no blank but the space. *)
Lemma sub_blanks_chars (fuel i : nat) (s : str) :
  length s < fuel ->
  Forall (fun c => isspace c = false \/ c = 32%N) (sub_from fuel ws_plus (lit " ") i s).
Proof.
  revert i s. induction fuel as [|fuel IH]; intros i s Hfuel; [lia|].
  simpl. unfold match_at, ws_plus, Plus. simpl.
  destruct s as [|c s]; [constructor|].
  destruct (isspace c) eqn:E.
  - rewrite star_greedy_blanks. simpl.
    replace (i <? S (i + (length s - length (lstrip s)))) with true
      by (symmetry; apply Nat.ltb_lt; lia).
    constructor; [now right|]. apply IH.
    pose proof (length_lstrip s). simpl in Hfuel. lia.
  - constructor; [now left|]. apply IH. simpl in Hfuel. lia.
Qed.

Lemma replace_absent (c : char) (new s : str) : ~ In c s -> replace c new s = s.
Proof.
  unfold replace. induction s as [|x s IH]; simpl; [reflexivity|].
  intros H. destruct (N.eqb_spec x c) as [->|_]; [tauto|].
  simpl. f_equal. apply IH. tauto.
Qed.

End TextFacts.


(** ** The JSON repair pass and the tag cleaner *)

Module TailerFacts.
Import Py Re Json Monitor PyFacts MonitorFacts TextFacts Samples.
Local Open Scope nat_scope.

(** X8.  The character pass of [fix_json_string] only inserts
    backslashes: from whichever state of its two flags it starts, the
    text it builds contains the input as a subsequence, agrees with it
    once the backslashes of both are dropped, is at least as long and at
    most twice as long, and is the input itself when the input holds no
    double quote. *)
Theorem fix_scan_only_adds_backslashes (s : str) (in_string escape_next : bool) :
  s `sublist_of` fix_scan s in_string escape_next
  /\ List.filter (neqc BACKSLASH) (fix_scan s in_string escape_next)
     = List.filter (neqc BACKSLASH) s
  /\ length s <= length (fix_scan s in_string escape_next) <= 2 * length s
  /\ (~ In DQUOTE s -> fix_scan s in_string escape_next = s).
Proof.
  revert in_string escape_next.
  induction s as [|c s IH]; intros in_string escape_next.
  - simpl. split; [constructor|]. split; [reflexivity|]. split; [lia|reflexivity].
  - assert (Hkeep : forall a b,
              let fixed := c :: fix_scan s a b in
              (c :: s) `sublist_of` fixed
              /\ List.filter (neqc BACKSLASH) fixed = List.filter (neqc BACKSLASH) (c :: s)
              /\ length (c :: s) <= length fixed <= 2 * length (c :: s)
              /\ (~ In DQUOTE (c :: s) -> fixed = c :: s)).
    { intros a b. cbv zeta. destruct (IH a b) as (H1 & H2 & H3 & H4).
      split; [now constructor|]. split; [simpl; now rewrite H2|].
      split; [simpl; lia|]. intros Hq. f_equal. apply H4. simpl in Hq. tauto. }
    simpl fix_scan.
    destruct escape_next; [apply Hkeep|].
    destruct (N.eqb_spec c BACKSLASH) as [->|Hb]; [apply Hkeep|].
    destruct (N.eqb_spec c DQUOTE) as [->|Hq]; [|apply Hkeep].
    destruct in_string; [|apply Hkeep].
    destruct (lstrip s) as [|next_char rest]; [apply Hkeep|].
    destruct ((next_char =? 58) || (next_char =? 44) || (next_char =? 125))%N;
      [apply Hkeep|].
    destruct (IH true false) as (H1 & H2 & H3 & H4).
    split; [apply sublist_cons; now constructor|].
    split; [simpl; now rewrite H2|].
    split; [simpl; lia|]. intros Hnq. exfalso. apply Hnq. now left.
Qed.

Lemma clean_content_shape (content : str) :
  content = [] /\ _clean_content_tags content = []
  \/ exists t, _clean_content_tags content = strip (re_sub ws_plus (lit " ") t).
Proof.
  destruct content as [|c content]; [left; split; reflexivity|].
  right. eexists. unfold _clean_content_tags.
  change (negb (nonempty (c :: content))) with false. reflexivity.
Qed.

(** X9.  What [_clean_content_tags] returns holds no whitespace other
    than the space, so no line feed and no carriage return; stripping it
    again changes nothing, and neither does the flattening of line breaks
    that [write_to_forum_log] applies to a record. *)
Theorem clean_content_is_one_line (content : str) :
  Forall (fun c => isspace c = false \/ c = 32%N) (_clean_content_tags content)
  /\ ~ In LF (_clean_content_tags content)
  /\ ~ In CR (_clean_content_tags content)
  /\ strip (_clean_content_tags content) = _clean_content_tags content
  /\ one_line (_clean_content_tags content) = _clean_content_tags content.
Proof.
  assert (Hchars : Forall (fun c => isspace c = false \/ c = 32%N) (_clean_content_tags content)).
  { destruct (clean_content_shape content) as [[_ ->]|[t ->]]; [constructor|].
    apply Forall_forall. intros x Hx. rewrite list_elem_of_In in Hx.
    apply In_strip_inv in Hx.
    pose proof (sub_blanks_chars (S (length t)) 0 t (Nat.lt_succ_diag_r _)) as Hall.
    rewrite Forall_forall in Hall. apply Hall. now rewrite list_elem_of_In. }
  assert (Hlf : ~ In LF (_clean_content_tags content)).
  { intros H. rewrite Forall_forall in Hchars. rewrite <- list_elem_of_In in H.
    destruct (Hchars _ H) as [H1|H1]; discriminate H1. }
  assert (Hcr : ~ In CR (_clean_content_tags content)).
  { intros H. rewrite Forall_forall in Hchars. rewrite <- list_elem_of_In in H.
    destruct (Hchars _ H) as [H1|H1]; discriminate H1. }
  split; [exact Hchars|]. split; [exact Hlf|]. split; [exact Hcr|]. split.
  - destruct (clean_content_shape content) as [[_ ->]|[t ->]]; [reflexivity|].
    apply strip_idem.
  - unfold one_line. rewrite (replace_absent LF) by exact Hlf.
    now apply replace_absent.
Qed.

End TailerFacts.


(** ** The retry envelope that re-raises *)

Module RetryStrictFacts.
Import Retry RetryStrict Samples MoreSamples RetryFacts.
Local Open Scope nat_scope.

Section Envelope.

Variables (Val Exn : Type).
Variable retry_on_exceptions : Exn -> bool.
Variable is_Exception : Exn -> bool.
Variable max_retries : Z.
Variable default_return : Val.
Variable func : nat -> outcome Val Exn.
Variable func_name_error : option Exn.
Variable str_error : Exn -> option Exn.
Variable default_text_error : option Exn.
Variable delay_error : nat -> option Exn.
Variable sleep_error : nat -> option Exn.

Abbreviation attempts :=
  (attempts Val Exn retry_on_exceptions is_Exception max_retries default_return func
     func_name_error str_error default_text_error delay_error sleep_error).
Abbreviation with_graceful_retry :=
  (with_graceful_retry Val Exn retry_on_exceptions is_Exception max_retries default_return func
     func_name_error str_error default_text_error delay_error sleep_error).
Abbreviation strict_attempts :=
  (strict_attempts Val Exn retry_on_exceptions max_retries func
     func_name_error str_error delay_error sleep_error is_Exception).
Abbreviation with_retry :=
  (with_retry Val Exn retry_on_exceptions max_retries func
     func_name_error str_error delay_error sleep_error is_Exception).
Abbreviation softened := (softened Val Exn retry_on_exceptions is_Exception default_return).
Abbreviation fails_retryably := (fails_retryably Val Exn retry_on_exceptions func).
Abbreviation own_code_completes :=
  (own_code_completes Val Exn max_retries func func_name_error str_error
     default_text_error delay_error sleep_error).
Abbreviation reraise := (reraise Val Exn func_name_error str_error).

Lemma reraise_completes (k : nat) (e : Exn) :
  own_code_completes -> func k = Raises e -> reraise e = Raised e.
Proof.
  intros (Hname & _ & Hstr & _) He. unfold RetryStrict.reraise.
  rewrite Hname, (Hstr _ _ He). reflexivity.
Qed.

Lemma attempts_softened (remaining a : nat) (last : option Exn) :
  own_code_completes ->
  (Z.of_nat a + Z.of_nat remaining <= max_retries + 1)%Z ->
  (forall e, last = Some e -> retry_on_exceptions e = true) ->
  attempts remaining a
  = Run (softened (ending_of (strict_attempts remaining a last)))
        (strict_calls (strict_attempts remaining a last)).
Proof.
  intros Hown. pose proof Hown as (Hname & _).
  revert a last. induction remaining as [|remaining IH]; intros a last Hbound Hlast.
  - simpl. destruct last as [e|]; simpl; [|reflexivity]. now rewrite (Hlast e eq_refl).
  - cbn [Retry.attempts RetryStrict.strict_attempts].
    destruct (func a) as [v|e] eqn:E.
    + destruct (0 <? a); [rewrite Hname|]; reflexivity.
    + rewrite (RetryFacts.return_default_completes Val Exn max_retries default_return func
                 func_name_error str_error default_text_error delay_error sleep_error
                 a e Hown E).
      rewrite (reraise_completes a e Hown E).
      destruct (retry_on_exceptions e) eqn:Hr; simpl.
      * destruct (Z.eqb_spec (Z.of_nat a) max_retries) as [Heq|Hne]; simpl.
        -- now rewrite Hr.
        -- rewrite (RetryFacts.back_off_completes Val Exn max_retries func
                      func_name_error str_error default_text_error delay_error sleep_error
                      a e Hown E) by lia.
           apply IH; [lia|]. now intros e' [= <-].
      * destruct (is_Exception e) eqn:Hx; simpl; rewrite Hr, Hx; reflexivity.
Qed.

(** X3.  As long as the wrappers' own handler code raises nothing, the
    wrapper of [with_graceful_retry] calls the function exactly as often
    as the wrapper of [with_retry] over the same configuration, and
    differs only in how it ends: a value is returned by both, an error
    that [with_retry] raises and that is on the retry list or an
    [Exception] becomes the default value, and any other error is raised
    by both. *)
Theorem graceful_softens_with_retry :
  own_code_completes ->
  calls with_graceful_retry = strict_calls with_retry
  /\ result with_graceful_retry = softened (ending_of with_retry)
  /\ (forall v, ending_of with_retry = Returned v -> result with_graceful_retry = Returns v)
  /\ (forall e, ending_of with_retry = Raised e ->
                retry_on_exceptions e = true \/ is_Exception e = true ->
                result with_graceful_retry = Returns default_return)
  /\ (forall e, ending_of with_retry = Raised e ->
                retry_on_exceptions e = false -> is_Exception e = false ->
                result with_graceful_retry = Raises e).
Proof.
  intros Hown.
  assert (Heq : with_graceful_retry
                = Run (softened (ending_of with_retry)) (strict_calls with_retry)).
  { unfold Retry.with_graceful_retry, RetryStrict.with_retry.
    destruct (Z.ltb_spec max_retries 0) as [Hneg|Hpos].
    - replace (Z.to_nat (max_retries + 1)) with 0 by lia. reflexivity.
    - apply attempts_softened; [exact Hown | lia | discriminate]. }
  rewrite Heq. cbn [calls result]. split; [reflexivity|]. split; [reflexivity|].
  split; [|split].
  - intros v ->. reflexivity.
  - intros e -> [H|H]; simpl; rewrite H; [reflexivity|]. now rewrite orb_true_r.
  - intros e -> H1 H2. simpl. now rewrite H1, H2.
Qed.

Lemma strict_calls_bounded (remaining a : nat) (last : option Exn) :
  a + Nat.min 1 remaining <= strict_calls (strict_attempts remaining a last) <= a + remaining.
Proof.
  revert a last. induction remaining as [|remaining IH]; intros a last; [simpl; lia|].
  cbn [RetryStrict.strict_attempts]. replace (a + Nat.min 1 (S remaining)) with (S a) by lia.
  assert (Hh : forall e,
            S a <= strict_calls
                   (if retry_on_exceptions e
                    then if (Z.of_nat a =? max_retries)%Z
                         then StrictRun (reraise e) (S a)
                         else match Retry.back_off Exn func_name_error str_error delay_error
                                      sleep_error a e with
                              | Some raised => StrictRun (Raised raised) (S a)
                              | None => strict_attempts remaining (S a) (Some e)
                              end
                    else if is_Exception e then StrictRun (reraise e) (S a)
                         else StrictRun (Raised e) (S a))
            <= a + S remaining).
  { intros e. destruct (retry_on_exceptions e); [|destruct (is_Exception e); simpl; lia].
    destruct (Z.of_nat a =? max_retries)%Z; [simpl; lia|].
    destruct (Retry.back_off _ _ _ _ _ _ _); [simpl; lia|].
    specialize (IH (S a) (Some e)). lia. }
  destruct (func a) as [v|e]; [|apply Hh].
  destruct (0 <? a); [|simpl; lia].
  destruct func_name_error as [raised|]; [apply Hh | simpl; lia].
Qed.

Lemma graceful_calls_bounded (remaining a : nat) :
  a + Nat.min 1 remaining <= calls (attempts remaining a) <= a + remaining.
Proof.
  revert a. induction remaining as [|remaining IH]; intros a; [simpl; lia|].
  cbn [Retry.attempts]. replace (a + Nat.min 1 (S remaining)) with (S a) by lia.
  assert (Hh : forall e,
            S a <= calls
                   (if retry_on_exceptions e
                    then if (Z.of_nat a =? max_retries)%Z
                         then Run (Retry.return_default Val Exn default_return func_name_error
                                     str_error default_text_error e) (S a)
                         else match Retry.back_off Exn func_name_error str_error delay_error
                                      sleep_error a e with
                              | Some raised => Run (Raises raised) (S a)
                              | None => attempts remaining (S a)
                              end
                    else if is_Exception e
                         then Run (Retry.return_default Val Exn default_return func_name_error
                                     str_error default_text_error e) (S a)
                         else Run (Raises e) (S a))
            <= a + S remaining).
  { intros e. destruct (retry_on_exceptions e); [|destruct (is_Exception e); simpl; lia].
    destruct (Z.of_nat a =? max_retries)%Z; [simpl; lia|].
    destruct (Retry.back_off _ _ _ _ _ _ _); [simpl; lia|].
    specialize (IH (S a)). lia. }
  destruct (func a) as [v|e]; [|apply Hh].
  destruct (0 <? a); [|simpl; lia].
  destruct func_name_error as [raised|]; [apply Hh | simpl; lia].
Qed.

(** X2.  Whatever the function and the handler code do, neither wrapper
    calls the function more than [max_retries + 1] times; with a
    non-negative [max_retries] both call it at least once, and with a
    negative one neither calls it: [with_retry] then returns [None] and
    [with_graceful_retry] the default value. *)
Theorem retry_calls_bounded :
  strict_calls with_retry <= Z.to_nat (max_retries + 1)
  /\ calls with_graceful_retry <= Z.to_nat (max_retries + 1)
  /\ ((0 <= max_retries)%Z -> 1 <= strict_calls with_retry /\ 1 <= calls with_graceful_retry)
  /\ ((max_retries < 0)%Z ->
      with_retry = StrictRun ReturnedNone 0
      /\ with_graceful_retry = Run (Returns default_return) 0).
Proof.
  unfold Retry.with_graceful_retry, RetryStrict.with_retry.
  pose proof (strict_calls_bounded (Z.to_nat (max_retries + 1)) 0 None) as Hs.
  pose proof (graceful_calls_bounded (Z.to_nat (max_retries + 1)) 0) as Hg.
  split; [lia|]. split; [lia|]. split.
  - intros Hpos. lia.
  - intros Hneg. replace (Z.to_nat (max_retries + 1)) with 0 by lia. split; reflexivity.
Qed.

Lemma strict_attempts_skip (n remaining a : nat) (last : option Exn) :
  own_code_completes ->
  0 < n ->
  (forall j, a <= j < a + n -> fails_retryably j) ->
  (Z.of_nat (a + n) <= max_retries)%Z ->
  n <= remaining ->
  exists e, func (a + n - 1) = Raises e
            /\ strict_attempts remaining a last = strict_attempts (remaining - n) (a + n) (Some e).
Proof.
  intros Hown. revert remaining a last.
  induction n as [|n IH]; intros remaining a last Hn Hfail Hmax Hrem; [lia|].
  destruct remaining as [|remaining]; [lia|].
  destruct (Hfail a ltac:(lia)) as (e & He & Hr).
  simpl RetryStrict.strict_attempts at 1. rewrite He, Hr.
  destruct (Z.eqb_spec (Z.of_nat a) max_retries) as [Heq|_]; [lia|].
  rewrite (RetryFacts.back_off_completes Val Exn max_retries func
             func_name_error str_error default_text_error delay_error sleep_error
             a e Hown He) by lia.
  destruct n as [|n].
  - exists e. replace (a + 1 - 1) with a by lia. split; [exact He|].
    f_equal; lia.
  - destruct (IH remaining (S a) (Some e)) as (e' & He' & Heq);
      [lia | intros j Hj; apply Hfail; lia | lia | lia |].
    exists e'. replace (a + S (S n) - 1) with (S a + S n - 1) by lia.
    split; [exact He'|]. rewrite Heq. f_equal; lia.
Qed.

Lemma with_retry_from (k : nat) :
  own_code_completes ->
  (Z.of_nat k <= max_retries)%Z ->
  (forall j, j < k -> fails_retryably j) ->
  exists last, with_retry = strict_attempts (S (Z.to_nat max_retries - k)) k last.
Proof.
  intros Hown Hk Hfail. unfold RetryStrict.with_retry. destruct k as [|k].
  - exists None. f_equal. lia.
  - destruct (strict_attempts_skip (S k) (Z.to_nat (max_retries + 1)) 0 None Hown)
      as (e & _ & Heq); [lia | intros j Hj; apply Hfail; lia | lia | lia |].
    exists (Some e). rewrite Heq. f_equal. lia.
Qed.

Lemma with_retry_exhausted (e : Exn) :
  own_code_completes ->
  (0 <= max_retries)%Z ->
  (forall k, (Z.of_nat k <= max_retries)%Z -> fails_retryably k) ->
  func (Z.to_nat max_retries) = Raises e ->
  with_retry = StrictRun (Raised e) (Z.to_nat (max_retries + 1)).
Proof.
  intros Hown Hpos Hfail He.
  destruct (with_retry_from (Z.to_nat max_retries) Hown) as [last ->];
    [lia | intros j Hj; apply Hfail; lia |].
  destruct (Hfail (Z.to_nat max_retries) ltac:(lia)) as (e' & He' & Hr).
  rewrite He in He'. injection He' as <-.
  simpl. rewrite He, Hr.
  destruct (Z.eqb_spec (Z.of_nat (Z.to_nat max_retries)) max_retries); [|lia].
  rewrite (reraise_completes _ e Hown He). f_equal. lia.
Qed.

(** X1.  As long as its own handler code raises nothing, the wrapper of
    [with_retry] raises the error of the last attempt after
    [max_retries + 1] calls when every attempt fails with an error of the
    retry list; raises an error that is not on the retry list at once,
    without a further call; and returns the result of the first attempt
    that succeeds. *)
Theorem with_retry_reraises :
  own_code_completes ->
  (forall e,
      (0 <= max_retries)%Z ->
      (forall k, (Z.of_nat k <= max_retries)%Z -> fails_retryably k) ->
      func (Z.to_nat max_retries) = Raises e ->
      with_retry = StrictRun (Raised e) (Z.to_nat (max_retries + 1)))
  /\ (forall k e,
        (Z.of_nat k <= max_retries)%Z ->
        (forall j, j < k -> fails_retryably j) ->
        func k = Raises e ->
        retry_on_exceptions e = false ->
        with_retry = StrictRun (Raised e) (S k))
  /\ (forall k v,
        (Z.of_nat k <= max_retries)%Z ->
        (forall j, j < k -> fails_retryably j) ->
        func k = Returns v ->
        with_retry = StrictRun (Returned v) (S k)).
Proof.
  intros Hown. split; [|split].
  - intros e. now apply with_retry_exhausted.
  - intros k e Hk Hfail He Hr.
    destruct (with_retry_from k Hown Hk Hfail) as [last ->]. simpl. rewrite He, Hr.
    rewrite (reraise_completes _ e Hown He). now destruct (is_Exception e).
  - intros k v Hk Hfail Hv.
    destruct (with_retry_from k Hown Hk Hfail) as [last ->]. simpl. rewrite Hv.
    destruct Hown as (-> & _). now destruct (0 <? k).
Qed.

End Envelope.

Section DefaultConfig.

Variables (Val Exn : Type).
Variable is_Exception : Exn -> bool.
Variable is_listed_network_error : Exn -> bool.

(** X4.  The retry list of a [RetryConfig] built without one ends with
    [Exception], so the wrapper of [retry_on_network_error] retries every
    [Exception], network error or not: when each attempt fails with one
    (and the handler code raises nothing) the function is called
    [max_retries + 1] times and the last error is raised. *)
Theorem default_list_retries_every_exception (max_retries : Z)
    (func : nat -> outcome Val Exn) (func_name_error : option Exn)
    (str_error : Exn -> option Exn) (delay_error sleep_error : nat -> option Exn)
    (e : Exn) :
  own_code_completes Val Exn max_retries func func_name_error str_error None
    delay_error sleep_error ->
  (0 <= max_retries)%Z ->
  (forall k, exists e', func k = Raises e' /\ is_Exception e' = true) ->
  func (Z.to_nat max_retries) = Raises e ->
  retry_on_network_error Val Exn is_Exception is_listed_network_error max_retries func
    func_name_error str_error delay_error sleep_error
  = StrictRun (Raised e) (Z.to_nat (max_retries + 1)).
Proof.
  intros Hown Hpos Hfail He.
  apply (with_retry_exhausted Val Exn _ is_Exception max_retries func func_name_error
           str_error None delay_error sleep_error e Hown Hpos); [|exact He].
  intros k _. destruct (Hfail k) as (e' & He' & Hx). exists e'. split; [exact He'|].
  unfold default_retry_on_exceptions. now rewrite Hx, orb_true_r.
Qed.

End DefaultConfig.

Lemma graceful_softens_with_retry_witness :
  calls (sample_graceful_retry sample_retry_on flaky_call)
  = strict_calls (sample_with_retry sample_retry_on flaky_call).
Proof.
  refine (proj1 (graceful_softens_with_retry nat sample_exn sample_retry_on
                   sample_is_Exception 5 0 flaky_call None sample_str_error None
                   sample_delay_error sample_sleep_error _)).
  repeat split; reflexivity.
Defined.

Lemma retry_calls_bounded_witness :
  1 <= strict_calls (sample_with_retry sample_retry_on bad_value_call)
  /\ 1 <= calls (sample_graceful_retry sample_retry_on bad_value_call).
Proof.
  refine (proj1 (proj2 (proj2
    (retry_calls_bounded nat sample_exn sample_retry_on sample_is_Exception 5 0
       bad_value_call None sample_str_error None sample_delay_error sample_sleep_error))) _).
  lia.
Defined.

Lemma with_retry_reraises_witness :
  sample_with_retry sample_retry_on offline_call = StrictRun (Raised ConnectionError) 6.
Proof.
  refine (proj1 (with_retry_reraises nat sample_exn sample_retry_on sample_is_Exception 5
                   offline_call None sample_str_error None sample_delay_error
                   sample_sleep_error _) ConnectionError _ _ _).
  - repeat split; reflexivity.
  - lia.
  - intros k _. exists ConnectionError. split; reflexivity.
  - reflexivity.
Defined.

Lemma default_list_retries_every_exception_witness :
  retry_on_network_error nat sample_exn sample_is_Exception sample_retry_on 3
    bad_value_call None sample_str_error sample_delay_error sample_sleep_error
  = StrictRun (Raised ValueError) 4.
Proof.
  refine (default_list_retries_every_exception nat sample_exn sample_is_Exception
            sample_retry_on 3 bad_value_call None sample_str_error sample_delay_error
            sample_sleep_error ValueError _ _ _ _).
  - repeat split; reflexivity.
  - lia.
  - intros k. exists ValueError. split; reflexivity.
  - reflexivity.
Defined.

End RetryStrictFacts.


(** ** The start guard once the system has started *)

Module AppMoreFacts.
Import App AppNotions AppFacts.
Local Open Scope nat_scope.

Lemma count_where_zero (f : pc -> bool) (l : list pc) :
  count_where f l = 0 -> Forall (fun p => f p = false) l.
Proof.
  unfold count_where. induction l as [|x l IH]; simpl; [constructor|].
  destruct (f x) eqn:E; simpl; [discriminate|]. intros H. constructor; auto.
Qed.

Lemma count_where_none (f : pc -> bool) (l : list pc) :
  Forall (fun p => f p = false) l -> count_where f l = 0.
Proof.
  unfold count_where. induction 1 as [|x l Hx _ IH]; simpl; [reflexivity|].
  now rewrite Hx.
Qed.

Lemma count_where_one (f : pc -> bool) (l : list pc) (i : nat) (p : pc) :
  count_where f l <= 1 -> l !! i = Some p -> f p = true ->
  forall j q, j <> i -> l !! j = Some q -> f q = false.
Proof.
  revert i. induction l as [|x l IH]; intros i Hc Hi Hp j q Hne Hj; [discriminate|].
  unfold count_where in *. simpl in Hc.
  destruct i as [|i], j as [|j]; simpl in *; try congruence.
  - injection Hi as ->. rewrite Hp in Hc. simpl in Hc.
    assert (H0 : count_where f l = 0) by (unfold count_where; lia).
    apply count_where_zero in H0. rewrite Forall_lookup in H0. eauto.
  - injection Hj as ->. destruct (f q) eqn:E; [|reflexivity]. simpl in Hc.
    assert (H0 : count_where f l = 0) by (unfold count_where; lia).
    apply count_where_zero in H0. rewrite Forall_lookup in H0.
    rewrite (H0 _ _ Hi) in Hp. discriminate.
  - apply (IH i) with (j := j); [|assumption|assumption|lia|assumption].
    destruct (f x); simpl in Hc; lia.
Qed.

Lemma server_step_settled (sv : server) (e : event) :
  match e with Advance _ InitErrors => False | _ => True end ->
  started_settled sv -> started_settled (server_step sv e).
Proof.
  intros Hok [Hheld Hnone]. split; [now apply server_step_holds|].
  destruct e as [|i o]; simpl.
  - intros Hs. unfold none_initializing. simpl. apply Forall_app. split; [now apply Hnone|].
    repeat constructor.
  - destruct (requests sv !! i) as [p|] eqn:Ep; [|exact Hnone].
    destruct (request_step o p (flags sv)) as [[p' s']|] eqn:Es; [|exact Hnone].
    simpl. intros Hs. unfold none_initializing. simpl.
    destruct sv as [[st sg] rs]. simpl in *. unfold none_initializing in Hnone. simpl in Hnone.
    destruct p; simpl in Es.
    + unfold _prepare_system_start in Es. simpl in Es.
      destruct st, sg; simpl in Es; injection Es as <- <-; simpl in *; try discriminate;
        (apply Forall_insert; [now apply Hnone | exact I]).
    + discriminate.
    + destruct o; [| contradiction |]; injection Es as <- <-; simpl in *;
        specialize (Hnone Hs); rewrite Forall_lookup in Hnone;
        specialize (Hnone _ _ Ep); contradiction.
    + injection Es as <- <-. simpl in *.
      specialize (Hnone Hs). rewrite Forall_lookup in Hnone.
      specialize (Hnone _ _ Ep). contradiction.
    + injection Es as <- <-. simpl in *. subst success.
      assert (Hc : count_where holds_start rs <= 1).
      { unfold start_held_once in Hheld. simpl in Hheld. rewrite Hheld.
        destruct sg; simpl; lia. }
      apply Forall_lookup. intros j q Hq.
      destruct (decide (j = i)) as [->|Hne].
      * rewrite list_lookup_insert_eq in Hq by (eapply lookup_lt_Some; eauto).
        injection Hq as <-. exact I.
      * rewrite list_lookup_insert_ne in Hq by congruence.
        pose proof (count_where_one holds_start rs i _ Hc Ep eq_refl j q Hne Hq) as Hf.
        destruct q; simpl in Hf; try discriminate; exact I.
    + injection Es as <- <-. simpl in *.
      apply Forall_insert; [now apply Hnone | exact I].
    + discriminate.
Qed.

Lemma server_step_started (sv : server) (e : event) :
  match e with Advance _ InitErrors => False | _ => True end ->
  started_settled sv -> started (flags sv) = true ->
  started (flags (server_step sv e)) = true.
Proof.
  intros Hok [Hheld Hnone] Hs. specialize (Hnone Hs).
  destruct e as [|i o]; simpl; [exact Hs|].
  destruct (requests sv !! i) as [p|] eqn:Ep; [|exact Hs].
  destruct (request_step o p (flags sv)) as [[p' s']|] eqn:Es; [|exact Hs].
  simpl. unfold none_initializing in Hnone. rewrite Forall_lookup in Hnone.
  specialize (Hnone _ _ Ep).
  destruct sv as [[st sg] rs]. simpl in *. subst st.
  destruct p; simpl in Es; try contradiction; try discriminate;
    injection Es as <- <-; reflexivity.
Qed.

Lemma server_step_turned_away (sv : server) (e : event) (n : nat) :
  started (flags sv) = true ->
  Forall turned_away (drop n (requests sv)) ->
  Forall turned_away (drop n (requests (server_step sv e))).
Proof.
  intros Hs Hall. destruct e as [|i o]; simpl.
  - rewrite drop_app. apply Forall_app. split; [exact Hall|].
    apply Forall_drop. repeat constructor.
  - destruct (requests sv !! i) as [p|] eqn:Ep; [|exact Hall].
    destruct (request_step o p (flags sv)) as [[p' s']|] eqn:Es; [|exact Hall].
    simpl. destruct (decide (i < n)) as [Hlt|Hge].
    + rewrite drop_insert_lt by lia. exact Hall.
    + rewrite drop_insert_ge by lia. apply Forall_insert; [exact Hall|].
      rewrite Forall_lookup in Hall.
      assert (Hp : drop n (requests sv) !! (i - n) = Some p).
      { rewrite lookup_drop. replace (n + (i - n)) with i by lia. exact Ep. }
      specialize (Hall _ _ Hp). destruct sv as [[st sg] rs]. simpl in *. subst st.
      destruct Hall as [-> | ->]; simpl in Es; [|discriminate].
      injection Es as <- <-. now right.
Qed.

Lemma run_server_app (sv : server) (s1 s2 : list event) :
  run_server sv (s1 ++ s2) = run_server (run_server sv s1) s2.
Proof. unfold run_server. apply fold_left_app. Qed.

Lemma run_server_settled (schedule : list event) (sv : server) :
  no_init_errors schedule -> started_settled sv -> started_settled (run_server sv schedule).
Proof.
  intros Hok. revert sv. induction Hok as [|e schedule He _ IH]; intros sv Hinv; simpl.
  - exact Hinv.
  - apply IH. now apply server_step_settled.
Qed.

(** X5.  Among start requests whose initialization reports no errors
    (so that [cleanup_processes] never runs), once [started] is set it
    stays set: however the requests interleave afterwards, every request
    that arrives later is answered with the already-started message or
    has not reached the guard yet, and none is being initialized. *)
Theorem started_is_stable (before after : list event) :
  no_init_errors (before ++ after) ->
  started (flags (run_server initial_server before)) = true ->
  started (flags (run_server initial_server (before ++ after))) = true
  /\ Forall turned_away
       (drop (length (requests (run_server initial_server before)))
          (requests (run_server initial_server (before ++ after))))
  /\ count_where in_initialization (requests (run_server initial_server (before ++ after))) = 0.
Proof.
  intros Hok Hs. rewrite run_server_app.
  set (sv1 := run_server initial_server before) in *.
  apply Forall_app in Hok as [Hok1 Hok2].
  assert (Hset : started_settled sv1).
  { apply run_server_settled; [exact Hok1|]. split; [reflexivity|]. discriminate. }
  assert (Hdrop : Forall turned_away (drop (length (requests sv1)) (requests sv1)))
    by (rewrite drop_all; constructor).
  generalize dependent (length (requests sv1)). intros n Hdrop.
  clearbody sv1. revert sv1 Hs Hset Hdrop.
  induction Hok2 as [|e after He _ IH]; intros sv1 Hs Hset Hdrop; simpl.
  - split; [exact Hs|]. split; [exact Hdrop|].
    destruct Hset as [_ Hnone]. specialize (Hnone Hs).
    apply count_where_none. eapply Forall_impl; [exact Hnone|].
    intros p Hp. now destruct p.
  - apply IH.
    + now apply server_step_started.
    + now apply server_step_settled.
    + now apply server_step_turned_away.
Qed.

Lemma started_is_stable_witness :
  started (flags (run_server initial_server
                    ([NewRequest; Advance 0 InitOk; Advance 0 InitOk; Advance 0 InitOk]
                     ++ [NewRequest; Advance 1 InitOk; Advance 0 InitOk; NewRequest])))
  = true
  /\ requests (run_server initial_server
                 ([NewRequest; Advance 0 InitOk; Advance 0 InitOk; Advance 0 InitOk]
                  ++ [NewRequest; Advance 1 InitOk; Advance 0 InitOk; NewRequest]))
     = [Finished; Rejected "System already started"; Arrived].
Proof.
  split; [|reflexivity].
  refine (proj1 (started_is_stable
                   [NewRequest; Advance 0 InitOk; Advance 0 InitOk; Advance 0 InitOk]
                   [NewRequest; Advance 1 InitOk; Advance 0 InitOk; NewRequest] _ _)).
  - repeat constructor.
  - reflexivity.
Defined.

End AppMoreFacts.


(** ** The baseline of the readiness gate *)

Module ReportBaselineFacts.
Import Py Report ReportBaseline ReportFacts Samples MoreSamples.

Section Baseline.

Variable fs : filesystem.

Lemma count_engine_counts acc engine directory acc' :
  count_engine fs acc engine directory = Some acc' ->
  acc' = <[engine := md_count fs directory]> acc /\ fs directory <> Some NotDirectory.
Proof.
  unfold count_engine, md_count.
  destruct (fs directory) as [[entries|]|]; [|discriminate|]; intros [= <-]; split;
    congruence.
Qed.

Lemma count_engines_total directories acc acc' :
  count_engines fs acc directories = Some acc' ->
  Forall (fun ed => fs ed.2 <> Some NotDirectory) directories.
Proof.
  revert acc. induction directories as [|[e d] rest IH]; intros acc; simpl; [constructor|].
  destruct (count_engine fs acc e d) as [acc1|] eqn:E; [|discriminate].
  intros H. apply count_engine_counts in E as [_ E]. constructor; [exact E|]. eapply IH; eauto.
Qed.

(** The scan of [check_new_files] counts what [initialize_baseline] counts. *)
Lemma check_engines_counts_as_baseline baseline_data directories acc counts scanned :
  count_engines fs (current_counts acc) directories = Some counts ->
  check_engines fs baseline_data acc directories = Some scanned ->
  current_counts scanned = counts.
Proof.
  revert acc. induction directories as [|[e d] rest IH]; intros acc; simpl.
  - now intros [= <-] [= <-].
  - destruct (count_engine fs (current_counts acc) e d) as [c1|] eqn:E1; [|discriminate].
    destruct (check_engine fs baseline_data acc e d) as [acc1|] eqn:E2; [|discriminate].
    intros H1 H2. apply (IH acc1); [|exact H2].
    apply count_engine_counts in E1 as [-> _].
    apply check_engine_ready in E2 as [_ ->]. exact H1.
Qed.

Lemma count_engines_keeps directories acc acc' engine :
  count_engines fs acc directories = Some acc' ->
  ~ In engine (List.map fst directories) ->
  acc' !! engine = acc !! engine.
Proof.
  revert acc. induction directories as [|[e d] rest IH]; intros acc; simpl.
  - now intros [= <-].
  - destruct (count_engine fs acc e d) as [acc1|] eqn:E; [|discriminate].
    intros H Hnotin. apply count_engine_counts in E as [-> _].
    rewrite (IH _ H) by tauto. apply lookup_insert_ne. intros ->. tauto.
Qed.

Lemma count_engines_lookup directories acc acc' engine directory :
  count_engines fs acc directories = Some acc' ->
  NoDup (List.map fst directories) ->
  In (engine, directory) directories ->
  acc' !! engine = Some (md_count fs directory).
Proof.
  revert acc. induction directories as [|[e d] rest IH]; intros acc; simpl; [tauto|].
  destruct (count_engine fs acc e d) as [acc1|] eqn:E; [|discriminate].
  intros H Hnd [Heq|Hin].
  - injection Heq as -> ->. apply NoDup_cons in Hnd as [Hnotin _].
    apply count_engine_counts in E as [-> _].
    rewrite (count_engines_keeps _ _ _ _ H) by (now rewrite <- list_elem_of_In).
    apply lookup_insert_eq.
  - apply NoDup_cons in Hnd as [_ Hnd]. eapply IH; eauto.
Qed.

(** What [new_files_found] holds for an engine after the scan. *)
Lemma check_engine_new_files baseline_data acc engine directory acc' :
  check_engine fs baseline_data acc engine directory = Some acc' ->
  new_files_found acc'
  = <[engine := new_files_of fs baseline_data engine directory]> (new_files_found acc).
Proof.
  unfold check_engine, new_files_of.
  destruct (fs directory) as [[entries|]|]; [|discriminate|].
  - destruct (Z.gtb_spec (Z.of_nat (length (md_files entries)))
                (default 0%Z (baseline_data !! engine)));
      intros [= <-]; simpl; f_equal; lia.
  - now intros [= <-].
Qed.

Lemma check_engines_new_files_keeps baseline_data directories acc acc' engine :
  check_engines fs baseline_data acc directories = Some acc' ->
  ~ In engine (List.map fst directories) ->
  new_files_found acc' !! engine = new_files_found acc !! engine.
Proof.
  revert acc. induction directories as [|[e d] rest IH]; intros acc; simpl.
  - now intros [= <-].
  - destruct (check_engine fs baseline_data acc e d) as [acc1|] eqn:E; [|discriminate].
    intros H Hnotin. rewrite (IH _ H) by tauto.
    rewrite (check_engine_new_files _ _ _ _ _ E). apply lookup_insert_ne. intros ->. tauto.
Qed.

Lemma check_engines_new_files baseline_data directories acc acc' engine directory :
  check_engines fs baseline_data acc directories = Some acc' ->
  NoDup (List.map fst directories) ->
  In (engine, directory) directories ->
  new_files_found acc' !! engine = Some (new_files_of fs baseline_data engine directory).
Proof.
  revert acc. induction directories as [|[e d] rest IH]; intros acc; simpl; [tauto|].
  destruct (check_engine fs baseline_data acc e d) as [acc1|] eqn:E; [|discriminate].
  intros H Hnd [Heq|Hin].
  - injection Heq as -> ->. apply NoDup_cons in Hnd as [Hnotin _].
    rewrite (check_engines_new_files_keeps _ _ _ _ _ H) by (now rewrite <- list_elem_of_In).
    rewrite (check_engine_new_files _ _ _ _ _ E). apply lookup_insert_eq.
  - apply NoDup_cons in Hnd as [_ Hnd]. eapply IH; eauto.
Qed.

Lemma new_files_of_zero baseline_data engine directory :
  new_files_of fs baseline_data engine directory = 0%Z
  <-> ~ has_new_files fs baseline_data engine directory.
Proof.
  unfold new_files_of, has_new_files, md_count.
  destruct (fs directory) as [[entries|]|]; split; try reflexivity.
  - intros H [_ Hgt]. lia.
  - intros H. destruct (Z.max_spec 0 (Z.of_nat (length (md_files entries))
                                        - default 0%Z (baseline_data !! engine)))
      as [[Hlt ->]|[_ ->]]; [|reflexivity].
    exfalso. apply H. split; [eauto|lia].
  - intros _ [[entries H] _]. discriminate.
  - intros _ [[entries H] _]. discriminate.
Qed.

Lemma new_files_of_nonzero baseline_data engine directory :
  new_files_of fs baseline_data engine directory <> 0%Z ->
  has_new_files fs baseline_data engine directory.
Proof.
  unfold new_files_of, has_new_files, md_count.
  destruct (fs directory) as [[entries|]|]; [|congruence..].
  intros H. split; [eauto|]. lia.
Qed.

Lemma filter_nil_iff {A} (f : A -> bool) (l : list A) :
  List.filter f l = [] <-> forall x, In x l -> f x = false.
Proof.
  induction l as [|a l IH]; simpl; [tauto|].
  destruct (f a) eqn:E; split.
  - discriminate.
  - intros H. specialize (H a (or_introl eq_refl)). congruence.
  - intros H x [<-|Hin]; [exact E|]. now apply IH.
  - intros H. apply IH. auto.
Qed.

(** X6.  For a dict of directories (no engine twice), in what
    [check_new_files] returns [ready] is true exactly when
    [missing_engines] is empty; for every engine [new_files_found] holds
    the excess of its count of [.md] files over the baseline, or 0
    without an excess or without the directory; and an engine is listed
    in [missing_engines] exactly when it has no new file. *)
Theorem ready_iff_no_missing_engine (baseline_data : gmap string Z)
    (directories : list (string * str)) (r : new_files_check) :
  NoDup (List.map fst directories) ->
  check_new_files fs baseline_data directories = Some r ->
  (nf_ready r = true <-> nf_missing_engines r = [])
  /\ (forall engine directory,
        In (engine, directory) directories ->
        nf_new_files_found r !! engine = Some (new_files_of fs baseline_data engine directory)
        /\ (In engine (nf_missing_engines r)
            <-> ~ has_new_files fs baseline_data engine directory)).
Proof.
  intros Hnd. unfold check_new_files.
  destruct (check_engines fs baseline_data (Scan ∅ ∅ true) directories) as [acc|] eqn:E;
    [|discriminate].
  intros [= <-]. simpl.
  assert (Hnew : forall engine directory, In (engine, directory) directories ->
            new_files_found acc !! engine
            = Some (new_files_of fs baseline_data engine directory))
    by (intros; eapply check_engines_new_files; eauto).
  split.
  - rewrite (check_engines_ready _ _ _ _ _ E), filter_nil_iff. simpl. split.
    + intros [_ Hall] engine Hin. apply in_map_iff in Hin as ([e d] & <- & Hin). simpl.
      apply bool_decide_eq_false. rewrite (Hnew _ _ Hin). intros [= H0].
      apply new_files_of_zero in H0. apply H0.
      rewrite Forall_forall in Hall. rewrite <- list_elem_of_In in Hin. apply (Hall _ Hin).
    + intros H. split; [reflexivity|]. apply Forall_forall. intros [e d] Hin. simpl.
      rewrite list_elem_of_In in Hin.
      specialize (H e (in_map fst _ _ Hin)). simpl in H.
      apply bool_decide_eq_false in H. rewrite (Hnew _ _ Hin) in H.
      apply new_files_of_nonzero. congruence.
  - intros engine directory Hin. split; [now apply Hnew|].
    rewrite filter_In, bool_decide_eq_true, (Hnew _ _ Hin).
    rewrite <- new_files_of_zero. split.
    + intros [_ [= H]]. exact H.
    + intros H. split; [apply (in_map fst _ _ Hin) | now rewrite H].
Qed.

(** X7.  Right after [initialize_baseline] has taken the baseline of at
    least one directory, and before any report is written,
    [check_new_files] over the same directories succeeds and is not
    ready: its counts are the baseline, every engine is listed as
    missing, and [check_input_files] over the three engine directories
    reports [ready] false. *)
Theorem fresh_baseline_is_not_ready (directories : list (string * str))
    (baseline_data : gmap string Z) :
  NoDup (List.map fst directories) ->
  directories <> [] ->
  initialize_baseline fs directories = Some baseline_data ->
  exists r,
    check_new_files fs baseline_data directories = Some r
    /\ nf_ready r = false
    /\ nf_current_counts r = baseline_data
    /\ nf_missing_engines r = List.map fst directories
    /\ (forall insight_dir media_dir query_dir forum_log_path,
          directories = engine_directories insight_dir media_dir query_dir ->
          ready <$> check_input_files fs baseline_data insight_dir media_dir query_dir
                      forum_log_path
          = Some false).
Proof.
  intros Hnd Hne Hinit. unfold initialize_baseline in Hinit.
  destruct (check_engines_total fs baseline_data directories (Scan ∅ ∅ true)
              (count_engines_total _ _ _ Hinit)) as [acc E].
  assert (Hstale : forall e d, In (e, d) directories -> ~ has_new_files fs baseline_data e d).
  { intros e d Hin [_ Hgt]. rewrite (count_engines_lookup _ _ _ _ _ Hinit Hnd Hin) in Hgt.
    simpl in Hgt. lia. }
  assert (Hready : all_have_new acc = false).
  { apply not_true_is_false. intros H. apply (check_engines_ready _ _ _ _ _ E) in H as [_ H].
    destruct directories as [|[e d] rest]; [congruence|].
    apply Forall_cons in H as [H _]. apply (Hstale e d); [now left | exact H]. }
  assert (Hr : check_new_files fs baseline_data directories
               = Some (NewFilesCheck (all_have_new acc) baseline_data (current_counts acc)
                         (new_files_found acc)
                         (List.filter (fun engine =>
                              bool_decide (new_files_found acc !! engine = Some 0%Z))
                            (List.map fst directories))))
    by (unfold check_new_files; now rewrite E).
  eexists. split; [exact Hr|]. simpl.
  split; [exact Hready|].
  split; [apply (check_engines_counts_as_baseline baseline_data directories
                   (Scan ∅ ∅ true) baseline_data acc Hinit E)|].
  split.
  - apply forallb_filter_id. apply forallb_forall. intros e Hin.
    apply in_map_iff in Hin as ([e' d] & <- & Hin). simpl. apply bool_decide_eq_true.
    rewrite (check_engines_new_files _ _ _ _ _ _ E Hnd Hin). f_equal.
    apply new_files_of_zero. now apply Hstale.
  - intros insight_dir media_dir query_dir forum_log_path ->.
    unfold check_input_files. rewrite Hr. simpl. now rewrite Hready.
Qed.

End Baseline.

Lemma sample_directories_NoDup : NoDup (List.map fst sample_directories).
Proof.
  apply (bool_decide_unpack _). vm_compute. reflexivity.
Defined.

Lemma ready_iff_no_missing_engine_witness :
  check_new_files (sample_fs 3 5 3) sample_baseline sample_directories
  = Some sample_new_files_check
  /\ (nf_ready sample_new_files_check = true <-> nf_missing_engines sample_new_files_check = [])
  /\ nf_missing_engines sample_new_files_check = ["insight"; "query"]%string.
Proof.
  assert (E : check_new_files (sample_fs 3 5 3) sample_baseline sample_directories
              = Some sample_new_files_check) by (vm_compute; reflexivity).
  split; [exact E|]. split; [|vm_compute; reflexivity].
  exact (proj1 (ready_iff_no_missing_engine (sample_fs 3 5 3) sample_baseline
                  sample_directories sample_new_files_check sample_directories_NoDup E)).
Defined.

Lemma fresh_baseline_is_not_ready_witness :
  exists r,
    check_new_files (sample_fs 3 5 3) sample_fresh_baseline sample_directories = Some r
    /\ nf_ready r = false
    /\ nf_current_counts r = sample_fresh_baseline
    /\ nf_missing_engines r = ["insight"; "media"; "query"]%string.
Proof.
  assert (E : initialize_baseline (sample_fs 3 5 3) sample_directories
              = Some sample_fresh_baseline) by (vm_compute; reflexivity).
  assert (Hne : sample_directories <> []) by discriminate.
  destruct (fresh_baseline_is_not_ready (sample_fs 3 5 3) sample_directories
              sample_fresh_baseline sample_directories_NoDup Hne E)
    as (r & H1 & H2 & H3 & H4 & _).
  exists r. repeat split; assumption.
Defined.

End ReportBaselineFacts.
